(** * banking-ledger: the transaction processing engine

    A shallow embedding of the Go sources of the ledger service
    (internal/domain, internal/repository, internal/queue and
    internal/usecase) and the properties of its natural-language
    specification that concern them.

    Modelling conventions.
    - Monetary amounts ([float64] in Go, [DECIMAL(20,8)] in the accounts
      table, "exact fixed-point" in the specification) are integers [Z]
      counting units of 10^-8; rounding of binary floating point is not
      modelled.
    - The optimistic-locking counter ([int64], [BIGINT]) is a [Z]; the
      2^63 boundary is not modelled.
    - Go strings are [string]; [*string] is [option string]; a Go [error]
      is a value of the inductive type [domain.error] and [nil] is the
      absence of one.
    - The accounts table and the transactions collection are finite maps
      keyed by primary key.  Both stores answer every statement (driver and
      network failures of the two databases are not modelled); the message
      broker may refuse a publish. *)

From stdpp Require Import gmap strings list fin_maps.
From Stdlib Require Import ZArith Lia.

Local Open Scope string_scope.
Local Open Scope Z_scope.

(** ** internal/domain *)

Module domain.

(** errors.go: the sentinel errors, plus wrapping by
    [fmt.Errorf("<prefix>: %w", cause)] and errors raised by libraries. *)
Inductive error : Type :=
| ErrAccountNotFound
| ErrAccountExists
| ErrInsufficientFunds
| ErrAccountInactive
| ErrInvalidAccountID
| ErrConcurrentUpdate
| ErrTransactionNotFound
| ErrInvalidAmount
| ErrInvalidTransactionType
| ErrMissingCurrency
| ErrMissingFromAccount
| ErrMissingToAccount
| ErrMissingAccounts
| ErrSameAccount
| ErrTransactionAlreadyProcessed
| ErrCurrencyMismatch
| ErrInvalidInput
| ErrDatabaseError
| ErrQueueError
| ErrInternalError
| ErrServiceUnavailable
| Errorf (prefix : string) (cause : error)
| External (msg : string).

(** [err.Error()] *)
Fixpoint Error (e : error) : string :=
  match e with
  | ErrAccountNotFound => "account not found"
  | ErrAccountExists => "account already exists"
  | ErrInsufficientFunds => "insufficient funds"
  | ErrAccountInactive => "account is inactive"
  | ErrInvalidAccountID => "invalid account ID"
  | ErrConcurrentUpdate => "concurrent update detected"
  | ErrTransactionNotFound => "transaction not found"
  | ErrInvalidAmount => "invalid amount"
  | ErrInvalidTransactionType => "invalid transaction type"
  | ErrMissingCurrency => "missing currency"
  | ErrMissingFromAccount => "missing from account"
  | ErrMissingToAccount => "missing to account"
  | ErrMissingAccounts => "missing from and to accounts"
  | ErrSameAccount => "from and to accounts cannot be the same"
  | ErrTransactionAlreadyProcessed => "transaction already processed"
  | ErrCurrencyMismatch => "currency mismatch"
  | ErrInvalidInput => "invalid input"
  | ErrDatabaseError => "database error"
  | ErrQueueError => "queue error"
  | ErrInternalError => "internal error"
  | ErrServiceUnavailable => "service unavailable"
  | Errorf prefix cause => prefix ++ ": " ++ Error cause
  | External msg => msg
  end.

(** models.go *)
Definition TransactionType := string.
Definition TransactionTypeDeposit : TransactionType := "deposit".
Definition TransactionTypeWithdrawal : TransactionType := "withdrawal".
Definition TransactionTypeTransfer : TransactionType := "transfer".

Definition TransactionStatus := string.
Definition TransactionStatusPending : TransactionStatus := "pending".
Definition TransactionStatusCompleted : TransactionStatus := "completed".
Definition TransactionStatusFailed : TransactionStatus := "failed".
Definition TransactionStatusCancelled : TransactionStatus := "cancelled".

Module Account.
Record t : Type := mk {
  ID : string;
  UserID : string;
  Balance : Z;
  Currency : string;
  Status : string;
  CreatedAt : Z;
  UpdatedAt : Z;
  Version : Z
}.
End Account.

Module Transaction.
Record t : Type := mk {
  ID : string;
  Type_ : TransactionType;
  FromAccountID : option string;
  ToAccountID : option string;
  Amount : Z;
  Currency : string;
  Status : TransactionStatus;
  Description : string;
  Reference : string;
  Metadata : string;
  CreatedAt : Z;
  UpdatedAt : Z;
  ProcessedAt : option Z;
  ErrorMessage : string
}.
End Transaction.

Module TransactionRequest.
Record t : Type := mk {
  ID : string;
  Type_ : TransactionType;
  FromAccountID : option string;
  ToAccountID : option string;
  Amount : Z;
  Currency : string;
  Description : string;
  Reference : string;
  Metadata : string
}.

(** [func (tr *TransactionRequest) IsValid() error]; [None] is [nil]. *)
Definition IsValid (tr : t) : option error :=
  if Amount tr <=? 0 then Some ErrInvalidAmount
  else if decide (Currency tr = "") then Some ErrMissingCurrency
  else if decide (Type_ tr = TransactionTypeDeposit) then
    match ToAccountID tr with
    | None => Some ErrMissingToAccount
    | Some _ => None
    end
  else if decide (Type_ tr = TransactionTypeWithdrawal) then
    match FromAccountID tr with
    | None => Some ErrMissingFromAccount
    | Some _ => None
    end
  else if decide (Type_ tr = TransactionTypeTransfer) then
    match FromAccountID tr, ToAccountID tr with
    | Some from, Some to =>
        if decide (from = to) then Some ErrSameAccount else None
    | _, _ => Some ErrMissingAccounts
    end
  else Some ErrInvalidTransactionType.
End TransactionRequest.

End domain.

Import domain.

(** ** Results of Go calls

    A call returns normally ([Ok]), returns a non-nil [error] ([Fail]), or
    panics (dereference of a nil [*string]). *)

Inductive Result (A : Type) : Type :=
| Ok (a : A)
| Fail (e : error)
| Panic.
Arguments Ok {A} a.
Arguments Fail {A} e.
Arguments Panic {A}.

(** ** internal/repository

    Every repository method is a function from the stored rows to a result
    and the new rows; the values returned by the [time.Now()] and
    [uuid.New()] calls in its body are arguments. *)

Module PostgreSQLAccountRepository.

(** A row with the same primary key, or with the same
    [(user_id, currency)] pair, makes the INSERT raise 23505. *)
Definition unique_violation (account : Account.t)
    (rows : gmap string Account.t) : Prop :=
  is_Some (rows !! Account.ID account) ∨
  map_Exists (λ _ existing,
    Account.UserID existing = Account.UserID account ∧
    Account.Currency existing = Account.Currency account) rows.

#[export] Instance unique_violation_dec account rows :
  Decision (unique_violation account rows).
Proof. unfold unique_violation. apply _. Defined.

Definition Create (now1 now2 : Z) (uuid : string) (account : Account.t)
    (rows : gmap string Account.t) : Result Account.t * gmap string Account.t :=
  let id := if decide (Account.ID account = "") then uuid else Account.ID account in
  let account :=
    Account.mk id (Account.UserID account) (Account.Balance account)
      (Account.Currency account) (Account.Status account) now1 now2 1 in
  if decide (unique_violation account rows) then (Fail ErrAccountExists, rows)
  else (Ok account, <[id := account]> rows).

Definition GetByID (id : string) (rows : gmap string Account.t)
    : Result Account.t * gmap string Account.t :=
  match rows !! id with
  | None => (Fail ErrAccountNotFound, rows)
  | Some account => (Ok account, rows)
  end.

(** [UPDATE accounts SET user_id, balance, currency, status, updated_at,
    version = version + 1 WHERE id = :id AND version = :version] *)
Definition Update (now : Z) (account : Account.t)
    (rows : gmap string Account.t) : Result unit * gmap string Account.t :=
  match rows !! Account.ID account with
  | Some stored =>
      if decide (Account.Version stored = Account.Version account) then
        if decide (map_Exists (λ id existing,
               id ≠ Account.ID account ∧
               Account.UserID existing = Account.UserID account ∧
               Account.Currency existing = Account.Currency account) rows)
        then (Fail (Errorf "failed to update account"
                      (External "pq: duplicate key value violates unique constraint")),
              rows)
        else
          (Ok tt,
           <[Account.ID account :=
               Account.mk (Account.ID stored) (Account.UserID account)
                 (Account.Balance account) (Account.Currency account)
                 (Account.Status account) (Account.CreatedAt stored) now
                 (Account.Version stored + 1)]> rows)
      else (Fail ErrConcurrentUpdate, rows)
  | None => (Fail ErrConcurrentUpdate, rows)
  end.

(** [UPDATE accounts SET balance = $1, updated_at = $2,
    version = version + 1 WHERE id = $3 AND version = $4]; no row
    affected is reported as [ErrConcurrentUpdate]. *)
Definition UpdateBalance (now : Z) (id : string) (newBalance : Z) (version : Z)
    (rows : gmap string Account.t) : Result unit * gmap string Account.t :=
  match rows !! id with
  | Some stored =>
      if decide (Account.Version stored = version) then
        (Ok tt,
         <[id := Account.mk (Account.ID stored) (Account.UserID stored)
                   newBalance (Account.Currency stored) (Account.Status stored)
                   (Account.CreatedAt stored) now
                   (Account.Version stored + 1)]> rows)
      else (Fail ErrConcurrentUpdate, rows)
  | None => (Fail ErrConcurrentUpdate, rows)
  end.

Definition Delete (id : string) (rows : gmap string Account.t)
    : Result unit * gmap string Account.t :=
  match rows !! id with
  | Some _ => (Ok tt, delete id rows)
  | None => (Fail ErrAccountNotFound, rows)
  end.

End PostgreSQLAccountRepository.

Module MongoTransactionRepository.

Definition Create (now1 now2 : Z) (uuid : string) (transaction : Transaction.t)
    (docs : gmap string Transaction.t)
    : Result Transaction.t * gmap string Transaction.t :=
  let id := if decide (Transaction.ID transaction = "") then uuid
            else Transaction.ID transaction in
  let transaction :=
    Transaction.mk id (Transaction.Type_ transaction)
      (Transaction.FromAccountID transaction) (Transaction.ToAccountID transaction)
      (Transaction.Amount transaction) (Transaction.Currency transaction)
      (Transaction.Status transaction) (Transaction.Description transaction)
      (Transaction.Reference transaction) (Transaction.Metadata transaction)
      now1 now2 (Transaction.ProcessedAt transaction)
      (Transaction.ErrorMessage transaction) in
  match docs !! id with
  | Some _ =>
      (Fail (Errorf "failed to create transaction"
               (External "E11000 duplicate key error")), docs)
  | None => (Ok transaction, <[id := transaction]> docs)
  end.

Definition GetByID (id : string) (docs : gmap string Transaction.t)
    : Result Transaction.t * gmap string Transaction.t :=
  match docs !! id with
  | None => (Fail ErrTransactionNotFound, docs)
  | Some transaction => (Ok transaction, docs)
  end.

(** [$set] of status, error_message and updated_at, and of processed_at
    when the new status is completed, on the document with this [_id]. *)
Definition UpdateStatus (now1 now2 : Z) (id : string)
    (status : TransactionStatus) (errorMessage : string)
    (docs : gmap string Transaction.t) : Result unit * gmap string Transaction.t :=
  match docs !! id with
  | Some stored =>
      (Ok tt,
       <[id := Transaction.mk (Transaction.ID stored) (Transaction.Type_ stored)
                 (Transaction.FromAccountID stored) (Transaction.ToAccountID stored)
                 (Transaction.Amount stored) (Transaction.Currency stored)
                 status (Transaction.Description stored)
                 (Transaction.Reference stored) (Transaction.Metadata stored)
                 (Transaction.CreatedAt stored) now1
                 (if decide (status = TransactionStatusCompleted) then Some now2
                  else Transaction.ProcessedAt stored)
                 errorMessage]> docs)
  | None => (Fail ErrTransactionNotFound, docs)
  end.

End MongoTransactionRepository.

(** The in-memory repositories of the use-case tests
    ([map[string]*domain.Account], [map[string]*domain.Transaction]). *)

Module MockAccountRepository.

Definition UpdateBalance (now : Z) (id : string) (newBalance : Z) (version : Z)
    (accounts : gmap string Account.t) : Result unit * gmap string Account.t :=
  match accounts !! id with
  | None => (Fail ErrAccountNotFound, accounts)
  | Some account =>
      if decide (Account.Version account ≠ version) then
        (Fail ErrConcurrentUpdate, accounts)
      else
        (Ok tt,
         <[id := Account.mk (Account.ID account) (Account.UserID account)
                   newBalance (Account.Currency account) (Account.Status account)
                   (Account.CreatedAt account) now
                   (Account.Version account + 1)]> accounts)
  end.

End MockAccountRepository.

Module MockTransactionRepository.

Definition UpdateStatus (now1 now2 : Z) (id : string)
    (status : TransactionStatus) (errorMessage : string)
    (transactions : gmap string Transaction.t)
    : Result unit * gmap string Transaction.t :=
  match transactions !! id with
  | None => (Fail ErrTransactionNotFound, transactions)
  | Some transaction =>
      (Ok tt,
       <[id := Transaction.mk (Transaction.ID transaction)
                 (Transaction.Type_ transaction)
                 (Transaction.FromAccountID transaction)
                 (Transaction.ToAccountID transaction)
                 (Transaction.Amount transaction) (Transaction.Currency transaction)
                 status (Transaction.Description transaction)
                 (Transaction.Reference transaction) (Transaction.Metadata transaction)
                 (Transaction.CreatedAt transaction) now1
                 (if decide (status = TransactionStatusCompleted) then Some now2
                  else Transaction.ProcessedAt transaction)
                 errorMessage]> transactions)
  end.

End MockTransactionRepository.


(** ** The running system

    The accounts table is shared with other clients (API instances, other
    processor instances).  [others] is the schedule of their operations:
    the server executes the next batch right before each statement that
    this process sends to the accounts table. *)

Inductive Message : Type :=
| Garbage (raw : string)
| Encoded (request : TransactionRequest.t).

(** One constructor per [log.Printf] call site. *)
Inductive LogLine : Type :=
| LogUnmarshalFailed (err : error)
| LogProcessing (id : string)
| LogProcessFailed (id : string) (err : error)
| LogProcessed (id : string)
| LogAttemptFailed (attempt maxRetries : Z) (err : error)
| LogRetriesExhausted (err : error).

Inductive Other : Type :=
| OtherUpdateBalance (id : string) (newBalance version : Z)
| OtherDeactivateAccount (id : string)
| OtherCreateAccount (userID : string) (initialBalance : Z) (currency : string).

(** What this process asked of [UpdateBalance] and whether a row was
    affected; a record kept for the statements only, no function reads it. *)
Record CasRecord : Type := mkCas {
  cas_id : string;
  cas_newBalance : Z;
  cas_version : Z;
  cas_applied : bool
}.

Record Broker : Type := mkBroker {
  declare_error : option error;
  publish_error : option error;
  queues : gmap string (list Message)
}.

Record World : Type := mkWorld {
  accounts : gmap string Account.t;
  transactions : gmap string Transaction.t;
  broker : Broker;
  others : list (list Other);
  clock : Z;
  entropy : list string;
  logs : list LogLine;
  audit : list CasRecord
}.

Definition set_accounts (rows : gmap string Account.t) (w : World) : World :=
  mkWorld rows (transactions w) (broker w) (others w) (clock w) (entropy w)
    (logs w) (audit w).

Definition set_transactions (docs : gmap string Transaction.t) (w : World) : World :=
  mkWorld (accounts w) docs (broker w) (others w) (clock w) (entropy w)
    (logs w) (audit w).

Definition set_broker (b : Broker) (w : World) : World :=
  mkWorld (accounts w) (transactions w) b (others w) (clock w) (entropy w)
    (logs w) (audit w).

Definition set_others (o : list (list Other)) (w : World) : World :=
  mkWorld (accounts w) (transactions w) (broker w) o (clock w) (entropy w)
    (logs w) (audit w).

Definition set_clock (t : Z) (w : World) : World :=
  mkWorld (accounts w) (transactions w) (broker w) (others w) t (entropy w)
    (logs w) (audit w).

Definition set_entropy (e : list string) (w : World) : World :=
  mkWorld (accounts w) (transactions w) (broker w) (others w) (clock w) e
    (logs w) (audit w).

Definition set_logs (l : list LogLine) (w : World) : World :=
  mkWorld (accounts w) (transactions w) (broker w) (others w) (clock w)
    (entropy w) l (audit w).

Definition set_audit (a : list CasRecord) (w : World) : World :=
  mkWorld (accounts w) (transactions w) (broker w) (others w) (clock w)
    (entropy w) (logs w) a.

(** *** The monad of Go code: state is kept when an error is returned *)

Definition M (A : Type) : Type := World -> Result A * World.

Definition ret {A} (a : A) : M A := fun w => (Ok a, w).

Definition throw {A} (e : error) : M A := fun w => (Fail e, w).

Definition panic {A} : M A := fun w => (Panic, w).

Definition bind {A B} (m : M A) (k : A -> M B) : M B :=
  fun w =>
    match m w with
    | (Ok a, w') => k a w'
    | (Fail e, w') => (Fail e, w')
    | (Panic, w') => (Panic, w')
    end.

Notation "x <- m ;; k" := (bind m (fun x => k))
  (at level 100, m at next level, right associativity).
Notation "m ;; k" := (bind m (fun _ => k))
  (at level 100, right associativity).

(** [v, err := f(...)]: the outcome of a call as a value. *)
Definition try {A} (m : M A) : M (A + error) :=
  fun w =>
    match m w with
    | (Ok a, w') => (Ok (inl a), w')
    | (Fail e, w') => (Ok (inr e), w')
    | (Panic, w') => (Panic, w')
    end.

(** A call whose returned error is dropped. *)
Definition discard {A} (m : M A) : M unit := _ <- try m ;; ret tt.

(** [*p] for [p : *string] *)
Definition deref {A} (p : option A) : M A :=
  match p with
  | Some a => ret a
  | None => panic
  end.

Definition time_Now : M Z :=
  fun w => (Ok (clock w), set_clock (clock w + 1) w).

Definition Second : Z := 1000000000.

Definition time_Sleep (d : Z) : M unit :=
  fun w => (Ok tt, set_clock (clock w + Z.max d 0) w).

Definition uuid_New : M string :=
  fun w =>
    match entropy w with
    | u :: rest => (Ok u, set_entropy rest w)
    | [] => (Ok "00000000-0000-0000-0000-000000000000", w)
    end.

Definition log_Printf (l : LogLine) : M unit :=
  fun w => (Ok tt, set_logs ((logs w ++ [l])%list) w).

Definition on_accounts {A}
    (f : gmap string Account.t -> Result A * gmap string Account.t) : M A :=
  fun w => let '(r, rows) := f (accounts w) in (r, set_accounts rows w).

Definition on_transactions {A}
    (f : gmap string Transaction.t -> Result A * gmap string Transaction.t) : M A :=
  fun w => let '(r, docs) := f (transactions w) in (r, set_transactions docs w).

(** ** internal/domain/interfaces.go *)

Module AccountRepository.
Record t : Type := mk {
  Create : Account.t -> M Account.t;
  GetByID : string -> M Account.t;
  Update : Account.t -> M unit;
  UpdateBalance : string -> Z -> Z -> M unit;
  Delete : string -> M unit
}.
End AccountRepository.

Module TransactionRepository.
Record t : Type := mk {
  Create : Transaction.t -> M Transaction.t;
  GetByID : string -> M Transaction.t;
  UpdateStatus : string -> TransactionStatus -> string -> M unit
}.
End TransactionRepository.

Module MessageQueue.
Record t : Type := mk {
  Publish : string -> Message -> M unit
}.
End MessageQueue.

(** The repositories as values of the interfaces. *)

Definition NewPostgreSQLAccountRepository : AccountRepository.t :=
  AccountRepository.mk
    (fun account =>
       uuid <- (if decide (Account.ID account = "") then uuid_New else ret "") ;;
       now1 <- time_Now ;;
       now2 <- time_Now ;;
       on_accounts (PostgreSQLAccountRepository.Create now1 now2 uuid account))
    (fun id => on_accounts (PostgreSQLAccountRepository.GetByID id))
    (fun account =>
       now <- time_Now ;;
       on_accounts (PostgreSQLAccountRepository.Update now account))
    (fun id newBalance version =>
       now <- time_Now ;;
       on_accounts (PostgreSQLAccountRepository.UpdateBalance now id newBalance version))
    (fun id => on_accounts (PostgreSQLAccountRepository.Delete id)).

Definition NewMongoTransactionRepository : TransactionRepository.t :=
  TransactionRepository.mk
    (fun transaction =>
       uuid <- (if decide (Transaction.ID transaction = "") then uuid_New else ret "") ;;
       now1 <- time_Now ;;
       now2 <- time_Now ;;
       on_transactions (MongoTransactionRepository.Create now1 now2 uuid transaction))
    (fun id => on_transactions (MongoTransactionRepository.GetByID id))
    (fun id status errorMessage =>
       now1 <- time_Now ;;
       now2 <- (if decide (status = TransactionStatusCompleted) then time_Now
                else ret 0) ;;
       on_transactions
         (MongoTransactionRepository.UpdateStatus now1 now2 id status errorMessage)).


(** ** internal/usecase: account_usecase.go *)

Module AccountUseCase.
Record t : Type := mk {
  accountRepo : AccountRepository.t;
  transactionRepo : TransactionRepository.t
}.

Definition CreateAccount (uc : t) (userID : string) (initialBalance : Z)
    (currency : string) : M Account.t :=
  if initialBalance <? 0 then throw ErrInvalidAmount
  else if decide (currency = "") then throw ErrMissingCurrency
  else
    id <- uuid_New ;;
    now1 <- time_Now ;;
    now2 <- time_Now ;;
    let account := Account.mk id userID initialBalance currency "active" now1 now2 1 in
    AccountRepository.Create (accountRepo uc) account.

Definition GetAccount (uc : t) (id : string) : M Account.t :=
  AccountRepository.GetByID (accountRepo uc) id.

Definition DeactivateAccount (uc : t) (id : string) : M unit :=
  account <- AccountRepository.GetByID (accountRepo uc) id ;;
  now <- time_Now ;;
  let account :=
    Account.mk (Account.ID account) (Account.UserID account)
      (Account.Balance account) (Account.Currency account) "inactive"
      (Account.CreatedAt account) now (Account.Version account) in
  AccountRepository.Update (accountRepo uc) account.
End AccountUseCase.

Definition NewAccountUseCase (accountRepo : AccountRepository.t)
    (transactionRepo : TransactionRepository.t) : AccountUseCase.t :=
  AccountUseCase.mk accountRepo transactionRepo.

(** *** The other clients of the accounts table

    Each operation of another client runs to its end between two
    statements of this process; what it returns goes to that client. *)

Definition other_call (o : Other) : M unit :=
  let private :=
    NewAccountUseCase NewPostgreSQLAccountRepository NewMongoTransactionRepository in
  match o with
  | OtherUpdateBalance id newBalance version =>
      discard (AccountRepository.UpdateBalance NewPostgreSQLAccountRepository
                 id newBalance version)
  | OtherDeactivateAccount id =>
      discard (AccountUseCase.DeactivateAccount private id)
  | OtherCreateAccount userID initialBalance currency =>
      discard (AccountUseCase.CreateAccount private userID initialBalance currency)
  end.

Fixpoint run_batch (batch : list Other) : M unit :=
  match batch with
  | [] => ret tt
  | o :: batch' => other_call o ;; run_batch batch'
  end.

Definition yield : M unit :=
  fun w =>
    match others w with
    | [] => (Ok tt, w)
    | batch :: rest =>
        let '(r, w') := run_batch batch w in (r, set_others rest w')
    end.

Definition record_cas (id : string) (newBalance version : Z) (applied : bool)
    : M unit :=
  fun w => (Ok tt, set_audit ((audit w ++ [mkCas id newBalance version applied])%list) w).

(** A connection to the shared accounts table. *)
Definition shared (repo : AccountRepository.t) : AccountRepository.t :=
  AccountRepository.mk
    (fun account => yield ;; AccountRepository.Create repo account)
    (fun id => yield ;; AccountRepository.GetByID repo id)
    (fun account => yield ;; AccountRepository.Update repo account)
    (fun id newBalance version =>
       yield ;;
       r <- try (AccountRepository.UpdateBalance repo id newBalance version) ;;
       match r with
       | inl _ => record_cas id newBalance version true
       | inr err => record_cas id newBalance version false ;; throw err
       end)
    (fun id => yield ;; AccountRepository.Delete repo id).

(** ** internal/queue/rabbitmq.go *)

Module RabbitMQQueue.

Definition Publish (queueName : string) (message : Message) : M unit :=
  fun w =>
    match declare_error (broker w) with
    | Some err => (Fail (Errorf "failed to declare queue" err), w)
    | None =>
        match publish_error (broker w) with
        | Some err => (Fail (Errorf "failed to publish message" err), w)
        | None =>
            (Ok tt,
             set_broker
               (mkBroker None None
                  (<[queueName :=
                       (default [] (queues (broker w) !! queueName) ++ [message])%list]>
                     (queues (broker w)))) w)
        end
    end.

Definition maxRetries : Z := 3.

(** The [for attempt := 1; attempt <= maxRetries; attempt++] loop from
    the given [attempt] on, [remaining] iterations being left. *)
Fixpoint retry_loop (remaining : nat) (attempt : Z) (lastErr : option error)
    (body : Message) (handler : Message -> M unit) : M unit :=
  match remaining with
  | O =>
      throw (Errorf "failed after 3 attempts"
               (default (External "%!w(<nil>)") lastErr))
  | S remaining' =>
      r <- try (handler body) ;;
      match r with
      | inl _ => ret tt
      | inr err =>
          log_Printf (LogAttemptFailed attempt maxRetries err) ;;
          (if attempt <? maxRetries then time_Sleep (attempt * Second) else ret tt) ;;
          retry_loop remaining' (attempt + 1) (Some err) body handler
      end
  end.

Definition processMessageWithRetry (body : Message)
    (handler : Message -> M unit) : M unit :=
  retry_loop (Z.to_nat maxRetries) 1 None body handler.

Inductive Disposition : Type :=
| Ack
| Nack (requeue : bool).

(** The body of the consumer goroutine of [Subscribe] for one delivery. *)
Definition deliver (handler : Message -> M unit) (msg : Message) : M Disposition :=
  r <- try (processMessageWithRetry msg handler) ;;
  match r with
  | inr err => log_Printf (LogRetriesExhausted err) ;; ret (Nack false)
  | inl _ => ret Ack
  end.

(** The goroutine over the deliveries it receives. *)
Fixpoint Subscribe (handler : Message -> M unit) (msgs : list Message)
    : M (list Disposition) :=
  match msgs with
  | [] => ret []
  | msg :: msgs' =>
      d <- deliver handler msg ;;
      ds <- Subscribe handler msgs' ;;
      ret (d :: ds)
  end.

End RabbitMQQueue.

Definition NewRabbitMQQueue : MessageQueue.t :=
  MessageQueue.mk RabbitMQQueue.Publish.


(** ** internal/usecase: transaction_usecase.go *)

Definition json_Marshal (request : TransactionRequest.t) : M Message :=
  ret (Encoded request).

Definition json_Unmarshal (data : Message) : M TransactionRequest.t :=
  match data with
  | Encoded request => ret request
  | Garbage _ => throw (External "invalid character looking for beginning of value")
  end.

Module TransactionUseCase.
Record t : Type := mk {
  accountRepo : AccountRepository.t;
  transactionRepo : TransactionRepository.t;
  queue : MessageQueue.t;
  queueName : string
}.

Definition ProcessTransaction (uc : t) (request : TransactionRequest.t)
    : M Transaction.t :=
  match TransactionRequest.IsValid request with
  | Some err => throw err
  | None =>
      id <- (if decide (TransactionRequest.ID request = "") then uuid_New
             else ret (TransactionRequest.ID request)) ;;
      let request :=
        TransactionRequest.mk id (TransactionRequest.Type_ request)
          (TransactionRequest.FromAccountID request)
          (TransactionRequest.ToAccountID request)
          (TransactionRequest.Amount request) (TransactionRequest.Currency request)
          (TransactionRequest.Description request)
          (TransactionRequest.Reference request)
          (TransactionRequest.Metadata request) in
      now1 <- time_Now ;;
      now2 <- time_Now ;;
      let transaction :=
        Transaction.mk (TransactionRequest.ID request)
          (TransactionRequest.Type_ request)
          (TransactionRequest.FromAccountID request)
          (TransactionRequest.ToAccountID request)
          (TransactionRequest.Amount request) (TransactionRequest.Currency request)
          TransactionStatusPending
          (TransactionRequest.Description request)
          (TransactionRequest.Reference request)
          (TransactionRequest.Metadata request)
          now1 now2 None "" in
      created <- try (TransactionRepository.Create (transactionRepo uc) transaction) ;;
      match created with
      | inr err => throw (Errorf "failed to create transaction" err)
      | inl transaction =>
          marshalled <- try (json_Marshal request) ;;
          match marshalled with
          | inr err => throw (Errorf "failed to marshal transaction request" err)
          | inl requestBytes =>
              published <- try (MessageQueue.Publish (queue uc) (queueName uc)
                                  requestBytes) ;;
              match published with
              | inr err =>
                  discard (TransactionRepository.UpdateStatus (transactionRepo uc)
                             (Transaction.ID transaction) TransactionStatusFailed
                             (Error err)) ;;
                  throw (Errorf "failed to publish transaction" err)
              | inl _ => ret transaction
              end
          end
      end
  end.

Definition processDeposit (uc : t) (request : TransactionRequest.t) : M unit :=
  toAccountID <- deref (TransactionRequest.ToAccountID request) ;;
  account <- AccountRepository.GetByID (accountRepo uc) toAccountID ;;
  if decide (Account.Status account ≠ "active") then throw ErrAccountInactive
  else if decide (Account.Currency account ≠ TransactionRequest.Currency request)
  then throw ErrCurrencyMismatch
  else
    let newBalance := Account.Balance account + TransactionRequest.Amount request in
    AccountRepository.UpdateBalance (accountRepo uc) (Account.ID account)
      newBalance (Account.Version account) ;;
    TransactionRepository.UpdateStatus (transactionRepo uc)
      (TransactionRequest.ID request) TransactionStatusCompleted "".

Definition processWithdrawal (uc : t) (request : TransactionRequest.t) : M unit :=
  fromAccountID <- deref (TransactionRequest.FromAccountID request) ;;
  account <- AccountRepository.GetByID (accountRepo uc) fromAccountID ;;
  if decide (Account.Status account ≠ "active") then throw ErrAccountInactive
  else if decide (Account.Currency account ≠ TransactionRequest.Currency request)
  then throw ErrCurrencyMismatch
  else if Account.Balance account <? TransactionRequest.Amount request
  then throw ErrInsufficientFunds
  else
    let newBalance := Account.Balance account - TransactionRequest.Amount request in
    AccountRepository.UpdateBalance (accountRepo uc) (Account.ID account)
      newBalance (Account.Version account) ;;
    TransactionRepository.UpdateStatus (transactionRepo uc)
      (TransactionRequest.ID request) TransactionStatusCompleted "".

Definition processTransfer (uc : t) (request : TransactionRequest.t) : M unit :=
  fromAccountID <- deref (TransactionRequest.FromAccountID request) ;;
  fromAccount <- AccountRepository.GetByID (accountRepo uc) fromAccountID ;;
  toAccountID <- deref (TransactionRequest.ToAccountID request) ;;
  toAccount <- AccountRepository.GetByID (accountRepo uc) toAccountID ;;
  if decide (Account.Status fromAccount ≠ "active" ∨
             Account.Status toAccount ≠ "active")
  then throw ErrAccountInactive
  else if decide (Account.Currency fromAccount ≠ TransactionRequest.Currency request ∨
                  Account.Currency toAccount ≠ TransactionRequest.Currency request)
  then throw ErrCurrencyMismatch
  else if Account.Balance fromAccount <? TransactionRequest.Amount request
  then throw ErrInsufficientFunds
  else
    let newFromBalance :=
      Account.Balance fromAccount - TransactionRequest.Amount request in
    AccountRepository.UpdateBalance (accountRepo uc) (Account.ID fromAccount)
      newFromBalance (Account.Version fromAccount) ;;
    let newToBalance :=
      Account.Balance toAccount + TransactionRequest.Amount request in
    credited <- try (AccountRepository.UpdateBalance (accountRepo uc)
                       (Account.ID toAccount) newToBalance
                       (Account.Version toAccount)) ;;
    match credited with
    | inr err =>
        discard (AccountRepository.UpdateBalance (accountRepo uc)
                   (Account.ID fromAccount) (Account.Balance fromAccount)
                   (Account.Version fromAccount + 1)) ;;
        throw err
    | inl _ =>
        TransactionRepository.UpdateStatus (transactionRepo uc)
          (TransactionRequest.ID request) TransactionStatusCompleted ""
    end.

Definition ProcessTransactionSync (uc : t) (request : TransactionRequest.t)
    : M unit :=
  match TransactionRequest.IsValid request with
  | Some err => throw err
  | None =>
      if decide (TransactionRequest.Type_ request = TransactionTypeDeposit)
      then processDeposit uc request
      else if decide (TransactionRequest.Type_ request = TransactionTypeWithdrawal)
      then processWithdrawal uc request
      else if decide (TransactionRequest.Type_ request = TransactionTypeTransfer)
      then processTransfer uc request
      else throw ErrInvalidTransactionType
  end.

Definition GetTransaction (uc : t) (id : string) : M Transaction.t :=
  TransactionRepository.GetByID (transactionRepo uc) id.

Definition CancelTransaction (uc : t) (id : string) : M unit :=
  transaction <- TransactionRepository.GetByID (transactionRepo uc) id ;;
  if decide (Transaction.Status transaction ≠ TransactionStatusPending)
  then throw ErrTransactionAlreadyProcessed
  else
    TransactionRepository.UpdateStatus (transactionRepo uc) id
      TransactionStatusCancelled "Cancelled by user".

(** The closure that [StartTransactionProcessor] subscribes. *)
Definition handler (uc : t) (data : Message) : M unit :=
  unmarshalled <- try (json_Unmarshal data) ;;
  match unmarshalled with
  | inr err => log_Printf (LogUnmarshalFailed err) ;; throw err
  | inl request =>
      log_Printf (LogProcessing (TransactionRequest.ID request)) ;;
      processed <- try (ProcessTransactionSync uc request) ;;
      match processed with
      | inr err =>
          log_Printf (LogProcessFailed (TransactionRequest.ID request) err) ;;
          discard (TransactionRepository.UpdateStatus (transactionRepo uc)
                     (TransactionRequest.ID request) TransactionStatusFailed
                     (Error err)) ;;
          throw err
      | inl _ => log_Printf (LogProcessed (TransactionRequest.ID request))
      end
  end.

(** [uc.queue.Subscribe(ctx, uc.queueName, handler)], on the deliveries
    that the broker makes to this consumer. *)
Definition StartTransactionProcessor (uc : t) (deliveries : list Message)
    : M (list RabbitMQQueue.Disposition) :=
  RabbitMQQueue.Subscribe (handler uc) deliveries.
End TransactionUseCase.

Definition NewTransactionUseCase (accountRepo : AccountRepository.t)
    (transactionRepo : TransactionRepository.t) (queue : MessageQueue.t)
    (queueName : string) : TransactionUseCase.t :=
  TransactionUseCase.mk accountRepo transactionRepo queue queueName.

(** ** cmd/processor/main.go and cmd/api/main.go: the wiring *)

Definition accountRepo : AccountRepository.t :=
  shared NewPostgreSQLAccountRepository.

Definition transactionRepo : TransactionRepository.t :=
  NewMongoTransactionRepository.

Definition accountService : AccountUseCase.t :=
  NewAccountUseCase accountRepo transactionRepo.

Definition transactionService : TransactionUseCase.t :=
  NewTransactionUseCase accountRepo transactionRepo NewRabbitMQQueue "transactions".


(** ** Vocabulary of the statements *)

(** The validator as the specification words it: rules in precedence
    order, the first rule whose condition holds gives the error. *)
Definition missing {A} (p : option A) : bool :=
  match p with
  | None => true
  | Some _ => false
  end.

Definition validation_rules : list ((TransactionRequest.t -> bool) * error) :=
  [ (fun tr => TransactionRequest.Amount tr <=? 0, ErrInvalidAmount);
    (fun tr => bool_decide (TransactionRequest.Currency tr = ""), ErrMissingCurrency);
    (fun tr => bool_decide (TransactionRequest.Type_ tr = TransactionTypeDeposit)
               && missing (TransactionRequest.ToAccountID tr),
     ErrMissingToAccount);
    (fun tr => bool_decide (TransactionRequest.Type_ tr = TransactionTypeWithdrawal)
               && missing (TransactionRequest.FromAccountID tr),
     ErrMissingFromAccount);
    (fun tr => bool_decide (TransactionRequest.Type_ tr = TransactionTypeTransfer)
               && (missing (TransactionRequest.FromAccountID tr)
                   || missing (TransactionRequest.ToAccountID tr)),
     ErrMissingAccounts);
    (fun tr => bool_decide (TransactionRequest.Type_ tr = TransactionTypeTransfer)
               && bool_decide (TransactionRequest.FromAccountID tr
                               = TransactionRequest.ToAccountID tr),
     ErrSameAccount);
    (fun tr => negb (bool_decide
                 (TransactionRequest.Type_ tr ∈
                    [TransactionTypeDeposit; TransactionTypeWithdrawal;
                     TransactionTypeTransfer])),
     ErrInvalidTransactionType) ].

Definition validate (tr : TransactionRequest.t) : option error :=
  snd <$> List.find (fun rule => fst rule tr) validation_rules.

(** The row that a successful [UpdateBalance] leaves. *)
Definition cas_row (stored : Account.t) (newBalance now : Z) : Account.t :=
  Account.mk (Account.ID stored) (Account.UserID stored) newBalance
    (Account.Currency stored) (Account.Status stored) (Account.CreatedAt stored)
    now (Account.Version stored + 1).

(** The result and the final world of running [m] from [w]. *)
Definition result {A} (m : M A) (w : World) : Result A := fst (m w).
Definition after {A} (m : M A) (w : World) : World := snd (m w).

(** [w'] differs from [w] at most in the accounts table, the clock and
    the entropy left. *)
Definition accounts_only (w w' : World) : Prop :=
  transactions w' = transactions w ∧ broker w' = broker w ∧
  others w' = others w ∧ logs w' = logs w ∧ audit w' = audit w.

(** The batch of other clients' operations that runs before the [k]-th
    statement (counted from 0) that this process sends to the accounts
    table from [w] on. *)
Definition pending (k : nat) (w : World) : list Other :=
  default [] (others w !! k).

(** The operation writes, or may write, the row [id]. *)
Definition writes_row (id : string) (o : Other) : bool :=
  match o with
  | OtherUpdateBalance id' _ _ => bool_decide (id' = id)
  | OtherDeactivateAccount id' => bool_decide (id' = id)
  | OtherCreateAccount _ _ _ => false
  end.

(** The world after one [time.Now()]. *)
Definition tick (w : World) : World := set_clock (clock w + 1) w.

(** The document that [UpdateStatus] leaves. *)
Definition status_doc (stored : Transaction.t) (status : TransactionStatus)
    (errorMessage : string) (now1 now2 : Z) : Transaction.t :=
  Transaction.mk (Transaction.ID stored) (Transaction.Type_ stored)
    (Transaction.FromAccountID stored) (Transaction.ToAccountID stored)
    (Transaction.Amount stored) (Transaction.Currency stored)
    status (Transaction.Description stored)
    (Transaction.Reference stored) (Transaction.Metadata stored)
    (Transaction.CreatedAt stored) now1
    (if decide (status = TransactionStatusCompleted) then Some now2
     else Transaction.ProcessedAt stored)
    errorMessage.

(** The world after this process's [UpdateBalance] statement reached the
    table in [w1]. *)
Definition cas_world (id : string) (newBalance version : Z) (w1 : World) : World :=
  match accounts w1 !! id with
  | Some stored =>
      if decide (Account.Version stored = version) then
        set_audit (audit w1 ++ [mkCas id newBalance version true])
          (set_accounts (<[id := cas_row stored newBalance (clock w1)]> (accounts w1))
             (tick w1))
      else set_audit (audit w1 ++ [mkCas id newBalance version false]) (tick w1)
  | None => set_audit (audit w1 ++ [mkCas id newBalance version false]) (tick w1)
  end.

(** The CAS finds the row with the expected version. *)
Definition cas_hits (id : string) (version : Z) (w1 : World) : bool :=
  match accounts w1 !! id with
  | Some stored => bool_decide (Account.Version stored = version)
  | None => false
  end.

(** The world after [UpdateStatus] on [w]. *)
Definition status_world (id : string) (status : TransactionStatus)
    (errorMessage : string) (w : World) : World :=
  let w1 := if decide (status = TransactionStatusCompleted) then tick (tick w)
            else tick w in
  match transactions w !! id with
  | Some stored =>
      set_transactions
        (<[id := status_doc stored status errorMessage (clock w) (clock w + 1)]>
           (transactions w)) w1
  | None => w1
  end.

(** What the next [uuid.New()] returns in [w]. *)
Definition next_uuid (w : World) : string :=
  match entropy w with
  | u :: _ => u
  | [] => "00000000-0000-0000-0000-000000000000"
  end.

(** The id under which [ProcessTransaction] journals [request]. *)
Definition assigned_id (request : TransactionRequest.t) (w : World) : string :=
  if decide (TransactionRequest.ID request = "") then next_uuid w
  else TransactionRequest.ID request.

Definition with_id (id : string) (request : TransactionRequest.t)
    : TransactionRequest.t :=
  TransactionRequest.mk id (TransactionRequest.Type_ request)
    (TransactionRequest.FromAccountID request)
    (TransactionRequest.ToAccountID request)
    (TransactionRequest.Amount request) (TransactionRequest.Currency request)
    (TransactionRequest.Description request)
    (TransactionRequest.Reference request)
    (TransactionRequest.Metadata request).

(** The parts of the world that the other clients neither read nor
    write: the journal, the log and the audit record of this process. *)
Inductive Private : Type :=
| PrivateTransactions (docs : gmap string Transaction.t)
| PrivateLogs (l : list LogLine)
| PrivateAudit (a : list CasRecord).

Definition put (p : Private) (w : World) : World :=
  match p with
  | PrivateTransactions docs => set_transactions docs w
  | PrivateLogs l => set_logs l w
  | PrivateAudit a => set_audit a w
  end.

(** [m] runs the same whatever the private parts hold, and leaves them. *)
Definition public {A} (m : M A) : Prop :=
  ∀ p w, m (put p w) = (result m w, put p (after m w)).

(** Two worlds that differ at most in what the journal documents hold:
    the same ids are journaled, and everything else is equal. *)
Definition same_but_documents (w1 w2 : World) : Prop :=
  accounts w1 = accounts w2 ∧ broker w1 = broker w2 ∧ others w1 = others w2 ∧
  clock w1 = clock w2 ∧ entropy w1 = entropy w2 ∧ logs w1 = logs w2 ∧
  audit w1 = audit w2 ∧
  ∀ id, is_Some (transactions w1 !! id) ↔ is_Some (transactions w2 !! id).

(** [m] does not read what the journal documents hold. *)
Definition blind {A} (m : M A) : Prop :=
  ∀ w1 w2, same_but_documents w1 w2 ->
    result m w1 = result m w2 ∧ same_but_documents (after m w1) (after m w2).

(** The permanent business-rule errors of the specification. *)
Definition business_rule_error (e : error) : Prop :=
  e = ErrInsufficientFunds ∨ e = ErrAccountInactive ∨ e = ErrCurrencyMismatch.

(** The world that a failing handler invocation leaves, given the world
    [w1] in which [ProcessTransactionSync] returned [err]. *)
Definition failed_world (id : string) (err : error) (w1 : World) : World :=
  status_world id TransactionStatusFailed (Error err)
    (set_logs (logs w1 ++ [LogProcessFailed id err]) w1).

(** The world after a failed attempt of [processMessageWithRetry]: the
    log line, then the back-off sleep unless it was the last attempt. *)
Definition attempt_failed (attempt : Z) (err : error) (w1 : World) : World :=
  let w2 := set_logs (logs w1 ++ [LogAttemptFailed attempt RabbitMQQueue.maxRetries err]) w1 in
  if attempt <? RabbitMQQueue.maxRetries
  then set_clock (clock w2 + Z.max (attempt * Second) 0) w2
  else w2.

(** The log lines of one failing handler invocation and of the retry
    machinery after it. *)
Definition failed_attempt_lines (id : string) (err : error) (attempt : Z)
    : list LogLine :=
  [LogProcessing id; LogProcessFailed id err;
   LogAttemptFailed attempt RabbitMQQueue.maxRetries err].

(** ** Sample data of the specification's scenarios *)

Definition sample_account (id userID : string) (balance version : Z) : Account.t :=
  Account.mk id userID balance "USD" "active" 0 0 version.

Definition sample_transaction (id : string) (type_ : TransactionType)
    (fromID toID : option string) (amount : Z) (status : TransactionStatus)
    : Transaction.t :=
  Transaction.mk id type_ fromID toID amount "USD" status "" "" "" 1 1 None "".

Definition sample_request (id : string) (type_ : TransactionType)
    (fromID toID : option string) (amount : Z) : TransactionRequest.t :=
  TransactionRequest.mk id type_ fromID toID amount "USD" "" "" "".

Definition sample_world (rows : gmap string Account.t)
    (docs : gmap string Transaction.t) (schedule : list (list Other)) : World :=
  mkWorld rows docs (mkBroker None None ∅) schedule 10 [] [] [].

(** ** Invariants and measures of the accounts table *)

(** Every row is stored under its own id (the primary key). *)
Definition well_keyed (rows : gmap string Account.t) : Prop :=
  map_Forall (λ id account, Account.ID account = id) rows.

(** No balance is negative. *)
Definition nonneg (rows : gmap string Account.t) : Prop :=
  map_Forall (λ _ account, 0 <= Account.Balance account) rows.

(** The balance of a row counted in currency [c]. *)
Definition worth (c : string) (account : Account.t) : Z :=
  if decide (Account.Currency account = c) then Account.Balance account else 0.

(** The sum of all account balances in currency [c]. *)
Definition total (c : string) (rows : gmap string Account.t) : Z :=
  map_fold (λ _ account sum, worth c account + sum) 0 rows.

(** What a row holds in money terms. *)
Definition money (account : Account.t) : Z * string :=
  (Account.Balance account, Account.Currency account).

(** What one operation of another client may do to the row [id]. *)
Inductive row_effect (id : string) (o : Other)
    : option Account.t -> option Account.t -> Prop :=
| row_untouched (r : option Account.t) : row_effect id o r r
| row_cas (stored : Account.t) (newBalance now : Z) :
    o = OtherUpdateBalance id newBalance (Account.Version stored) ->
    row_effect id o (Some stored) (Some (cas_row stored newBalance now))
| row_deactivated (stored : Account.t) (now : Z) :
    o = OtherDeactivateAccount id ->
    row_effect id o (Some stored)
      (Some (Account.mk (Account.ID stored) (Account.UserID stored)
               (Account.Balance stored) (Account.Currency stored) "inactive"
               (Account.CreatedAt stored) now (Account.Version stored + 1)))
| row_created (userID : string) (initialBalance : Z) (currency : string)
    (now1 now2 : Z) :
    o = OtherCreateAccount userID initialBalance currency ->
    0 <= initialBalance ->
    row_effect id o None
      (Some (Account.mk id userID initialBalance currency "active" now1 now2 1)).

(** The other clients' CAS statements carry non-negative balances (they
    run this same code). *)
Definition other_nonneg (o : Other) : Prop :=
  match o with
  | OtherUpdateBalance _ newBalance _ => 0 <= newBalance
  | _ => True
  end.

Definition schedule_nonneg (schedule : list (list Other)) : Prop :=
  Forall (Forall other_nonneg) schedule.

(** The other clients only deactivate accounts. *)
Definition is_deactivation (o : Other) : Prop :=
  match o with
  | OtherDeactivateAccount _ => True
  | _ => False
  end.

Definition schedule_deactivations (schedule : list (list Other)) : Prop :=
  Forall (Forall is_deactivation) schedule.

(** ** Reachable worlds *)

(** What the users and the broker can make this system do. *)
Inductive Action : Type :=
| ActCreateAccount (userID : string) (initialBalance : Z) (currency : string)
| ActDeactivateAccount (id : string)
| ActProcessTransaction (request : TransactionRequest.t)
| ActCancelTransaction (id : string)
| ActDeliver (msg : Message).

Definition perform (a : Action) : M unit :=
  match a with
  | ActCreateAccount userID initialBalance currency =>
      discard (AccountUseCase.CreateAccount accountService userID initialBalance currency)
  | ActDeactivateAccount id =>
      discard (AccountUseCase.DeactivateAccount accountService id)
  | ActProcessTransaction request =>
      discard (TransactionUseCase.ProcessTransaction transactionService request)
  | ActCancelTransaction id =>
      discard (TransactionUseCase.CancelTransaction transactionService id)
  | ActDeliver msg =>
      discard (TransactionUseCase.StartTransactionProcessor transactionService [msg])
  end.

Fixpoint perform_all (actions : list Action) : M unit :=
  match actions with
  | [] => ret tt
  | a :: actions' => perform a ;; perform_all actions'
  end.

(** The accounts table is well keyed and without negative balance, and
    so are the statements that the other clients will send. *)
Definition sound (w : World) : Prop :=
  well_keyed (accounts w) ∧ nonneg (accounts w) ∧ schedule_nonneg (others w).

(** [m] keeps the world sound and returns values that satisfy [Q]. *)
Definition keeps_sound {A} (m : M A) (Q : A -> Prop) : Prop :=
  ∀ w, sound w -> sound (after m w) ∧ ∀ a, result m w = Ok a -> Q a.

(** ** A transfer, statement by statement

    [w1] and [w2] are the worlds of the two reads, [w3], [w4] and [w5] the
    worlds after the debit, the credit and the compensation. *)
Definition transfer_outcome (request : TransactionRequest.t)
    (fromID toID : string) (w0 : World) : Result unit * World :=
  let amount := TransactionRequest.Amount request in
  let w1 := after yield w0 in
  match accounts w1 !! fromID with
  | None => (Fail ErrAccountNotFound, w1)
  | Some fromAccount =>
      let w2 := after yield w1 in
      match accounts w2 !! toID with
      | None => (Fail ErrAccountNotFound, w2)
      | Some toAccount =>
          if decide (Account.Status fromAccount ≠ "active" ∨
                     Account.Status toAccount ≠ "active")
          then (Fail ErrAccountInactive, w2)
          else if decide (Account.Currency fromAccount
                            ≠ TransactionRequest.Currency request ∨
                          Account.Currency toAccount
                            ≠ TransactionRequest.Currency request)
          then (Fail ErrCurrencyMismatch, w2)
          else if Account.Balance fromAccount <? amount
          then (Fail ErrInsufficientFunds, w2)
          else
            let w3 := cas_world (Account.ID fromAccount)
                        (Account.Balance fromAccount - amount)
                        (Account.Version fromAccount) (after yield w2) in
            if cas_hits (Account.ID fromAccount) (Account.Version fromAccount)
                 (after yield w2)
            then
              let w4 := cas_world (Account.ID toAccount)
                          (Account.Balance toAccount + amount)
                          (Account.Version toAccount) (after yield w3) in
              if cas_hits (Account.ID toAccount) (Account.Version toAccount)
                   (after yield w3)
              then
                (match transactions w4 !! TransactionRequest.ID request with
                 | Some _ => Ok tt
                 | None => Fail ErrTransactionNotFound
                 end,
                 status_world (TransactionRequest.ID request)
                   TransactionStatusCompleted "" w4)
              else
                (Fail ErrConcurrentUpdate,
                 cas_world (Account.ID fromAccount) (Account.Balance fromAccount)
                   (Account.Version fromAccount + 1) (after yield w4))
            else (Fail ErrConcurrentUpdate, w3)
      end
  end.

(** ** The audit record read as a sequence of transfers

    A transfer sends one refused debit, or an applied debit followed by
    the credit and, when the credit was refused, by the compensation.  A
    sequence of transfers is settled when every transfer in it either
    changed nothing, completed, or was compensated by an applied
    statement. *)
Fixpoint settled (records : list CasRecord) : bool :=
  match records with
  | [] => true
  | debit :: records1 =>
      if cas_applied debit then
        match records1 with
        | [] => false
        | credit :: records2 =>
            if cas_applied credit then settled records2
            else
              match records2 with
              | [] => false
              | compensation :: records3 =>
                  cas_applied compensation && settled records3
              end
        end
      else settled records1
  end.

Definition is_transfer (msg : Message) : Prop :=
  match msg with
  | Encoded request => TransactionRequest.Type_ request = TransactionTypeTransfer
  | Garbage _ => False
  end.

(** [m] maps sound tables to sound tables under a schedule of
    deactivations, and when the statements it sent are settled the total
    of every currency is as before. *)
Definition conserving {A} (m : M A) : Prop :=
  ∀ w,
    well_keyed (accounts w) -> schedule_deactivations (others w) ->
    well_keyed (accounts (after m w)) ∧
    schedule_deactivations (others (after m w)) ∧
    ∃ group,
      audit (after m w) = (audit w ++ group)%list ∧
      (∀ records, settled (group ++ records) = settled group && settled records) ∧
      (settled group = true ->
       ∀ c, total c (accounts (after m w)) = total c (accounts w)).

From stdpp Require sorting.

(** ** Deposits and withdrawals, statement by statement

    [w1] is the world of the read and [w2] the world after the write. *)
Definition deposit_outcome (request : TransactionRequest.t) (toID : string)
    (w0 : World) : Result unit * World :=
  let w1 := after yield w0 in
  match accounts w1 !! toID with
  | None => (Fail ErrAccountNotFound, w1)
  | Some account =>
      if decide (Account.Status account ≠ "active")
      then (Fail ErrAccountInactive, w1)
      else if decide (Account.Currency account ≠ TransactionRequest.Currency request)
      then (Fail ErrCurrencyMismatch, w1)
      else
        let w2 := cas_world (Account.ID account)
                    (Account.Balance account + TransactionRequest.Amount request)
                    (Account.Version account) (after yield w1) in
        if cas_hits (Account.ID account) (Account.Version account) (after yield w1)
        then
          (match transactions w2 !! TransactionRequest.ID request with
           | Some _ => Ok tt
           | None => Fail ErrTransactionNotFound
           end,
           status_world (TransactionRequest.ID request)
             TransactionStatusCompleted "" w2)
        else (Fail ErrConcurrentUpdate, w2)
  end.

Definition withdrawal_outcome (request : TransactionRequest.t) (fromID : string)
    (w0 : World) : Result unit * World :=
  let w1 := after yield w0 in
  match accounts w1 !! fromID with
  | None => (Fail ErrAccountNotFound, w1)
  | Some account =>
      if decide (Account.Status account ≠ "active")
      then (Fail ErrAccountInactive, w1)
      else if decide (Account.Currency account ≠ TransactionRequest.Currency request)
      then (Fail ErrCurrencyMismatch, w1)
      else if Account.Balance account <? TransactionRequest.Amount request
      then (Fail ErrInsufficientFunds, w1)
      else
        let w2 := cas_world (Account.ID account)
                    (Account.Balance account - TransactionRequest.Amount request)
                    (Account.Version account) (after yield w1) in
        if cas_hits (Account.ID account) (Account.Version account) (after yield w1)
        then
          (match transactions w2 !! TransactionRequest.ID request with
           | Some _ => Ok tt
           | None => Fail ErrTransactionNotFound
           end,
           status_world (TransactionRequest.ID request)
             TransactionStatusCompleted "" w2)
        else (Fail ErrConcurrentUpdate, w2)
  end.

(** The checks that [processDeposit] makes on the row it read, in the
    order of the code; [None] when the row passes them. *)
Definition deposit_check (request : TransactionRequest.t)
    (row : option Account.t) : option error :=
  match row with
  | None => Some ErrAccountNotFound
  | Some account =>
      if decide (Account.Status account ≠ "active") then Some ErrAccountInactive
      else if decide (Account.Currency account ≠ TransactionRequest.Currency request)
      then Some ErrCurrencyMismatch
      else None
  end.

(** The checks of [processWithdrawal]. *)
Definition withdrawal_check (request : TransactionRequest.t)
    (row : option Account.t) : option error :=
  match row with
  | None => Some ErrAccountNotFound
  | Some account =>
      if decide (Account.Status account ≠ "active") then Some ErrAccountInactive
      else if decide (Account.Currency account ≠ TransactionRequest.Currency request)
      then Some ErrCurrencyMismatch
      else if Account.Balance account <? TransactionRequest.Amount request
      then Some ErrInsufficientFunds
      else None
  end.

(** ** What a statement may do to a row

    [row_kept before after]: the row is still there with its id, owner,
    currency and creation time; its version has not gone down; if the
    version is the same the whole row is the same; its status is the same
    or has become inactive. *)
Definition row_kept (before after : Account.t) : Prop :=
  Account.ID after = Account.ID before ∧
  Account.UserID after = Account.UserID before ∧
  Account.Currency after = Account.Currency before ∧
  Account.CreatedAt after = Account.CreatedAt before ∧
  Account.Version before <= Account.Version after ∧
  (Account.Version after = Account.Version before -> after = before) ∧
  (Account.Status after = Account.Status before ∨ Account.Status after = "inactive").

Definition table_kept (before after : gmap string Account.t) : Prop :=
  ∀ id row, before !! id = Some row ->
    ∃ row', after !! id = Some row' ∧ row_kept row row'.

(** At most one account per owner and currency (the UNIQUE constraint of
    the accounts table). *)
Definition unique_owner (rows : gmap string Account.t) : Prop :=
  ∀ id1 id2 row1 row2,
    rows !! id1 = Some row1 -> rows !! id2 = Some row2 ->
    Account.UserID row1 = Account.UserID row2 ->
    Account.Currency row1 = Account.Currency row2 ->
    id1 = id2.

(** The checks of [processTransfer] on the two rows it read. *)
Definition transfer_check (request : TransactionRequest.t)
    (fromRow toRow : option Account.t) : option error :=
  match fromRow with
  | None => Some ErrAccountNotFound
  | Some fromAccount =>
      match toRow with
      | None => Some ErrAccountNotFound
      | Some toAccount =>
          if decide (Account.Status fromAccount ≠ "active" ∨
                     Account.Status toAccount ≠ "active")
          then Some ErrAccountInactive
          else if decide (Account.Currency fromAccount
                            ≠ TransactionRequest.Currency request ∨
                          Account.Currency toAccount
                            ≠ TransactionRequest.Currency request)
          then Some ErrCurrencyMismatch
          else if Account.Balance fromAccount <? TransactionRequest.Amount request
          then Some ErrInsufficientFunds
          else None
      end
  end.

(** The accounts table is in order: keyed by account id, one account per
    owner and currency. *)
Definition table_ok (rows : gmap string Account.t) : Prop :=
  well_keyed rows ∧ unique_owner rows.

(** [m] leaves the accounts table in order and keeps every row of it. *)
Definition tracks {A} (m : M A) : Prop :=
  ∀ w, table_ok (accounts w) ->
    table_ok (accounts (after m w)) ∧
    table_kept (accounts w) (accounts (after m w)).

(** * The query side

    The methods of the repositories and of the services that only read:
    [GetByUserID] and [List] of the account repository, [GetByAccountID],
    [GetByFilter] and [Count] of the transaction repository, and the
    service methods on top of them. *)

(** ** internal/domain/models.go, continued *)

Module TransactionFilter.
Record t : Type := mk {
  AccountID : option string;
  Type_ : option TransactionType;
  Status : option TransactionStatus;
  FromDate : option Z;
  ToDate : option Z;
  MinAmount : option Z;
  MaxAmount : option Z;
  Limit : Z;
  Offset : Z
}.

(** [&domain.TransactionFilter{}] *)
Definition zero : t := mk None None None None None None None 0 0.

Definition with_AccountID (accountID : string) (filter : t) : t :=
  mk (Some accountID) (Type_ filter) (Status filter) (FromDate filter)
    (ToDate filter) (MinAmount filter) (MaxAmount filter) (Limit filter)
    (Offset filter).

Definition with_Limit (limit : Z) (filter : t) : t :=
  mk (AccountID filter) (Type_ filter) (Status filter) (FromDate filter)
    (ToDate filter) (MinAmount filter) (MaxAmount filter) limit (Offset filter).
End TransactionFilter.

Module AccountSummary.
Record t : Type := mk {
  Account_ : Account.t;
  TransactionCount : Z;
  LastTransactionAt : option Z
}.
End AccountSummary.

(** Rows and documents in the order of [ORDER BY created_at DESC] and of
    the sort [{created_at: -1}].  The order among rows created at the same
    instant is the database's choice; here it is what the merge sort makes
    of the order of the table scan. *)
Definition newest_first {A} (created : A -> Z) (l : list A) : list A :=
  @sorting.merge_sort A (λ a b, created b <= created a)
    (λ a b, decide (created b <= created a)) l.

(** ** internal/repository/account_repository.go, continued *)

Module PostgreSQLAccountQueries.

(** [SELECT ... FROM accounts WHERE user_id = $1 ORDER BY created_at DESC] *)
Definition GetByUserID (userID : string) (rows : gmap string Account.t)
    : Result (list Account.t) * gmap string Account.t :=
  (Ok (newest_first Account.CreatedAt
         (filter (λ account, Account.UserID account = userID)
            (map_to_list rows).*2)),
   rows).

(** [SELECT ... FROM accounts ORDER BY created_at DESC LIMIT $1 OFFSET $2];
    the server refuses a negative LIMIT or OFFSET. *)
Definition List (limit offset : Z) (rows : gmap string Account.t)
    : Result (list Account.t) * gmap string Account.t :=
  if limit <? 0 then
    (Fail (Errorf "failed to list accounts"
             (External "pq: LIMIT must not be negative")), rows)
  else if offset <? 0 then
    (Fail (Errorf "failed to list accounts"
             (External "pq: OFFSET must not be negative")), rows)
  else
    (Ok (take (Z.to_nat limit)
           (drop (Z.to_nat offset)
              (newest_first Account.CreatedAt (map_to_list rows).*2))),
     rows).

End PostgreSQLAccountQueries.

(** ** BSON documents and queries, as far as the repository builds them *)

Module bson.

Inductive value : Type :=
| String_ (s : string)
| DateTime (t : Z)
| Double (x : Z).

#[export] Instance value_eq_dec : EqDecision value.
Proof. solve_decision. Defined.

(** A document: its fields in order ([bson.D]). *)
Definition D : Type := list (string * value).

Definition lookup (key : string) (doc : D) : option value :=
  snd <$> List.find (λ kv, bool_decide (kv.1 = key)) doc.

(** What a query document ([bson.M]) says about one key: a value to be
    equal to, a document of comparison operators, or, under [$or], a list
    of alternative documents of equalities. *)
Inductive query : Type :=
| QEq (v : value)
| QOps (ops : list (string * value))
| QOr (alternatives : list D).

Definition M : Type := list (string * query).

(** Comparison within one BSON type; values of different types do not
    compare. *)
Definition le (a b : value) : bool :=
  match a, b with
  | DateTime x, DateTime y => x <=? y
  | Double x, Double y => x <=? y
  | String_ x, String_ y => String.leb x y
  | _, _ => false
  end.

Definition holds_op (x : value) (op : string * value) : bool :=
  if decide (op.1 = "$gte") then le op.2 x
  else if decide (op.1 = "$lte") then le x op.2
  else false.

Definition holds_eq (doc : D) (kv : string * value) : bool :=
  bool_decide (lookup kv.1 doc = Some kv.2).

Definition holds (doc : D) (entry : string * query) : bool :=
  match entry.2 with
  | QEq v => holds_eq doc (entry.1, v)
  | QOps ops =>
      match lookup entry.1 doc with
      | Some x => forallb (holds_op x) ops
      | None => false
      end
  | QOr alternatives =>
      bool_decide (entry.1 = "$or") && existsb (forallb (holds_eq doc)) alternatives
  end.

(** The document satisfies every entry of the query. *)
Definition matches (q : M) (doc : D) : bool := forallb (holds doc) q.

End bson.

(** ** internal/repository/transaction_repository.go, continued *)

Module MongoTransactionQueries.

(** The stored form of a transaction, by the [bson] tags of
    [domain.Transaction]; fields tagged [omitempty] are left out when
    empty.  ([metadata] is not queried and is left out.) *)
Definition document (t : Transaction.t) : bson.D :=
  ([("_id", bson.String_ (Transaction.ID t));
    ("type", bson.String_ (Transaction.Type_ t))]
   ++ match Transaction.FromAccountID t with
      | Some id => [("from_account_id", bson.String_ id)]
      | None => []
      end
   ++ match Transaction.ToAccountID t with
      | Some id => [("to_account_id", bson.String_ id)]
      | None => []
      end
   ++ [("amount", bson.Double (Transaction.Amount t));
       ("currency", bson.String_ (Transaction.Currency t));
       ("status", bson.String_ (Transaction.Status t));
       ("description", bson.String_ (Transaction.Description t));
       ("reference", bson.String_ (Transaction.Reference t));
       ("created_at", bson.DateTime (Transaction.CreatedAt t));
       ("updated_at", bson.DateTime (Transaction.UpdatedAt t))]
   ++ match Transaction.ProcessedAt t with
      | Some time => [("processed_at", bson.DateTime time)]
      | None => []
      end
   ++ (if decide (Transaction.ErrorMessage t = "") then []
       else [("error_message", bson.String_ (Transaction.ErrorMessage t))]))%list.

Definition buildMongoFilter (filter : TransactionFilter.t) : bson.M :=
  (match TransactionFilter.AccountID filter with
   | Some accountID =>
       [("$or", bson.QOr [[("from_account_id", bson.String_ accountID)];
                          [("to_account_id", bson.String_ accountID)]])]
   | None => []
   end
   ++ match TransactionFilter.Type_ filter with
      | Some type_ => [("type", bson.QEq (bson.String_ type_))]
      | None => []
      end
   ++ match TransactionFilter.Status filter with
      | Some status => [("status", bson.QEq (bson.String_ status))]
      | None => []
      end
   ++ (if bool_decide (TransactionFilter.FromDate filter ≠ None ∨
                       TransactionFilter.ToDate filter ≠ None)
       then
         [("created_at",
           bson.QOps
             (match TransactionFilter.FromDate filter with
              | Some date => [("$gte", bson.DateTime date)]
              | None => []
              end
              ++ match TransactionFilter.ToDate filter with
                 | Some date => [("$lte", bson.DateTime date)]
                 | None => []
                 end))]
       else [])
   ++ (if bool_decide (TransactionFilter.MinAmount filter ≠ None ∨
                       TransactionFilter.MaxAmount filter ≠ None)
       then
         [("amount",
           bson.QOps
             (match TransactionFilter.MinAmount filter with
              | Some amount => [("$gte", bson.Double amount)]
              | None => []
              end
              ++ match TransactionFilter.MaxAmount filter with
                 | Some amount => [("$lte", bson.Double amount)]
                 | None => []
                 end))]
       else []))%list.

(** [collection.Find(ctx, mongoFilter, opts)]: the matching documents,
    sorted, then skipped, then limited. *)
Definition Find (mongoFilter : bson.M) (skip limit : option Z)
    (docs : gmap string Transaction.t) : list Transaction.t :=
  let found :=
    newest_first Transaction.CreatedAt
      (filter (λ t, bson.matches mongoFilter (document t) = true)
         (map_to_list docs).*2) in
  let skipped :=
    match skip with
    | Some n => drop (Z.to_nat n) found
    | None => found
    end in
  match limit with
  | Some n => take (Z.to_nat n) skipped
  | None => skipped
  end.

(** A nil [filter] makes [buildMongoFilter] dereference nil. *)
Definition GetByFilter (filter : option TransactionFilter.t)
    (docs : gmap string Transaction.t)
    : Result (list Transaction.t) * gmap string Transaction.t :=
  match filter with
  | None => (Panic, docs)
  | Some filter =>
      let mongoFilter := buildMongoFilter filter in
      let limit := if 0 <? TransactionFilter.Limit filter
                   then Some (TransactionFilter.Limit filter) else None in
      let skip := if 0 <? TransactionFilter.Offset filter
                  then Some (TransactionFilter.Offset filter) else None in
      (Ok (Find mongoFilter skip limit docs), docs)
  end.

Definition GetByAccountID (accountID : string)
    (filter : option TransactionFilter.t) (docs : gmap string Transaction.t)
    : Result (list Transaction.t) * gmap string Transaction.t :=
  let filter := default TransactionFilter.zero filter in
  let filter := TransactionFilter.with_AccountID accountID filter in
  GetByFilter (Some filter) docs.

(** [collection.CountDocuments(ctx, mongoFilter)] *)
Definition Count (filter : option TransactionFilter.t)
    (docs : gmap string Transaction.t) : Result Z * gmap string Transaction.t :=
  match filter with
  | None => (Panic, docs)
  | Some filter =>
      (Ok (Z.of_nat
             (length (base.filter
                        (λ t, bson.matches (buildMongoFilter filter)
                                (document t) = true)
                        (map_to_list docs).*2))),
       docs)
  end.

End MongoTransactionQueries.

(** ** internal/domain/interfaces.go, continued: the reading methods of
    [AccountRepository] and of [TransactionRepository] *)

Module AccountQueries.
Record t : Type := mk {
  GetByUserID : string -> M (list Account.t);
  List : Z -> Z -> M (list Account.t)
}.
End AccountQueries.

Module TransactionQueries.
Record t : Type := mk {
  GetByAccountID : string -> option TransactionFilter.t -> M (list Transaction.t);
  GetByFilter : option TransactionFilter.t -> M (list Transaction.t);
  Count : option TransactionFilter.t -> M Z
}.
End TransactionQueries.

Definition NewPostgreSQLAccountQueries : AccountQueries.t :=
  AccountQueries.mk
    (fun userID => on_accounts (PostgreSQLAccountQueries.GetByUserID userID))
    (fun limit offset => on_accounts (PostgreSQLAccountQueries.List limit offset)).

Definition NewMongoTransactionQueries : TransactionQueries.t :=
  TransactionQueries.mk
    (fun accountID filter =>
       on_transactions (MongoTransactionQueries.GetByAccountID accountID filter))
    (fun filter => on_transactions (MongoTransactionQueries.GetByFilter filter))
    (fun filter => on_transactions (MongoTransactionQueries.Count filter)).

(** The reading statements reach the shared accounts table like the
    writing ones. *)
Definition shared_queries (q : AccountQueries.t) : AccountQueries.t :=
  AccountQueries.mk
    (fun userID => yield ;; AccountQueries.GetByUserID q userID)
    (fun limit offset => yield ;; AccountQueries.List q limit offset).

Definition accountQueries : AccountQueries.t :=
  shared_queries NewPostgreSQLAccountQueries.

Definition transactionQueries : TransactionQueries.t :=
  NewMongoTransactionQueries.

(** ** internal/usecase, continued: the reading methods of the services *)

Module AccountService.

Definition GetAccountsByUser (q : AccountQueries.t) (userID : string)
    : M (list Account.t) :=
  AccountQueries.GetByUserID q userID.

Definition GetAccountSummary (uc : AccountUseCase.t) (tq : TransactionQueries.t)
    (id : string) : M AccountSummary.t :=
  account <- AccountRepository.GetByID (AccountUseCase.accountRepo uc) id ;;
  let filter := TransactionFilter.with_AccountID id TransactionFilter.zero in
  count <- TransactionQueries.Count tq (Some filter) ;;
  let filter := TransactionFilter.with_Limit 1 filter in
  transactions <- TransactionQueries.GetByAccountID tq id (Some filter) ;;
  let lastTransactionAt :=
    match transactions with
    | first :: _ => Some (Transaction.CreatedAt first)
    | [] => None
    end in
  ret (AccountSummary.mk account count lastTransactionAt).

Definition ListAccounts (q : AccountQueries.t) (limit offset : Z)
    : M (list Account.t) :=
  let limit := if limit <=? 0 then 10 else limit in
  let limit := if 100 <? limit then 100 else limit in
  let offset := if offset <? 0 then 0 else offset in
  AccountQueries.List q limit offset.

End AccountService.

Module TransactionService.

Definition GetTransactionHistory (tq : TransactionQueries.t) (accountID : string)
    (filter : option TransactionFilter.t) : M (list Transaction.t) :=
  TransactionQueries.GetByAccountID tq accountID filter.

Definition GetTransactionsByFilter (tq : TransactionQueries.t)
    (filter : option TransactionFilter.t) : M (list Transaction.t) :=
  TransactionQueries.GetByFilter tq filter.

End TransactionService.

(** ** Vocabulary of the reading statements *)

(** The transaction has the account on one of its two sides. *)
Definition involves (accountID : string) (t : Transaction.t) : Prop :=
  Transaction.FromAccountID t = Some accountID ∨
  Transaction.ToAccountID t = Some accountID.

(** What the criteria of a filter ask of a transaction; a criterion that
    is not given asks nothing, and the bounds are inclusive. *)
Definition selects (filter : TransactionFilter.t) (t : Transaction.t) : Prop :=
  (∀ id, TransactionFilter.AccountID filter = Some id -> involves id t) ∧
  (∀ type_, TransactionFilter.Type_ filter = Some type_ ->
     Transaction.Type_ t = type_) ∧
  (∀ status, TransactionFilter.Status filter = Some status ->
     Transaction.Status t = status) ∧
  (∀ date, TransactionFilter.FromDate filter = Some date ->
     date <= Transaction.CreatedAt t) ∧
  (∀ date, TransactionFilter.ToDate filter = Some date ->
     Transaction.CreatedAt t <= date) ∧
  (∀ amount, TransactionFilter.MinAmount filter = Some amount ->
     amount <= Transaction.Amount t) ∧
  (∀ amount, TransactionFilter.MaxAmount filter = Some amount ->
     Transaction.Amount t <= amount).

(** The limit that [ListAccounts] passes on. *)
Definition page_size (limit : Z) : Z :=
  if limit <=? 0 then 10 else Z.min limit 100.

(** * Properties *)

(** ** Worlds and the monad *)

Lemma set_accounts_same (w : World) : set_accounts (accounts w) w = w.
Proof. destruct w; reflexivity. Qed.

Lemma set_transactions_same (w : World) : set_transactions (transactions w) w = w.
Proof. destruct w; reflexivity. Qed.

Lemma run_eq {A} (m : M A) (w : World) : m w = (result m w, after m w).
Proof. unfold result, after. destruct (m w); reflexivity. Qed.

Lemma bind_apply {A B} (m : M A) (k : A -> M B) (w : World) :
  bind m k w =
    match m w with
    | (Ok a, w') => k a w'
    | (Fail e, w') => (Fail e, w')
    | (Panic, w') => (Panic, w')
    end.
Proof. reflexivity. Qed.

Lemma accounts_only_refl (w : World) : accounts_only w w.
Proof. repeat split. Qed.

Lemma accounts_only_trans (w1 w2 w3 : World) :
  accounts_only w1 w2 -> accounts_only w2 w3 -> accounts_only w1 w3.
Proof.
  unfold accounts_only. intros (?&?&?&?&?) (?&?&?&?&?).
  repeat split; congruence.
Qed.

(** ** The other clients *)

Ltac unfold_repository :=
  unfold AccountUseCase.DeactivateAccount, AccountUseCase.CreateAccount,
    NewAccountUseCase, NewPostgreSQLAccountRepository, NewMongoTransactionRepository,
    discard, try, bind, ret, throw, time_Now, uuid_New, on_accounts, on_transactions,
    PostgreSQLAccountRepository.UpdateBalance, PostgreSQLAccountRepository.Update,
    PostgreSQLAccountRepository.GetByID, PostgreSQLAccountRepository.Create,
    MongoTransactionRepository.UpdateStatus, MongoTransactionRepository.GetByID,
    MongoTransactionRepository.Create
    in *;
  cbn [AccountUseCase.accountRepo AccountRepository.GetByID AccountRepository.Update
       AccountRepository.UpdateBalance AccountRepository.Create
       TransactionRepository.UpdateStatus TransactionRepository.GetByID
       TransactionRepository.Create] in *.

Lemma other_call_ok (o : Other) (w : World) :
  result (other_call o) w = Ok tt ∧ accounts_only w (after (other_call o) w).
Proof.
  unfold result, after, accounts_only.
  destruct o; unfold other_call; unfold_repository; simpl;
    repeat (case_match; simpl in *; simplify_eq); repeat split.
Qed.

Lemma run_batch_ok (batch : list Other) (w : World) :
  result (run_batch batch) w = Ok tt ∧ accounts_only w (after (run_batch batch) w).
Proof.
  revert w. induction batch as [|o batch IH]; intros w.
  - split; [reflexivity|apply accounts_only_refl].
  - destruct (other_call_ok o w) as [Hr Hf].
    unfold result, after in *. simpl. unfold bind.
    destruct (other_call o w) as [r w1]; simpl in *. subst r.
    destruct (IH w1) as [Hr' Hf'].
    split; [assumption|]. eapply accounts_only_trans; eassumption.
Qed.

Lemma yield_ok (w : World) : yield w = (Ok tt, after yield w).
Proof.
  unfold after, yield. destruct (others w) as [|batch rest]; [reflexivity|].
  destruct (run_batch_ok batch w) as [Hr _].
  unfold result in Hr. destruct (run_batch batch w); simpl in *.
  congruence.
Qed.

Lemma yield_frame (w : World) :
  transactions (after yield w) = transactions w ∧
  broker (after yield w) = broker w ∧
  others (after yield w) = tail (others w) ∧
  logs (after yield w) = logs w ∧
  audit (after yield w) = audit w.
Proof.
  unfold after, yield. destruct (others w) as [|batch rest] eqn:Ho.
  - simpl. rewrite Ho. repeat split.
  - destruct (run_batch_ok batch w) as [_ (?&?&?&?&?)].
    unfold after in *. destruct (run_batch batch w).
    repeat split; simpl in *; assumption.
Qed.

Lemma yield_after (w : World) :
  after yield w
  = set_others (tail (others w)) (after (run_batch (pending 0 w)) w).
Proof.
  unfold after at 1, yield, pending.
  destruct (others w) as [|batch rest] eqn:Ho; cbn.
  - destruct w; cbn in *; subst; reflexivity.
  - unfold after. destruct (run_batch batch w). reflexivity.
Qed.

Lemma yield_quiet (w : World) : others w = [] -> after yield w = w.
Proof. intros Ho. unfold after, yield. rewrite Ho. reflexivity. Qed.

(** ** The wired repositories, statement by statement *)

Lemma GetByID_shared (id : string) (w : World) :
  AccountRepository.GetByID accountRepo id w =
    match accounts (after yield w) !! id with
    | Some account => (Ok account, after yield w)
    | None => (Fail ErrAccountNotFound, after yield w)
    end.
Proof.
  unfold accountRepo, shared. unfold_repository. rewrite yield_ok.
  destruct (accounts (after yield w) !! id); simpl;
    rewrite set_accounts_same; reflexivity.
Qed.

Lemma UpdateBalance_shared (id : string) (newBalance version : Z) (w : World) :
  AccountRepository.UpdateBalance accountRepo id newBalance version w =
    (if cas_hits id version (after yield w) then Ok tt else Fail ErrConcurrentUpdate,
     cas_world id newBalance version (after yield w)).
Proof.
  unfold accountRepo, shared. unfold_repository. rewrite yield_ok.
  unfold cas_hits, cas_world, record_cas, tick, cas_row. simpl.
  destruct (accounts (after yield w) !! id) as [stored|]; simpl.
  - destruct (decide (Account.Version stored = version)); simpl.
    + rewrite bool_decide_eq_true_2 by assumption. reflexivity.
    + rewrite bool_decide_eq_false_2 by assumption. reflexivity.
  - reflexivity.
Qed.

Lemma UpdateStatus_wired (id : string) (status : TransactionStatus)
    (errorMessage : string) (w : World) :
  TransactionRepository.UpdateStatus transactionRepo id status errorMessage w =
    (match transactions w !! id with
     | Some _ => Ok tt
     | None => Fail ErrTransactionNotFound
     end,
     status_world id status errorMessage w).
Proof.
  unfold transactionRepo. unfold_repository.
  unfold status_world, status_doc, tick. simpl.
  destruct (decide (status = TransactionStatusCompleted)); simpl;
    destruct (transactions w !! id); simpl; try reflexivity;
    f_equal; destruct w; reflexivity.
Qed.

(** The other clients neither read nor write the journal, the log and
    the audit record of this process. *)

Lemma public_ret {A} (a : A) : public (ret a).
Proof. intros p w. reflexivity. Qed.

Lemma public_throw {A} (e : error) : public (@throw A e).
Proof. intros p w. reflexivity. Qed.

Lemma public_bind {A B} (m : M A) (k : A -> M B) :
  public m -> (∀ a, public (k a)) -> public (bind m k).
Proof.
  intros Hm Hk p w. unfold bind, result, after. rewrite Hm.
  unfold result, after. destruct (m w) as [[a|e|] w1]; simpl; try reflexivity.
  rewrite Hk. reflexivity.
Qed.

Lemma public_try {A} (m : M A) : public m -> public (try m).
Proof.
  intros Hm p w. unfold try, result, after. rewrite Hm.
  unfold result, after. destruct (m w) as [[a|e|] w1]; reflexivity.
Qed.

Lemma public_discard {A} (m : M A) : public m -> public (discard m).
Proof.
  intros Hm. unfold discard. apply public_bind; [apply public_try, Hm|].
  intros _. apply public_ret.
Qed.

Lemma public_time_Now : public time_Now.
Proof. intros [] w; reflexivity. Qed.

Lemma public_uuid_New : public uuid_New.
Proof. intros [] w; unfold uuid_New, result, after; simpl; destruct (entropy w); reflexivity. Qed.

Lemma public_on_accounts {A}
    (f : gmap string Account.t -> Result A * gmap string Account.t) :
  public (on_accounts f).
Proof.
  intros [] w; unfold on_accounts, result, after; simpl;
    destruct (f (accounts w)); reflexivity.
Qed.

Ltac public_steps :=
  repeat first
    [ apply public_ret | apply public_throw | apply public_time_Now
    | apply public_uuid_New | apply public_on_accounts
    | apply public_discard | apply public_try
    | apply public_bind; [|intros ?]
    | match goal with |- public (if ?c then _ else _) => destruct c end ].

Lemma public_other_call (o : Other) : public (other_call o).
Proof.
  destruct o; unfold other_call, AccountUseCase.DeactivateAccount,
    AccountUseCase.CreateAccount, NewAccountUseCase, NewPostgreSQLAccountRepository;
  cbn [AccountUseCase.accountRepo AccountRepository.GetByID AccountRepository.Update
       AccountRepository.UpdateBalance AccountRepository.Create];
  public_steps.
Qed.

Lemma public_run_batch (batch : list Other) : public (run_batch batch).
Proof.
  induction batch as [|o batch IH]; simpl.
  - apply public_ret.
  - apply public_bind; [apply public_other_call|intros _; exact IH].
Qed.

Lemma public_yield : public yield.
Proof.
  intros p w. unfold yield, result, after.
  replace (others (put p w)) with (others w) by (destruct p; reflexivity).
  destruct (others w) as [|batch rest]; [reflexivity|].
  rewrite public_run_batch. unfold result, after.
  destruct (run_batch batch w). destruct p; reflexivity.
Qed.

Lemma yield_put (p : Private) (w : World) :
  after yield (put p w) = put p (after yield w).
Proof. unfold after at 1. rewrite public_yield. reflexivity. Qed.

Lemma yield_set_logs (l : list LogLine) (w : World) :
  after yield (set_logs l w) = set_logs l (after yield w).
Proof. exact (yield_put (PrivateLogs l) w). Qed.

Lemma yield_set_audit (a : list CasRecord) (w : World) :
  after yield (set_audit a w) = set_audit a (after yield w).
Proof. exact (yield_put (PrivateAudit a) w). Qed.

Lemma yield_set_transactions (docs : gmap string Transaction.t) (w : World) :
  after yield (set_transactions docs w) = set_transactions docs (after yield w).
Proof. exact (yield_put (PrivateTransactions docs) w). Qed.

Ltac world_simpl :=
  cbn [accounts transactions broker others clock entropy logs audit
       set_accounts set_transactions set_broker set_others set_clock
       set_entropy set_logs set_audit tick fst snd] in *.

(** ** The handler around [ProcessTransactionSync] *)

Lemma handler_run (request : TransactionRequest.t) (w : World) :
  let id := TransactionRequest.ID request in
  TransactionUseCase.handler transactionService (Encoded request) w =
    match TransactionUseCase.ProcessTransactionSync transactionService request
            (set_logs (logs w ++ [LogProcessing id]) w) with
    | (Ok _, w1) => (Ok tt, set_logs (logs w1 ++ [LogProcessed id]) w1)
    | (Fail err, w1) =>
        (Fail err,
         status_world id TransactionStatusFailed (Error err)
           (set_logs (logs w1 ++ [LogProcessFailed id err]) w1))
    | (Panic, w1) => (Panic, w1)
    end.
Proof.
  intros id. subst id.
  unfold TransactionUseCase.handler.
  unfold json_Unmarshal, log_Printf, discard, try, bind, ret, throw.
  cbn beta iota zeta.
  destruct (TransactionUseCase.ProcessTransactionSync transactionService request _)
    as [[[]|err|] w1]; try reflexivity.
  change (TransactionUseCase.transactionRepo transactionService) with transactionRepo.
  rewrite UpdateStatus_wired.
  destruct (transactions _ !! _); reflexivity.
Qed.

Lemma handler_garbage (raw : string) (w : World) :
  let err := External "invalid character looking for beginning of value" in
  TransactionUseCase.handler transactionService (Garbage raw) w =
    (Fail err, set_logs (logs w ++ [LogUnmarshalFailed err]) w).
Proof. reflexivity. Qed.

Lemma status_world_frame (id : string) (status : TransactionStatus)
    (errorMessage : string) (w : World) :
  accounts (status_world id status errorMessage w) = accounts w ∧
  others (status_world id status errorMessage w) = others w ∧
  logs (status_world id status errorMessage w) = logs w ∧
  audit (status_world id status errorMessage w) = audit w ∧
  broker (status_world id status errorMessage w) = broker w.
Proof.
  unfold status_world.
  destruct (decide (status = TransactionStatusCompleted));
    destruct (transactions w !! id); repeat split.
Qed.

Lemma status_world_lookup (id : string) (status : TransactionStatus)
    (errorMessage : string) (w : World) (stored : Transaction.t) :
  transactions w !! id = Some stored ->
  transactions (status_world id status errorMessage w) !! id
    = Some (status_doc stored status errorMessage (clock w) (clock w + 1)).
Proof.
  intros H. unfold status_world. rewrite H.
  destruct (decide (status = TransactionStatusCompleted)); simpl;
    apply lookup_insert_eq.
Qed.

Lemma retry_loop_failed_attempt
    (n : nat) (attempt : Z) (lastErr : option error) (msg : Message)
    (handler : Message -> M unit) (w w1 : World) (err : error) :
  handler msg w = (Fail err, w1) ->
  RabbitMQQueue.retry_loop (S n) attempt lastErr msg handler w
  = RabbitMQQueue.retry_loop n (attempt + 1) (Some err) msg handler
      (attempt_failed attempt err w1).
Proof.
  intros H. simpl. unfold try. rewrite !bind_apply, H. cbn beta iota.
  unfold log_Printf, attempt_failed. rewrite !bind_apply. cbn beta iota zeta.
  destruct (attempt <? RabbitMQQueue.maxRetries); reflexivity.
Qed.
(** ** Validation *)

(** C8: [IsValid] returns the error of the first rule, in the order
    InvalidAmount, MissingCurrency, MissingToAccount (deposit),
    MissingFromAccount (withdrawal), MissingAccounts and SameAccount
    (transfer), InvalidTransactionType (any other type), whose condition
    holds, and succeeds when none does. *)
Theorem IsValid_precedence (tr : TransactionRequest.t) :
  TransactionRequest.IsValid tr = validate tr.
Proof.
  unfold TransactionRequest.IsValid, validate, validation_rules.
  destruct tr as [id ty from to amount currency d r m]; simpl.
  destruct (amount <=? 0); [reflexivity|].
  destruct (decide (currency = "")) as [Hc|Hc].
  { rewrite bool_decide_eq_true_2 by assumption. reflexivity. }
  rewrite (bool_decide_eq_false_2 _ Hc).
  destruct (decide (ty = TransactionTypeDeposit)) as [->|Hd].
  { destruct to; reflexivity. }
  rewrite (bool_decide_eq_false_2 _ Hd); simpl.
  destruct (decide (ty = TransactionTypeWithdrawal)) as [->|Hw].
  { destruct from; reflexivity. }
  rewrite (bool_decide_eq_false_2 _ Hw); simpl.
  destruct (decide (ty = TransactionTypeTransfer)) as [->|Ht].
  { destruct from as [f|], to as [t|]; simpl; try reflexivity.
    destruct (decide (f = t)) as [->|Hne].
    - rewrite bool_decide_eq_true_2 by reflexivity. reflexivity.
    - rewrite bool_decide_eq_false_2 by congruence. reflexivity. }
  rewrite (bool_decide_eq_false_2 _ Ht); simpl.
  rewrite bool_decide_eq_false_2; [reflexivity|].
  rewrite !elem_of_cons, elem_of_nil. tauto.
Qed.

(** ** The compare-and-swap of the account store *)

(** ** Acceptance: journal first, then publish *)

Lemma Publish_failure_broker (queueName : string) (message : Message)
    (w w1 : World) (err : error) :
  result (RabbitMQQueue.Publish queueName message) w = Fail err ->
  broker w1 = broker w ->
  RabbitMQQueue.Publish queueName message w1 = (Fail err, w1).
Proof.
  unfold result, RabbitMQQueue.Publish. intros H Hb. rewrite Hb.
  destruct (declare_error (broker w)); simpl in *; [congruence|].
  destruct (publish_error (broker w)); simpl in *; congruence.
Qed.

(** C10: when a valid request is journaled (no document has its id yet)
    and the broker then refuses the publish with [perr], the call returns
    an error wrapping [perr], and the document just created is left with
    status failed and [perr]'s text as its error message; nothing is
    queued and no account is touched. *)
Theorem ProcessTransaction_publish_failure
    (w : World) (request : TransactionRequest.t) (perr : error) :
  let id := assigned_id request w in
  TransactionRequest.IsValid request = None ->
  id ≠ "" ->
  transactions w !! id = None ->
  result (RabbitMQQueue.Publish "transactions" (Encoded (with_id id request))) w
    = Fail perr ->
  let w' := after (TransactionUseCase.ProcessTransaction transactionService request) w in
  result (TransactionUseCase.ProcessTransaction transactionService request) w
    = Fail (Errorf "failed to publish transaction" perr) ∧
  (∃ transaction,
     transactions w' !! id = Some transaction ∧
     Transaction.Status transaction = TransactionStatusFailed ∧
     Transaction.ErrorMessage transaction = Error perr ∧
     Transaction.Type_ transaction = TransactionRequest.Type_ request ∧
     Transaction.FromAccountID transaction = TransactionRequest.FromAccountID request ∧
     Transaction.ToAccountID transaction = TransactionRequest.ToAccountID request ∧
     Transaction.Amount transaction = TransactionRequest.Amount request ∧
     Transaction.Currency transaction = TransactionRequest.Currency request) ∧
  broker w' = broker w ∧
  accounts w' = accounts w.
Proof.
  intros id Hvalid Hid Hfresh Hpub w'. subst w'.
  unfold result, after.
  destruct (TransactionUseCase.ProcessTransaction transactionService request w)
    as [r w'] eqn:Hrun.
  unfold TransactionUseCase.ProcessTransaction in Hrun.
  rewrite Hvalid in Hrun.
  unfold transactionService, NewTransactionUseCase, NewRabbitMQQueue, json_Marshal
    in Hrun.
  cbn [TransactionUseCase.transactionRepo TransactionUseCase.queue
       TransactionUseCase.queueName MessageQueue.Publish] in Hrun.
  set (w0 := if decide (TransactionRequest.ID request = "")
             then set_entropy (tail (entropy w)) w else w).
  assert (Hassign :
    (if decide (TransactionRequest.ID request = "") then uuid_New
     else ret (TransactionRequest.ID request)) w = (Ok id, w0)).
  { subst id w0. unfold assigned_id, next_uuid, uuid_New, ret.
    destruct (decide (TransactionRequest.ID request = "")); [|reflexivity].
    destruct w as [? ? ? ? ? ent ? ?]; destruct ent; reflexivity. }
  unfold bind at 1 in Hrun. rewrite Hassign in Hrun.
  assert (Hw0 : transactions w0 = transactions w ∧ broker w0 = broker w ∧
                accounts w0 = accounts w).
  { subst w0. destruct (decide _); repeat split. }
  destruct Hw0 as (Ht0 & Hb0 & Ha0).
  unfold transactionRepo in Hrun. unfold_repository.
  cbn [Transaction.ID TransactionRequest.ID] in Hrun.
  destruct (decide (id = "")) as [|_]; [contradiction|].
  simpl in Hrun. rewrite Ht0, Hfresh in Hrun. simpl in Hrun.
  cbn [TransactionRequest.Type_ TransactionRequest.FromAccountID
       TransactionRequest.ToAccountID TransactionRequest.Amount
       TransactionRequest.Currency TransactionRequest.Description
       TransactionRequest.Reference TransactionRequest.Metadata] in Hrun.
  fold (with_id id request) in Hrun.
  erewrite Publish_failure_broker in Hrun; [|exact Hpub|simpl; exact Hb0].
  simpl in Hrun.
  destruct (decide (TransactionStatusFailed = TransactionStatusCompleted));
    [discriminate|].
  simpl in Hrun. rewrite lookup_insert_eq in Hrun. simpl in Hrun.
  injection Hrun as <- <-. simpl.
  split; [reflexivity|]. split.
  - eexists. rewrite lookup_insert_eq. split; [reflexivity|].
    simpl. repeat split.
  - split; assumption.
Qed.
(** ** Withdrawals *)

(** C6: a valid withdrawal request for more than the balance of an active
    account in the request's currency makes the handler fail with
    ErrInsufficientFunds; it sends no [UpdateBalance], the accounts table
    is as the read found it (balance and version of the account included)
    and the journal document is marked failed with that error. *)
Theorem withdrawal_insufficient_funds
    (w : World) (request : TransactionRequest.t) (id : string)
    (account : Account.t) (stored : Transaction.t) :
  TransactionRequest.IsValid request = None ->
  TransactionRequest.Type_ request = TransactionTypeWithdrawal ->
  TransactionRequest.FromAccountID request = Some id ->
  accounts (after yield w) !! id = Some account ->
  Account.Status account = "active" ->
  Account.Currency account = TransactionRequest.Currency request ->
  Account.Balance account < TransactionRequest.Amount request ->
  transactions w !! TransactionRequest.ID request = Some stored ->
  let run := TransactionUseCase.handler transactionService (Encoded request) in
  result run w = Fail ErrInsufficientFunds ∧
  accounts (after run w) = accounts (after yield w) ∧
  accounts (after run w) !! id = Some account ∧
  audit (after run w) = audit w ∧
  ∃ marked,
    transactions (after run w) !! TransactionRequest.ID request = Some marked ∧
    Transaction.Status marked = TransactionStatusFailed ∧
    Transaction.ErrorMessage marked = "insufficient funds".
Proof.
  intros Hvalid Hty Hfrom Hrow Hactive Hcur Hlow Hdoc run. subst run.
  destruct (yield_frame w) as (Hyt & _ & _ & Hyl & Hya).
  set (w0 := set_logs (logs w ++ [LogProcessing (TransactionRequest.ID request)]) w).
  assert (Hsync :
    TransactionUseCase.ProcessTransactionSync transactionService request w0
    = (Fail ErrInsufficientFunds, after yield w0)).
  { unfold TransactionUseCase.ProcessTransactionSync.
    rewrite Hvalid, Hty.
    destruct (decide (TransactionTypeWithdrawal = TransactionTypeDeposit));
      [discriminate|].
    destruct (decide (TransactionTypeWithdrawal = TransactionTypeWithdrawal));
      [|congruence].
    unfold TransactionUseCase.processWithdrawal. rewrite Hfrom.
    unfold deref, bind, ret, throw. cbn beta iota zeta.
    change (TransactionUseCase.accountRepo transactionService) with accountRepo.
    rewrite GetByID_shared. subst w0. rewrite yield_set_logs. world_simpl.
    rewrite Hrow.
    destruct (decide (Account.Status account ≠ "active")); [contradiction|].
    destruct (decide (Account.Currency account ≠ TransactionRequest.Currency request));
      [contradiction|].
    apply Z.ltb_lt in Hlow. rewrite Hlow. reflexivity. }
  pose proof (handler_run request w) as Hh. cbn zeta in Hh. fold w0 in Hh.
  rewrite Hsync in Hh.
  match type of Hh with _ = (_, ?W) =>
    assert (Ha : after (TransactionUseCase.handler transactionService
                          (Encoded request)) w = W)
      by (unfold after at 1; rewrite Hh; reflexivity)
  end.
  unfold result. rewrite Ha, Hh. cbn [fst]. clear Ha Hh Hsync.
  subst w0. rewrite yield_set_logs. unfold status_world. world_simpl.
  rewrite Hyt, Hdoc.
  destruct (decide (TransactionStatusFailed = TransactionStatusCompleted));
    [discriminate|].
  world_simpl. rewrite lookup_insert_eq.
  repeat split; try assumption.
  eexists. split; [reflexivity|]. split; reflexivity.
Qed.
(** ** Statuses of journal documents *)

(** C7 (as amended): only cancellation respects a status that has left
    pending: [CancelTransaction] then fails with
    ErrTransactionAlreadyProcessed and changes nothing.  [UpdateStatus],
    in the Mongo and in the in-memory repository, writes the status it is
    given over any current status. *)
Theorem status_guarded_by_cancellation_only
    (w : World) (id : string) (stored : Transaction.t)
    (status : TransactionStatus) (errorMessage : string) (now1 now2 : Z) :
  transactions w !! id = Some stored ->
  (Transaction.Status stored ≠ TransactionStatusPending ->
   TransactionUseCase.CancelTransaction transactionService id w
     = (Fail ErrTransactionAlreadyProcessed, w)) ∧
  MongoTransactionRepository.UpdateStatus now1 now2 id status errorMessage
      (transactions w)
    = (Ok tt, <[id := status_doc stored status errorMessage now1 now2]> (transactions w)) ∧
  MockTransactionRepository.UpdateStatus now1 now2 id status errorMessage
      (transactions w)
    = (Ok tt, <[id := status_doc stored status errorMessage now1 now2]> (transactions w)) ∧
  Transaction.Status (status_doc stored status errorMessage now1 now2) = status.
Proof.
  intros Hdoc. split; [|split; [|split]].
  - intros Hleft. unfold TransactionUseCase.CancelTransaction.
    change (TransactionUseCase.transactionRepo transactionService) with transactionRepo.
    unfold transactionRepo, NewMongoTransactionRepository.
    cbn [TransactionRepository.GetByID TransactionRepository.UpdateStatus].
    unfold bind, on_transactions, MongoTransactionRepository.GetByID.
    rewrite Hdoc. rewrite set_transactions_same.
    destruct (decide (Transaction.Status stored ≠ TransactionStatusPending));
      [reflexivity|contradiction].
  - unfold MongoTransactionRepository.UpdateStatus. rewrite Hdoc. reflexivity.
  - unfold MockTransactionRepository.UpdateStatus. rewrite Hdoc. reflexivity.
  - reflexivity.
Qed.
(** ** Redelivery *)

Lemma blind_ret {A} (a : A) : blind (ret a).
Proof. intros w1 w2 H. split; [reflexivity|exact H]. Qed.

Lemma blind_throw {A} (e : error) : blind (@throw A e).
Proof. intros w1 w2 H. split; [reflexivity|exact H]. Qed.

Lemma blind_panic {A} : blind (@panic A).
Proof. intros w1 w2 H. split; [reflexivity|exact H]. Qed.

Lemma blind_bind {A B} (m : M A) (k : A -> M B) :
  blind m -> (∀ a, blind (k a)) -> blind (bind m k).
Proof.
  intros Hm Hk w1 w2 H. destruct (Hm w1 w2 H) as [Hr Hw].
  unfold result, after, bind in *.
  destruct (m w1) as [r1 w1'], (m w2) as [r2 w2']; simpl in *. subst r2.
  destruct r1 as [a|e|]; simpl; [apply Hk; exact Hw| |]; split; auto.
Qed.

Lemma blind_try {A} (m : M A) : blind m -> blind (try m).
Proof.
  intros Hm w1 w2 H. destruct (Hm w1 w2 H) as [Hr Hw].
  unfold result, after, try in *.
  destruct (m w1) as [r1 w1'], (m w2) as [r2 w2']; simpl in *. subst r2.
  destruct r1; simpl; split; auto.
Qed.

Lemma blind_discard {A} (m : M A) : blind m -> blind (discard m).
Proof.
  intros Hm. unfold discard. apply blind_bind; [apply blind_try, Hm|].
  intros _. apply blind_ret.
Qed.

Lemma blind_public {A} (m : M A) : public m -> blind m.
Proof.
  intros Hm w1 w2 (Ha & Hb & Ho & Hc & He & Hl & Hau & Hdom).
  assert (Hw2 : w2 = put (PrivateTransactions (transactions w2)) w1).
  { destruct w1, w2; simpl in *; subst; reflexivity. }
  assert (Hsame : transactions (after m w1) = transactions w1).
  { pose proof (Hm (PrivateTransactions (transactions w1)) w1) as H1.
    simpl in H1. rewrite set_transactions_same in H1.
    unfold after at 1. rewrite H1. reflexivity. }
  unfold result, after in *. rewrite Hw2 at 1 2. rewrite Hm.
  unfold result, after. simpl. split; [reflexivity|].
  repeat split; try reflexivity; simpl; rewrite Hsame; apply Hdom.
Qed.

Lemma blind_log_Printf (l : LogLine) : blind (log_Printf l).
Proof.
  intros w1 w2 (Ha & Hb & Ho & Hc & He & Hl & Hau & Hdom).
  split; [reflexivity|].
  unfold after, log_Printf; repeat split; simpl; try assumption;
    try congruence; apply Hdom.
Qed.

Lemma blind_record_cas (id : string) (newBalance version : Z) (applied : bool) :
  blind (record_cas id newBalance version applied).
Proof.
  intros w1 w2 (Ha & Hb & Ho & Hc & He & Hl & Hau & Hdom).
  split; [reflexivity|].
  unfold after, record_cas; repeat split; simpl; try assumption;
    try congruence; apply Hdom.
Qed.

Lemma blind_UpdateStatus (id : string) (status : TransactionStatus)
    (errorMessage : string) :
  blind (TransactionRepository.UpdateStatus transactionRepo id status errorMessage).
Proof.
  intros w1 w2 H. unfold result, after. rewrite !UpdateStatus_wired.
  destruct H as (Ha & Hb & Ho & Hc & He & Hl & Hau & Hdom).
  pose proof (Hdom id) as Hid. unfold status_world. simpl.
  destruct (transactions w1 !! id) as [d1|] eqn:H1,
           (transactions w2 !! id) as [d2|] eqn:H2;
    try (exfalso; destruct Hid as [Hx Hy];
         first [ destruct (Hx (mk_is_Some _ _ eq_refl)); discriminate
               | destruct (Hy (mk_is_Some _ _ eq_refl)); discriminate ]).
  - split; [reflexivity|].
    destruct (decide (status = TransactionStatusCompleted)); simpl;
      (repeat split; simpl; try congruence);
      rewrite !lookup_insert_is_Some; intros [?|[? ?]]; auto;
      right; split; auto; apply Hdom; assumption.
  - split; [reflexivity|].
    destruct (decide (status = TransactionStatusCompleted)); simpl;
      repeat split; simpl; try congruence; apply Hdom.
Qed.

Ltac blind_steps :=
  repeat first
    [ apply blind_ret | apply blind_throw | apply blind_panic
    | apply blind_log_Printf | apply blind_record_cas | apply blind_UpdateStatus
    | apply blind_public; first
        [ apply public_yield | apply public_time_Now | apply public_on_accounts ]
    | apply blind_discard | apply blind_try
    | apply blind_bind; [|intros ?]
    | match goal with
      | |- blind (if ?c then _ else _) => destruct c
      | |- blind (match ?x with _ => _ end) => destruct x
      end ].

Lemma blind_GetByID (id : string) : blind (AccountRepository.GetByID accountRepo id).
Proof.
  unfold accountRepo, shared, NewPostgreSQLAccountRepository.
  cbn [AccountRepository.GetByID]. blind_steps.
Qed.

Lemma blind_UpdateBalance (id : string) (newBalance version : Z) :
  blind (AccountRepository.UpdateBalance accountRepo id newBalance version).
Proof.
  unfold accountRepo, shared, NewPostgreSQLAccountRepository.
  cbn [AccountRepository.UpdateBalance]. blind_steps.
Qed.

Lemma blind_ProcessTransactionSync (request : TransactionRequest.t) :
  blind (TransactionUseCase.ProcessTransactionSync transactionService request).
Proof.
  unfold TransactionUseCase.ProcessTransactionSync,
    TransactionUseCase.processDeposit, TransactionUseCase.processWithdrawal,
    TransactionUseCase.processTransfer, deref.
  change (TransactionUseCase.accountRepo transactionService) with accountRepo.
  change (TransactionUseCase.transactionRepo transactionService) with transactionRepo.
  repeat first
    [ apply blind_GetByID | apply blind_UpdateBalance | progress blind_steps ].
Qed.

Lemma blind_handler (msg : Message) :
  blind (TransactionUseCase.handler transactionService msg).
Proof.
  unfold TransactionUseCase.handler, json_Unmarshal.
  change (TransactionUseCase.transactionRepo transactionService) with transactionRepo.
  repeat first [ apply blind_ProcessTransactionSync | progress blind_steps ].
Qed.

Lemma public_time_Sleep (d : Z) : public (time_Sleep d).
Proof. intros [] w; reflexivity. Qed.

Lemma blind_retry_loop (handler : Message -> M unit) (msg : Message) :
  (∀ m, blind (handler m)) ->
  ∀ remaining attempt lastErr,
    blind (RabbitMQQueue.retry_loop remaining attempt lastErr msg handler).
Proof.
  intros Hh remaining. induction remaining as [|n IH]; intros attempt lastErr; simpl.
  - apply blind_throw.
  - apply blind_bind; [apply blind_try, Hh|]. intros [a|err]; [apply blind_ret|].
    apply blind_bind; [apply blind_log_Printf|]. intros _.
    apply blind_bind; [|intros _; apply IH].
    destruct (attempt <? RabbitMQQueue.maxRetries);
      [apply blind_public, public_time_Sleep|apply blind_ret].
Qed.

Lemma blind_deliver (handler : Message -> M unit) (msg : Message) :
  (∀ m, blind (handler m)) -> blind (RabbitMQQueue.deliver handler msg).
Proof.
  intros Hh. unfold RabbitMQQueue.deliver, RabbitMQQueue.processMessageWithRetry.
  apply blind_bind; [apply blind_try, blind_retry_loop, Hh|].
  intros [a|err]; blind_steps.
Qed.

(** C2 (as amended): the handler and the delivery around it never read
    the journal.  In two worlds that journal the same ids and differ only
    in what the documents hold (their status included, terminal or not)
    the handler returns the same result, the consumer gives the same
    acknowledgment, and both send the same [UpdateBalance] statements and
    leave the same accounts and the same log. *)
Theorem delivery_blind_to_journal
    (w1 w2 : World) (msg : Message) :
  same_but_documents w1 w2 ->
  let handle := TransactionUseCase.handler transactionService msg in
  let run := RabbitMQQueue.deliver (TransactionUseCase.handler transactionService) msg in
  (result handle w1 = result handle w2 ∧
   accounts (after handle w1) = accounts (after handle w2) ∧
   audit (after handle w1) = audit (after handle w2)) ∧
  result run w1 = result run w2 ∧
  accounts (after run w1) = accounts (after run w2) ∧
  audit (after run w1) = audit (after run w2) ∧
  logs (after run w1) = logs (after run w2).
Proof.
  intros H handle run.
  destruct (blind_handler msg w1 w2 H)
    as [Hr' (Ha' & _ & _ & _ & _ & _ & Hau' & _)].
  destruct (blind_deliver _ msg blind_handler w1 w2 H)
    as [Hr (Ha & _ & _ & _ & _ & Hl & Hau & _)].
  auto 10.
Qed.
(** ** Retries of a delivery *)

Lemma IsValid_not_business (request : TransactionRequest.t) (e : error) :
  TransactionRequest.IsValid request = Some e -> ¬ business_rule_error e.
Proof.
  unfold TransactionRequest.IsValid, business_rule_error.
  intros H [->|[->| ->]];
    repeat (case_match; simplify_eq).
Qed.

Ltac not_business Hbus :=
  let H := fresh in
  intros H; try discriminate H; injection H as <-; exfalso;
  destruct Hbus as [?|[?|?]]; discriminate.

Lemma single_write_not_business
    (id tid : string) (newBalance version : Z) (w : World) (e : error) :
  business_rule_error e ->
  result (AccountRepository.UpdateBalance accountRepo id newBalance version ;;
          TransactionRepository.UpdateStatus transactionRepo tid
            TransactionStatusCompleted "") w ≠ Fail e.
Proof.
  intros Hbus. unfold result, bind. rewrite UpdateBalance_shared.
  destruct (cas_hits id version (after yield w)); [|not_business Hbus].
  cbn beta iota zeta. rewrite UpdateStatus_wired.
  destruct (transactions _ !! tid); not_business Hbus.
Qed.

Lemma transfer_writes_not_business
    (fromAccount toAccount : Account.t) (amount : Z) (tid : string)
    (w : World) (e : error) :
  business_rule_error e ->
  result
    (AccountRepository.UpdateBalance accountRepo (Account.ID fromAccount)
       (Account.Balance fromAccount - amount) (Account.Version fromAccount) ;;
     credited <- try (AccountRepository.UpdateBalance accountRepo
                        (Account.ID toAccount) (Account.Balance toAccount + amount)
                        (Account.Version toAccount)) ;;
     match credited with
     | inr err =>
         discard (AccountRepository.UpdateBalance accountRepo
                    (Account.ID fromAccount) (Account.Balance fromAccount)
                    (Account.Version fromAccount + 1)) ;;
         throw err
     | inl _ =>
         TransactionRepository.UpdateStatus transactionRepo tid
           TransactionStatusCompleted ""
     end) w ≠ Fail e.
Proof.
  intros Hbus. unfold discard. unfold result, bind, try, ret, throw.
  rewrite UpdateBalance_shared.
  destruct (cas_hits _ _ (after yield w)); [|not_business Hbus].
  cbn beta iota zeta. rewrite UpdateBalance_shared.
  destruct (cas_hits _ _ _); cbn beta iota zeta.
  - rewrite UpdateStatus_wired. destruct (transactions _ !! tid); not_business Hbus.
  - rewrite UpdateBalance_shared. destruct (cas_hits _ _ _); not_business Hbus.
Qed.

Ltac same_failure :=
  let H := fresh in
  intros H; unfold throw in *; simpl in H; injection H as <-; reflexivity.

Lemma sync_business_failure
    (request : TransactionRequest.t) (e : error) (w w' : World) :
  business_rule_error e ->
  others w = [] -> others w' = [] -> accounts w' = accounts w ->
  result (TransactionUseCase.ProcessTransactionSync transactionService request) w
    = Fail e ->
  TransactionUseCase.ProcessTransactionSync transactionService request w'
    = (Fail e, w').
Proof.
  intros Hbus Hq Hq' Hacc.
  unfold result, TransactionUseCase.ProcessTransactionSync.
  destruct (TransactionRequest.IsValid request) as [err|] eqn:Hvalid.
  { intros H. injection H as ->. destruct (IsValid_not_business _ _ Hvalid Hbus). }
  change (TransactionUseCase.accountRepo transactionService) with accountRepo.
  change (TransactionUseCase.transactionRepo transactionService) with transactionRepo.
  destruct (decide (TransactionRequest.Type_ request = TransactionTypeDeposit)).
  { unfold TransactionUseCase.processDeposit, deref.
    change (TransactionUseCase.accountRepo transactionService) with accountRepo.
    change (TransactionUseCase.transactionRepo transactionService) with transactionRepo.
    destruct (TransactionRequest.ToAccountID request) as [id|];
      [|intros; discriminate].
    rewrite !bind_apply. unfold ret. cbn beta iota. rewrite ?bind_apply, !GetByID_shared.
    rewrite (yield_quiet w Hq), (yield_quiet w' Hq'), Hacc.
    destruct (accounts w !! id) as [a|]; [|not_business Hbus].
    destruct (decide (Account.Status a ≠ "active")); [same_failure|].
    destruct (decide (Account.Currency a ≠ TransactionRequest.Currency request));
      [same_failure|].
    intros H. exfalso. revert H. apply single_write_not_business, Hbus. }
  destruct (decide (TransactionRequest.Type_ request = TransactionTypeWithdrawal)).
  { unfold TransactionUseCase.processWithdrawal, deref.
    change (TransactionUseCase.accountRepo transactionService) with accountRepo.
    change (TransactionUseCase.transactionRepo transactionService) with transactionRepo.
    destruct (TransactionRequest.FromAccountID request) as [id|];
      [|intros; discriminate].
    rewrite !bind_apply. unfold ret. cbn beta iota. rewrite ?bind_apply, !GetByID_shared.
    rewrite (yield_quiet w Hq), (yield_quiet w' Hq'), Hacc.
    destruct (accounts w !! id) as [a|]; [|not_business Hbus].
    destruct (decide (Account.Status a ≠ "active")); [same_failure|].
    destruct (decide (Account.Currency a ≠ TransactionRequest.Currency request));
      [same_failure|].
    destruct (Account.Balance a <? TransactionRequest.Amount request);
      [same_failure|].
    intros H. exfalso. revert H. apply single_write_not_business, Hbus. }
  destruct (decide (TransactionRequest.Type_ request = TransactionTypeTransfer));
    [|not_business Hbus].
  unfold TransactionUseCase.processTransfer, deref.
  change (TransactionUseCase.accountRepo transactionService) with accountRepo.
  change (TransactionUseCase.transactionRepo transactionService) with transactionRepo.
  destruct (TransactionRequest.FromAccountID request) as [fromID|];
    [|intros; discriminate].
  rewrite !bind_apply. unfold ret. cbn beta iota. rewrite ?bind_apply, !GetByID_shared.
  rewrite (yield_quiet w Hq), (yield_quiet w' Hq'), Hacc.
  destruct (accounts w !! fromID) as [fromAccount|]; [|not_business Hbus].
  destruct (TransactionRequest.ToAccountID request) as [toID|];
    [|intros; discriminate].
  rewrite !bind_apply. unfold ret. cbn beta iota. rewrite ?bind_apply, !GetByID_shared.
  rewrite (yield_quiet w Hq), (yield_quiet w' Hq'), Hacc.
  destruct (accounts w !! toID) as [toAccount|]; [|not_business Hbus].
  destruct (decide (_ ∨ _)); [same_failure|].
  destruct (decide (_ ∨ _)); [same_failure|].
  destruct (Account.Balance fromAccount <? TransactionRequest.Amount request);
    [same_failure|].
  intros H. exfalso. revert H. apply transfer_writes_not_business, Hbus.
Qed.

Lemma handler_business_failure
    (request : TransactionRequest.t) (e : error) (w w' : World) :
  business_rule_error e ->
  others w = [] -> others w' = [] -> accounts w' = accounts w ->
  result (TransactionUseCase.ProcessTransactionSync transactionService request) w
    = Fail e ->
  let id := TransactionRequest.ID request in
  TransactionUseCase.handler transactionService (Encoded request) w'
  = (Fail e, failed_world id e (set_logs (logs w' ++ [LogProcessing id]) w')).
Proof.
  intros Hbus Hq Hq' Hacc Hfail id. rewrite handler_run. cbn zeta.
  rewrite (sync_business_failure request e w _ Hbus Hq); auto.
Qed.

Lemma failed_world_frame (id : string) (err : error) (w1 : World) :
  accounts (failed_world id err w1) = accounts w1 ∧
  others (failed_world id err w1) = others w1 ∧
  logs (failed_world id err w1) = (logs w1 ++ [LogProcessFailed id err])%list ∧
  audit (failed_world id err w1) = audit w1.
Proof.
  unfold failed_world.
  destruct (status_world_frame id TransactionStatusFailed (Error err)
              (set_logs (logs w1 ++ [LogProcessFailed id err]) w1))
    as (-> & -> & -> & -> & _).
  repeat split.
Qed.

Lemma attempt_failed_frame (attempt : Z) (err : error) (w1 : World) :
  accounts (attempt_failed attempt err w1) = accounts w1 ∧
  others (attempt_failed attempt err w1) = others w1 ∧
  logs (attempt_failed attempt err w1)
    = (logs w1 ++ [LogAttemptFailed attempt RabbitMQQueue.maxRetries err])%list ∧
  audit (attempt_failed attempt err w1) = audit w1 ∧
  transactions (attempt_failed attempt err w1) = transactions w1.
Proof.
  unfold attempt_failed. cbn zeta.
  destruct (attempt <? RabbitMQQueue.maxRetries); repeat split.
Qed.

Lemma failed_world_marks (id : string) (err : error) (w1 : World) :
  is_Some (transactions w1 !! id) ->
  ∃ marked,
    transactions (failed_world id err w1) !! id = Some marked ∧
    Transaction.Status marked = TransactionStatusFailed ∧
    Transaction.ErrorMessage marked = Error err.
Proof.
  intros [stored H]. unfold failed_world.
  erewrite status_world_lookup by exact H.
  eexists. split; [reflexivity|]. split; reflexivity.
Qed.

(** One failing attempt on a quiet accounts table: what it leaves. *)
Lemma failing_attempt
    (request : TransactionRequest.t) (e : error) (w w' : World) (attempt : Z) :
  business_rule_error e ->
  others w = [] -> others w' = [] -> accounts w' = accounts w ->
  result (TransactionUseCase.ProcessTransactionSync transactionService request) w
    = Fail e ->
  let id := TransactionRequest.ID request in
  ∃ w1,
    TransactionUseCase.handler transactionService (Encoded request) w' = (Fail e, w1) ∧
    let w2 := attempt_failed attempt e w1 in
    others w2 = [] ∧ accounts w2 = accounts w ∧ audit w2 = audit w' ∧
    logs w2 = (logs w' ++ failed_attempt_lines id e attempt)%list ∧
    (is_Some (transactions w' !! id) ->
     ∃ marked,
       transactions w2 !! id = Some marked ∧
       Transaction.Status marked = TransactionStatusFailed ∧
       Transaction.ErrorMessage marked = Error e).
Proof.
  intros Hbus Hq Hq' Hacc Hfail id.
  eexists. split; [apply (handler_business_failure request e w w'); assumption|].
  cbn zeta. fold id.
  set (w0 := set_logs (logs w' ++ [LogProcessing id]) w').
  destruct (attempt_failed_frame attempt e (failed_world id e w0))
    as (-> & -> & -> & -> & ->).
  destruct (failed_world_frame id e w0) as (-> & -> & -> & ->).
  subst w0. world_simpl.
  repeat split; try assumption; try congruence.
  - unfold failed_attempt_lines. rewrite <- !app_assoc. reflexivity.
  - intros Hdoc. apply failed_world_marks. exact Hdoc.
Qed.

(** C9 (as amended): the retry machinery does not look at the kind of
    error.  When no other client touches the accounts table and
    processing a request fails with InsufficientFunds, AccountInactive or
    CurrencyMismatch, the handler is invoked [maxRetries] = 3 times; every
    invocation fails with the same error and marks the document failed;
    the message is then rejected without requeue; no [UpdateBalance] is
    sent and the accounts are unchanged. *)
Theorem business_failure_is_retried
    (w : World) (request : TransactionRequest.t) (e : error) :
  business_rule_error e ->
  others w = [] ->
  result (TransactionUseCase.ProcessTransactionSync transactionService request) w
    = Fail e ->
  let id := TransactionRequest.ID request in
  let run :=
    RabbitMQQueue.deliver (TransactionUseCase.handler transactionService)
      (Encoded request) in
  result run w = Ok (RabbitMQQueue.Nack false) ∧
  logs (after run w)
    = (logs w ++ failed_attempt_lines id e 1 ++ failed_attempt_lines id e 2
         ++ failed_attempt_lines id e 3
         ++ [LogRetriesExhausted (Errorf "failed after 3 attempts" e)])%list ∧
  accounts (after run w) = accounts w ∧
  audit (after run w) = audit w ∧
  (is_Some (transactions w !! id) ->
   ∃ marked,
     transactions (after run w) !! id = Some marked ∧
     Transaction.Status marked = TransactionStatusFailed ∧
     Transaction.ErrorMessage marked = Error e).
Proof.
  intros Hbus Hq Hfail id run.
  destruct (failing_attempt request e w w 1 Hbus Hq Hq eq_refl Hfail)
    as (w1 & Hrun1 & Hq1 & Hacc1 & Haud1 & Hlog1 & Hdoc1).
  cbn zeta in *. fold id in Hlog1, Hdoc1.
  set (v1 := attempt_failed 1 e w1) in *.
  destruct (failing_attempt request e w v1 2 Hbus Hq Hq1 Hacc1 Hfail)
    as (w2 & Hrun2 & Hq2 & Hacc2 & Haud2 & Hlog2 & Hdoc2).
  cbn zeta in *. fold id in Hlog2, Hdoc2.
  set (v2 := attempt_failed 2 e w2) in *.
  destruct (failing_attempt request e w v2 3 Hbus Hq Hq2 Hacc2 Hfail)
    as (w3 & Hrun3 & Hq3 & Hacc3 & Haud3 & Hlog3 & Hdoc3).
  cbn zeta in *. fold id in Hlog3, Hdoc3.
  set (v3 := attempt_failed 3 e w3) in *.
  assert (Hrun : run w =
    (Ok (RabbitMQQueue.Nack false),
     set_logs (logs v3 ++ [LogRetriesExhausted (Errorf "failed after 3 attempts" e)])
       v3)).
  { subst run. unfold RabbitMQQueue.deliver, RabbitMQQueue.processMessageWithRetry.
    change (Z.to_nat RabbitMQQueue.maxRetries) with 3%nat.
    unfold try. rewrite !bind_apply.
    rewrite (retry_loop_failed_attempt _ _ _ _ _ _ _ _ Hrun1). fold v1.
    rewrite (retry_loop_failed_attempt _ _ _ _ _ _ _ _ Hrun2). fold v2.
    rewrite (retry_loop_failed_attempt _ _ _ _ _ _ _ _ Hrun3). fold v3.
    reflexivity. }
  unfold result, after. rewrite Hrun. world_simpl.
  split; [reflexivity|]. split; [|split; [congruence|split; [congruence|]]].
  - rewrite Hlog3, Hlog2, Hlog1. rewrite <- !app_assoc. reflexivity.
  - intros Hdoc. apply Hdoc3.
    destruct (Hdoc2 (ltac:(destruct (Hdoc1 Hdoc) as (m & Hm & _); eauto)))
      as (m & Hm & _). eauto.
Qed.
(** ** What the other clients can do to a row *)

Lemma Create_row_effect
    (now1 now2 : Z) (uuid : string) (account : Account.t)
    (rows : gmap string Account.t) (id : string) (o : Other) :
  o = OtherCreateAccount (Account.UserID account) (Account.Balance account)
        (Account.Currency account) ->
  Account.Status account = "active" ->
  0 <= Account.Balance account ->
  row_effect id o (rows !! id)
    ((PostgreSQLAccountRepository.Create now1 now2 uuid account rows).2 !! id).
Proof.
  intros Ho Hst Hb. unfold PostgreSQLAccountRepository.Create.
  set (key := if decide (Account.ID account = "") then uuid else Account.ID account).
  rewrite Hst.
  destruct (decide (PostgreSQLAccountRepository.unique_violation _ rows))
    as [|Hfree]; cbn [snd]; [apply row_untouched|].
  destruct (decide (key = id)) as [<-|Hne].
  - rewrite lookup_insert_eq.
    assert (Hnone : rows !! key = None).
    { destruct (rows !! key) eqn:E; [|reflexivity].
      exfalso. apply Hfree. left. cbn. rewrite E. eauto. }
    rewrite Hnone. eapply row_created; eassumption.
  - rewrite lookup_insert_ne by assumption. apply row_untouched.
Qed.

Lemma other_call_row_effect (o : Other) (w : World) (id : string) :
  well_keyed (accounts w) ->
  row_effect id o (accounts w !! id) (accounts (after (other_call o) w) !! id).
Proof.
  intros Hwk. unfold after.
  destruct o as [id' newBalance version|id'|userID initialBalance currency];
    unfold other_call.
  - (* UpdateBalance *)
    unfold_repository.
    cbn beta iota zeta. world_simpl.
    destruct (accounts w !! id') as [stored|] eqn:Hrow; cbn;
      [|apply row_untouched].
    destruct (decide (Account.Version stored = version)) as [<-|]; cbn;
      [|apply row_untouched].
    destruct (decide (id' = id)) as [->|Hne].
    + rewrite lookup_insert_eq, Hrow. apply row_cas. reflexivity.
    + rewrite lookup_insert_ne by assumption. apply row_untouched.
  - (* DeactivateAccount *)
    unfold_repository.
    cbn beta iota zeta. world_simpl.
    destruct (accounts w !! id') as [stored|] eqn:Hrow; cbn;
      [|apply row_untouched].
    rewrite (Hwk _ _ Hrow), Hrow. cbn.
    destruct (decide (Account.Version stored = Account.Version stored));
      [|apply row_untouched].
    destruct (decide (map_Exists _ _)); cbn; [apply row_untouched|].
    destruct (decide (id' = id)) as [->|Hne].
    + rewrite lookup_insert_eq, Hrow. apply row_deactivated. reflexivity.
    + rewrite lookup_insert_ne by assumption. apply row_untouched.
  - (* CreateAccount *)
    unfold AccountUseCase.CreateAccount, NewAccountUseCase,
      NewPostgreSQLAccountRepository, discard, try, bind, ret, throw, time_Now,
      uuid_New, on_accounts.
    cbn [AccountUseCase.accountRepo AccountRepository.Create].
    destruct (initialBalance <? 0) eqn:Hneg; [apply row_untouched|].
    destruct (decide (currency = "")); [apply row_untouched|].
    apply Z.ltb_ge in Hneg.
    cbn beta iota zeta.
    destruct (entropy w) as [|u rest]; world_simpl; cbn beta iota zeta;
      cbn [Account.ID]; world_simpl;
      repeat match goal with
      | |- context [decide (?x = "")] => destruct (decide (x = ""))
      | |- context [match ?l with [] => _ | _ :: _ => _ end] =>
          destruct l; world_simpl; cbn beta iota zeta
      end;
      match goal with
      | |- context [PostgreSQLAccountRepository.Create ?a ?b ?c ?d ?e] =>
          pose proof (Create_row_effect a b c d e id
                        (OtherCreateAccount userID initialBalance currency)
                        eq_refl eq_refl Hneg) as H;
          destruct (PostgreSQLAccountRepository.Create a b c d e) as [[]] eqn:E
      end; cbn in *; exact H.
Qed.

Ltac eq_hyp := first [eassumption | symmetry; eassumption].

Lemma other_call_well_keyed (o : Other) (w : World) :
  well_keyed (accounts w) -> well_keyed (accounts (after (other_call o) w)).
Proof.
  intros Hwk id account H.
  pose proof (other_call_row_effect o w id Hwk) as He.
  rewrite H in He.
  inversion He; subst; cbn; try reflexivity; eapply Hwk; eq_hyp.
Qed.

Lemma other_call_untouched (o : Other) (w : World) (id : string) (account : Account.t) :
  well_keyed (accounts w) ->
  writes_row id o = false ->
  accounts w !! id = Some account ->
  accounts (after (other_call o) w) !! id = Some account.
Proof.
  intros Hwk Hno H.
  pose proof (other_call_row_effect o w id Hwk) as He.
  rewrite H in He.
  inversion He; subst; try reflexivity; try eq_hyp;
    cbn in Hno; rewrite bool_decide_eq_true_2 in Hno by reflexivity; discriminate.
Qed.

Lemma other_call_nonneg (o : Other) (w : World) :
  well_keyed (accounts w) ->
  other_nonneg o ->
  nonneg (accounts w) -> nonneg (accounts (after (other_call o) w)).
Proof.
  intros Hwk Ho Hnn id account H.
  pose proof (other_call_row_effect o w id Hwk) as He.
  rewrite H in He.
  inversion He; subst; cbn in *; try assumption;
    eapply Hnn; eq_hyp.
Qed.

Lemma other_call_money (o : Other) (w : World) (id : string) :
  well_keyed (accounts w) ->
  is_deactivation o ->
  money <$> accounts (after (other_call o) w) !! id = money <$> accounts w !! id.
Proof.
  intros Hwk Ho.
  pose proof (other_call_row_effect o w id Hwk) as He.
  inversion He; subst; cbn in *; try contradiction; try reflexivity; congruence.
Qed.

Lemma run_batch_cons (o : Other) (batch : list Other) (w : World) :
  after (run_batch (o :: batch)) w = after (run_batch batch) (after (other_call o) w).
Proof.
  destruct (other_call_ok o w) as [Hr _]. unfold result, after in *.
  simpl. rewrite bind_apply. destruct (other_call o w) as [r w1].
  simpl in *. subst r. reflexivity.
Qed.

Lemma run_batch_well_keyed (batch : list Other) (w : World) :
  well_keyed (accounts w) -> well_keyed (accounts (after (run_batch batch) w)).
Proof.
  revert w. induction batch as [|o batch IH]; intros w Hwk; [exact Hwk|].
  rewrite run_batch_cons. apply IH, other_call_well_keyed, Hwk.
Qed.

Lemma run_batch_untouched (batch : list Other) (w : World) (id : string)
    (account : Account.t) :
  well_keyed (accounts w) ->
  Forall (λ o, writes_row id o = false) batch ->
  accounts w !! id = Some account ->
  accounts (after (run_batch batch) w) !! id = Some account.
Proof.
  revert w. induction batch as [|o batch IH]; intros w Hwk Hno H; [exact H|].
  rewrite run_batch_cons. inversion Hno; subst.
  apply IH; [apply other_call_well_keyed, Hwk|assumption|].
  apply other_call_untouched; assumption.
Qed.

Lemma run_batch_nonneg (batch : list Other) (w : World) :
  well_keyed (accounts w) ->
  Forall other_nonneg batch ->
  nonneg (accounts w) -> nonneg (accounts (after (run_batch batch) w)).
Proof.
  revert w. induction batch as [|o batch IH]; intros w Hwk Hb H; [exact H|].
  rewrite run_batch_cons. inversion Hb; subst.
  apply IH; [apply other_call_well_keyed, Hwk|assumption|].
  apply other_call_nonneg; assumption.
Qed.

Lemma run_batch_money (batch : list Other) (w : World) (id : string) :
  well_keyed (accounts w) ->
  Forall is_deactivation batch ->
  money <$> accounts (after (run_batch batch) w) !! id = money <$> accounts w !! id.
Proof.
  revert w. induction batch as [|o batch IH]; intros w Hwk Hb; [reflexivity|].
  rewrite run_batch_cons. inversion Hb; subst.
  rewrite IH; [|apply other_call_well_keyed, Hwk|assumption].
  apply other_call_money; assumption.
Qed.

(** The same, for the batch that runs before a statement. *)


(** The same, for the batch that runs before a statement. *)

Lemma yield_accounts (w : World) :
  accounts (after yield w) = accounts (after (run_batch (pending 0 w)) w).
Proof. rewrite yield_after. reflexivity. Qed.

Lemma pending_yield (k : nat) (w : World) :
  pending k (after yield w) = pending (S k) w.
Proof.
  unfold pending. destruct (yield_frame w) as (_ & _ & -> & _).
  destruct (others w); reflexivity.
Qed.

Lemma yield_well_keyed (w : World) :
  well_keyed (accounts w) -> well_keyed (accounts (after yield w)).
Proof. rewrite yield_accounts. apply run_batch_well_keyed. Qed.

Lemma yield_untouched (w : World) (id : string) (account : Account.t) :
  well_keyed (accounts w) ->
  Forall (λ o, writes_row id o = false) (pending 0 w) ->
  accounts w !! id = Some account ->
  accounts (after yield w) !! id = Some account.
Proof. rewrite yield_accounts. apply run_batch_untouched. Qed.

Lemma pending_nonneg (w : World) :
  schedule_nonneg (others w) -> Forall other_nonneg (pending 0 w).
Proof.
  unfold schedule_nonneg, pending. intros H.
  destruct (others w) as [|batch rest]; cbn; [constructor|].
  inversion H; assumption.
Qed.

Lemma yield_sound (w : World) : sound w -> sound (after yield w).
Proof.
  intros (Hwk & Hnn & Hs). split; [apply yield_well_keyed, Hwk|]. split.
  - rewrite yield_accounts. apply run_batch_nonneg; auto using pending_nonneg.
  - destruct (yield_frame w) as (_ & _ & -> & _).
    unfold schedule_nonneg in *. destruct (others w); cbn; [constructor|].
    inversion Hs; assumption.
Qed.

Lemma pending_deactivations (w : World) :
  schedule_deactivations (others w) -> Forall is_deactivation (pending 0 w).
Proof.
  unfold schedule_deactivations, pending. intros H.
  destruct (others w) as [|batch rest]; cbn; [constructor|].
  inversion H; assumption.
Qed.

Lemma yield_deactivations (w : World) :
  schedule_deactivations (others w) ->
  schedule_deactivations (others (after yield w)).
Proof.
  intros Hs. destruct (yield_frame w) as (_ & _ & -> & _).
  unfold schedule_deactivations in *. destruct (others w); cbn; [constructor|].
  inversion Hs; assumption.
Qed.

Lemma yield_money (w : World) (id : string) :
  well_keyed (accounts w) ->
  schedule_deactivations (others w) ->
  money <$> accounts (after yield w) !! id = money <$> accounts w !! id.
Proof.
  intros Hwk Hs. rewrite yield_accounts.
  apply run_batch_money; auto using pending_deactivations.
Qed.
(** ** No negative balance *)

Lemma ks_weaken {A} (m : M A) (Q Q' : A -> Prop) :
  keeps_sound m Q -> (∀ a, Q a -> Q' a) -> keeps_sound m Q'.
Proof. intros Hm HQ w Hw. destruct (Hm w Hw) as [Hs Hr]. split; auto. Qed.

Lemma ks_ret {A} (a : A) (Q : A -> Prop) : Q a -> keeps_sound (ret a) Q.
Proof.
  intros HQ w Hw. split; [exact Hw|].
  intros a' H. unfold result, ret in H. cbn in H. congruence.
Qed.

Lemma ks_throw {A} (e : error) (Q : A -> Prop) : keeps_sound (throw e) Q.
Proof. intros w Hw. split; [exact Hw|]. intros a H. discriminate H. Qed.

Lemma ks_panic {A} (Q : A -> Prop) : keeps_sound (@panic A) Q.
Proof. intros w Hw. split; [exact Hw|]. intros a H. discriminate H. Qed.

Lemma ks_bind {A B} (m : M A) (k : A -> M B) (Q : A -> Prop) (Q' : B -> Prop) :
  keeps_sound m Q -> (∀ a, Q a -> keeps_sound (k a) Q') ->
  keeps_sound (bind m k) Q'.
Proof.
  intros Hm Hk w Hw. destruct (Hm w Hw) as [Hs Hr].
  unfold result, after in *. rewrite bind_apply.
  destruct (m w) as [[a|e|] w1]; cbn in *.
  - apply (Hk a); auto.
  - split; [assumption|discriminate].
  - split; [assumption|discriminate].
Qed.

Lemma ks_try {A} (m : M A) (Q : A -> Prop) :
  keeps_sound m Q ->
  keeps_sound (try m) (λ r, match r with inl a => Q a | inr _ => True end).
Proof.
  intros Hm w Hw. destruct (Hm w Hw) as [Hs Hr].
  unfold result, after, try in *.
  destruct (m w) as [[a|e|] w1]; cbn in *; (split; [assumption|]);
    intros r H; try discriminate; injection H as <-; auto.
Qed.

Lemma ks_discard {A} (m : M A) (Q : A -> Prop) :
  keeps_sound m Q -> keeps_sound (discard m) (λ _, True).
Proof.
  intros Hm. unfold discard.
  eapply ks_bind; [apply ks_try, Hm|]. intros r _. apply ks_ret. exact I.
Qed.

(** A computation that leaves the accounts and the schedule alone. *)
Lemma ks_idle {A} (m : M A) :
  (∀ w, accounts (after m w) = accounts w ∧ others (after m w) = others w) ->
  keeps_sound m (λ _, True).
Proof.
  intros H w (Hwk & Hnn & Hs). destruct (H w) as [Ha Ho].
  split; [|auto]. unfold sound. rewrite Ha, Ho. auto.
Qed.

Lemma ks_time_Now : keeps_sound time_Now (λ _, True).
Proof. apply ks_idle. intros w. split; reflexivity. Qed.

Lemma ks_time_Sleep (d : Z) : keeps_sound (time_Sleep d) (λ _, True).
Proof. apply ks_idle. intros w. split; reflexivity. Qed.

Lemma ks_uuid_New : keeps_sound uuid_New (λ _, True).
Proof.
  apply ks_idle. intros w. unfold after, uuid_New.
  destruct (entropy w); split; reflexivity.
Qed.

Lemma ks_log_Printf (l : LogLine) : keeps_sound (log_Printf l) (λ _, True).
Proof. apply ks_idle. intros w. split; reflexivity. Qed.

Lemma ks_record_cas (id : string) (newBalance version : Z) (applied : bool) :
  keeps_sound (record_cas id newBalance version applied) (λ _, True).
Proof. apply ks_idle. intros w. split; reflexivity. Qed.

Lemma ks_on_transactions {A}
    (f : gmap string Transaction.t -> Result A * gmap string Transaction.t) :
  keeps_sound (on_transactions f) (λ _, True).
Proof.
  apply ks_idle. intros w. unfold after, on_transactions.
  destruct (f (transactions w)). split; reflexivity.
Qed.

Lemma ks_Publish (queueName : string) (message : Message) :
  keeps_sound (RabbitMQQueue.Publish queueName message) (λ _, True).
Proof.
  apply ks_idle. intros w. unfold after, RabbitMQQueue.Publish.
  destruct (declare_error (broker w)); [split; reflexivity|].
  destruct (publish_error (broker w)); split; reflexivity.
Qed.

Lemma ks_yield : keeps_sound yield (λ _, True).
Proof. intros w Hw. split; [apply yield_sound, Hw|auto]. Qed.

(** The statements on the accounts table. *)

Lemma ks_on_accounts {A}
    (f : gmap string Account.t -> Result A * gmap string Account.t)
    (Q : A -> Prop) :
  (∀ rows, well_keyed rows -> nonneg rows ->
     well_keyed (f rows).2 ∧ nonneg (f rows).2 ∧
     ∀ a, (f rows).1 = Ok a -> Q a) ->
  keeps_sound (on_accounts f) Q.
Proof.
  intros H w (Hwk & Hnn & Hs). destruct (H _ Hwk Hnn) as (Hwk' & Hnn' & HQ).
  unfold result, after, on_accounts. destruct (f (accounts w)) as [r rows].
  cbn in *. repeat split; assumption.
Qed.

Lemma well_keyed_insert (rows : gmap string Account.t) (id : string)
    (account : Account.t) :
  well_keyed rows -> Account.ID account = id -> well_keyed (<[id := account]> rows).
Proof.
  intros Hwk Hid id' a. rewrite lookup_insert. case_decide.
  - intros [= <-]. congruence.
  - apply Hwk.
Qed.

Lemma nonneg_insert (rows : gmap string Account.t) (id : string)
    (account : Account.t) :
  nonneg rows -> 0 <= Account.Balance account -> nonneg (<[id := account]> rows).
Proof.
  intros Hnn Hb id' a. rewrite lookup_insert. case_decide.
  - intros [= <-]. assumption.
  - apply Hnn.
Qed.

Lemma ks_GetByID_direct (id : string) :
  keeps_sound (AccountRepository.GetByID NewPostgreSQLAccountRepository id)
    (λ account, 0 <= Account.Balance account ∧ Account.ID account = id).
Proof.
  apply ks_on_accounts. intros rows Hwk Hnn.
  unfold PostgreSQLAccountRepository.GetByID.
  destruct (rows !! id) as [a|] eqn:E; cbn.
  - split; [assumption|]. split; [assumption|].
    intros a' [= <-]. split; [eapply Hnn, E|eapply Hwk, E].
  - split; [assumption|]. split; [assumption|]. intros a' H. discriminate H.
Qed.

Lemma ks_UpdateBalance_direct (id : string) (newBalance version : Z) :
  0 <= newBalance ->
  keeps_sound
    (AccountRepository.UpdateBalance NewPostgreSQLAccountRepository id newBalance version)
    (λ _, True).
Proof.
  intros Hb. cbn [AccountRepository.UpdateBalance NewPostgreSQLAccountRepository].
  eapply ks_bind; [apply ks_time_Now|]. intros now _.
  apply ks_on_accounts. intros rows Hwk Hnn.
  unfold PostgreSQLAccountRepository.UpdateBalance.
  destruct (rows !! id) as [a|] eqn:E; cbn; [|auto].
  destruct (decide (Account.Version a = version)); cbn; [|auto].
  split; [|split; [|auto]].
  - apply well_keyed_insert; [assumption|]. cbn. eapply Hwk, E.
  - apply nonneg_insert; assumption.
Qed.

Lemma ks_Update_direct (account : Account.t) :
  0 <= Account.Balance account ->
  keeps_sound (AccountRepository.Update NewPostgreSQLAccountRepository account)
    (λ _, True).
Proof.
  intros Hb. cbn [AccountRepository.Update NewPostgreSQLAccountRepository].
  eapply ks_bind; [apply ks_time_Now|]. intros now _.
  apply ks_on_accounts. intros rows Hwk Hnn.
  unfold PostgreSQLAccountRepository.Update.
  destruct (rows !! Account.ID account) as [a|] eqn:E; cbn; [|auto].
  destruct (decide (Account.Version a = Account.Version account)); cbn; [|auto].
  destruct (decide (map_Exists _ rows)); cbn; [auto|].
  split; [|split; [|auto]].
  - apply well_keyed_insert; [assumption|]. cbn. eapply Hwk, E.
  - apply nonneg_insert; assumption.
Qed.

Lemma ks_Create_direct (account : Account.t) :
  0 <= Account.Balance account ->
  keeps_sound (AccountRepository.Create NewPostgreSQLAccountRepository account)
    (λ _, True).
Proof.
  intros Hb. cbn [AccountRepository.Create NewPostgreSQLAccountRepository].
  eapply ks_bind.
  { destruct (decide (Account.ID account = ""));
      [apply ks_uuid_New|apply (ks_ret _ (λ _, True)); exact I]. }
  intros uuid _.
  eapply ks_bind; [apply ks_time_Now|]. intros now1 _.
  eapply ks_bind; [apply ks_time_Now|]. intros now2 _.
  apply ks_on_accounts. intros rows Hwk Hnn.
  unfold PostgreSQLAccountRepository.Create.
  destruct (decide (PostgreSQLAccountRepository.unique_violation _ rows)); cbn;
    [auto|].
  split; [|split; [|auto]].
  - apply well_keyed_insert; [assumption|]. reflexivity.
  - apply nonneg_insert; assumption.
Qed.

(** The wired repositories. *)

Lemma ks_GetByID (id : string) :
  keeps_sound (AccountRepository.GetByID accountRepo id)
    (λ account, 0 <= Account.Balance account ∧ Account.ID account = id).
Proof.
  unfold accountRepo, shared. cbn [AccountRepository.GetByID].
  eapply ks_bind; [apply ks_yield|]. intros _ _. apply ks_GetByID_direct.
Qed.

Lemma ks_UpdateBalance (id : string) (newBalance version : Z) :
  0 <= newBalance ->
  keeps_sound (AccountRepository.UpdateBalance accountRepo id newBalance version)
    (λ _, True).
Proof.
  intros Hb. unfold accountRepo, shared. cbn [AccountRepository.UpdateBalance].
  eapply ks_bind; [apply ks_yield|]. intros _ _.
  eapply ks_bind; [apply ks_try, ks_UpdateBalance_direct, Hb|].
  intros [a|err] _; [apply ks_record_cas|].
  eapply ks_bind; [apply ks_record_cas|]. intros _ _. apply ks_throw.
Qed.

Lemma ks_Update (account : Account.t) :
  0 <= Account.Balance account ->
  keeps_sound (AccountRepository.Update accountRepo account) (λ _, True).
Proof.
  intros Hb. unfold accountRepo, shared. cbn [AccountRepository.Update].
  eapply ks_bind; [apply ks_yield|]. intros _ _. apply ks_Update_direct, Hb.
Qed.

Lemma ks_Create (account : Account.t) :
  0 <= Account.Balance account ->
  keeps_sound (AccountRepository.Create accountRepo account) (λ _, True).
Proof.
  intros Hb. unfold accountRepo, shared. cbn [AccountRepository.Create].
  eapply ks_bind; [apply ks_yield|]. intros _ _. apply ks_Create_direct, Hb.
Qed.

Lemma ks_UpdateStatus (id : string) (status : TransactionStatus)
    (errorMessage : string) :
  keeps_sound
    (TransactionRepository.UpdateStatus transactionRepo id status errorMessage)
    (λ _, True).
Proof.
  unfold transactionRepo. cbn [TransactionRepository.UpdateStatus
                               NewMongoTransactionRepository].
  eapply ks_bind; [apply ks_time_Now|]. intros now1 _.
  eapply ks_bind.
  { destruct (decide (status = TransactionStatusCompleted));
      [apply ks_time_Now|apply (ks_ret _ (λ _, True)); exact I]. }
  intros now2 _. apply ks_on_transactions.
Qed.

Lemma ks_journal_Create (transaction : Transaction.t) :
  keeps_sound (TransactionRepository.Create transactionRepo transaction) (λ _, True).
Proof.
  unfold transactionRepo. cbn [TransactionRepository.Create
                               NewMongoTransactionRepository].
  eapply ks_bind.
  { destruct (decide (Transaction.ID transaction = ""));
      [apply ks_uuid_New|apply (ks_ret _ (λ _, True)); exact I]. }
  intros uuid _.
  eapply ks_bind; [apply ks_time_Now|]. intros now1 _.
  eapply ks_bind; [apply ks_time_Now|]. intros now2 _.
  apply ks_on_transactions.
Qed.

Lemma ks_journal_GetByID (id : string) :
  keeps_sound (TransactionRepository.GetByID transactionRepo id) (λ _, True).
Proof. apply ks_on_transactions. Qed.

(** The use cases. *)

Lemma IsValid_amount (request : TransactionRequest.t) :
  TransactionRequest.IsValid request = None -> 0 < TransactionRequest.Amount request.
Proof.
  unfold TransactionRequest.IsValid.
  destruct (TransactionRequest.Amount request <=? 0) eqn:E; [discriminate|].
  intros _. apply Z.leb_gt in E. exact E.
Qed.

Lemma ks_deref {A} (p : option A) : keeps_sound (deref p) (λ _, True).
Proof. destruct p; [apply ks_ret; exact I|apply ks_panic]. Qed.

Lemma ks_processDeposit (request : TransactionRequest.t) :
  0 < TransactionRequest.Amount request ->
  keeps_sound (TransactionUseCase.processDeposit transactionService request)
    (λ _, True).
Proof.
  intros Hamount. unfold TransactionUseCase.processDeposit.
  change (TransactionUseCase.accountRepo transactionService) with accountRepo.
  change (TransactionUseCase.transactionRepo transactionService) with transactionRepo.
  eapply ks_bind; [apply ks_deref|]. intros toAccountID _.
  eapply ks_bind; [apply ks_GetByID|]. intros account [Hb _].
  destruct (decide (Account.Status account ≠ "active")); [apply ks_throw|].
  destruct (decide (Account.Currency account ≠ TransactionRequest.Currency request));
    [apply ks_throw|].
  eapply ks_bind; [apply ks_UpdateBalance; lia|]. intros _ _.
  apply ks_UpdateStatus.
Qed.

Lemma ks_processWithdrawal (request : TransactionRequest.t) :
  keeps_sound (TransactionUseCase.processWithdrawal transactionService request)
    (λ _, True).
Proof.
  unfold TransactionUseCase.processWithdrawal.
  change (TransactionUseCase.accountRepo transactionService) with accountRepo.
  change (TransactionUseCase.transactionRepo transactionService) with transactionRepo.
  eapply ks_bind; [apply ks_deref|]. intros fromAccountID _.
  eapply ks_bind; [apply ks_GetByID|]. intros account [Hb _].
  destruct (decide (Account.Status account ≠ "active")); [apply ks_throw|].
  destruct (decide (Account.Currency account ≠ TransactionRequest.Currency request));
    [apply ks_throw|].
  destruct (Account.Balance account <? TransactionRequest.Amount request) eqn:Hlow;
    [apply ks_throw|].
  apply Z.ltb_ge in Hlow.
  eapply ks_bind; [apply ks_UpdateBalance; lia|]. intros _ _.
  apply ks_UpdateStatus.
Qed.

Lemma ks_processTransfer (request : TransactionRequest.t) :
  0 < TransactionRequest.Amount request ->
  keeps_sound (TransactionUseCase.processTransfer transactionService request)
    (λ _, True).
Proof.
  intros Hamount. unfold TransactionUseCase.processTransfer.
  change (TransactionUseCase.accountRepo transactionService) with accountRepo.
  change (TransactionUseCase.transactionRepo transactionService) with transactionRepo.
  eapply ks_bind; [apply ks_deref|]. intros fromAccountID _.
  eapply ks_bind; [apply ks_GetByID|]. intros fromAccount [Hfrom _].
  eapply ks_bind; [apply ks_deref|]. intros toAccountID _.
  eapply ks_bind; [apply ks_GetByID|]. intros toAccount [Hto _].
  destruct (decide (_ ∨ _)); [apply ks_throw|].
  destruct (decide (_ ∨ _)); [apply ks_throw|].
  destruct (Account.Balance fromAccount <? TransactionRequest.Amount request) eqn:Hlow;
    [apply ks_throw|].
  apply Z.ltb_ge in Hlow.
  eapply ks_bind; [apply ks_UpdateBalance; lia|]. intros _ _.
  eapply ks_bind; [apply ks_try, ks_UpdateBalance; lia|].
  intros [a|err] _; [apply ks_UpdateStatus|].
  eapply ks_bind; [eapply ks_discard, ks_UpdateBalance; lia|]. intros _ _.
  apply ks_throw.
Qed.

Lemma ks_ProcessTransactionSync (request : TransactionRequest.t) :
  keeps_sound (TransactionUseCase.ProcessTransactionSync transactionService request)
    (λ _, True).
Proof.
  unfold TransactionUseCase.ProcessTransactionSync.
  destruct (TransactionRequest.IsValid request) eqn:Hvalid; [apply ks_throw|].
  apply IsValid_amount in Hvalid.
  destruct (decide _); [apply ks_processDeposit, Hvalid|].
  destruct (decide _); [apply ks_processWithdrawal|].
  destruct (decide _); [apply ks_processTransfer, Hvalid|apply ks_throw].
Qed.

Lemma ks_handler (msg : Message) :
  keeps_sound (TransactionUseCase.handler transactionService msg) (λ _, True).
Proof.
  unfold TransactionUseCase.handler.
  change (TransactionUseCase.transactionRepo transactionService) with transactionRepo.
  eapply ks_bind.
  { apply ks_try. destruct msg; [apply ks_throw|apply (ks_ret _ (λ _, True)); exact I]. }
  intros [request|err] _.
  - eapply ks_bind; [apply ks_log_Printf|]. intros _ _.
    eapply ks_bind; [apply ks_try, ks_ProcessTransactionSync|].
    intros [a|err] _; [apply ks_log_Printf|].
    eapply ks_bind; [apply ks_log_Printf|]. intros _ _.
    eapply ks_bind; [eapply ks_discard, ks_UpdateStatus|]. intros _ _.
    apply ks_throw.
  - eapply ks_bind; [apply ks_log_Printf|]. intros _ _. apply ks_throw.
Qed.

Lemma ks_retry_loop (handler : Message -> M unit) (msg : Message) :
  (∀ m, keeps_sound (handler m) (λ _, True)) ->
  ∀ remaining attempt lastErr,
    keeps_sound (RabbitMQQueue.retry_loop remaining attempt lastErr msg handler)
      (λ _, True).
Proof.
  intros Hh remaining. induction remaining as [|n IH]; intros attempt lastErr; cbn.
  - apply ks_throw.
  - eapply ks_bind; [apply ks_try, Hh|].
    intros [a|err] _; [apply ks_ret; exact I|].
    eapply ks_bind; [apply ks_log_Printf|]. intros _ _.
    eapply ks_bind; [|intros _ _; apply IH].
    destruct (attempt <? RabbitMQQueue.maxRetries);
      [apply ks_time_Sleep|apply (ks_ret _ (λ _, True)); exact I].
Qed.

Lemma ks_deliver (handler : Message -> M unit) (msg : Message) :
  (∀ m, keeps_sound (handler m) (λ _, True)) ->
  keeps_sound (RabbitMQQueue.deliver handler msg) (λ _, True).
Proof.
  intros Hh. unfold RabbitMQQueue.deliver, RabbitMQQueue.processMessageWithRetry.
  eapply ks_bind; [apply ks_try, ks_retry_loop, Hh|].
  intros [a|err] _; [apply ks_ret; exact I|].
  eapply ks_bind; [apply ks_log_Printf|]. intros _ _. apply ks_ret. exact I.
Qed.

Lemma ks_Subscribe (handler : Message -> M unit) (msgs : list Message) :
  (∀ m, keeps_sound (handler m) (λ _, True)) ->
  keeps_sound (RabbitMQQueue.Subscribe handler msgs) (λ _, True).
Proof.
  intros Hh. induction msgs as [|msg msgs IH]; cbn.
  - apply ks_ret. exact I.
  - eapply ks_bind; [apply ks_deliver, Hh|]. intros d _.
    eapply ks_bind; [apply IH|]. intros ds _. apply ks_ret. exact I.
Qed.

Lemma ks_CreateAccount (userID : string) (initialBalance : Z) (currency : string) :
  keeps_sound (AccountUseCase.CreateAccount accountService userID initialBalance currency)
    (λ _, True).
Proof.
  unfold AccountUseCase.CreateAccount.
  change (AccountUseCase.accountRepo accountService) with accountRepo.
  destruct (initialBalance <? 0) eqn:Hneg; [apply ks_throw|].
  apply Z.ltb_ge in Hneg.
  destruct (decide (currency = "")); [apply ks_throw|].
  eapply ks_bind; [apply ks_uuid_New|]. intros id _.
  eapply ks_bind; [apply ks_time_Now|]. intros now1 _.
  eapply ks_bind; [apply ks_time_Now|]. intros now2 _.
  apply ks_Create. exact Hneg.
Qed.

Lemma ks_DeactivateAccount (id : string) :
  keeps_sound (AccountUseCase.DeactivateAccount accountService id) (λ _, True).
Proof.
  unfold AccountUseCase.DeactivateAccount.
  change (AccountUseCase.accountRepo accountService) with accountRepo.
  eapply ks_bind; [apply ks_GetByID|]. intros account [Hb _].
  eapply ks_bind; [apply ks_time_Now|]. intros now _.
  apply ks_Update. exact Hb.
Qed.

Lemma ks_ProcessTransaction (request : TransactionRequest.t) :
  keeps_sound (TransactionUseCase.ProcessTransaction transactionService request)
    (λ _, True).
Proof.
  unfold TransactionUseCase.ProcessTransaction.
  change (TransactionUseCase.transactionRepo transactionService) with transactionRepo.
  destruct (TransactionRequest.IsValid request); [apply ks_throw|].
  eapply ks_bind.
  { destruct (decide _); [apply ks_uuid_New|apply (ks_ret _ (λ _, True)); exact I]. }
  intros id _.
  eapply ks_bind; [apply ks_time_Now|]. intros now1 _.
  eapply ks_bind; [apply ks_time_Now|]. intros now2 _.
  eapply ks_bind; [apply ks_try, ks_journal_Create|].
  intros [transaction|err] _; [|apply ks_throw].
  eapply ks_bind; [apply ks_try, (ks_ret _ (λ _, True)); exact I|].
  intros [requestBytes|err] _; [|apply ks_throw].
  eapply ks_bind; [apply ks_try, ks_Publish|].
  intros [a|err] _; [apply ks_ret; exact I|].
  eapply ks_bind; [eapply ks_discard, ks_UpdateStatus|]. intros _ _.
  apply ks_throw.
Qed.

Lemma ks_CancelTransaction (id : string) :
  keeps_sound (TransactionUseCase.CancelTransaction transactionService id)
    (λ _, True).
Proof.
  unfold TransactionUseCase.CancelTransaction.
  change (TransactionUseCase.transactionRepo transactionService) with transactionRepo.
  eapply ks_bind; [apply ks_journal_GetByID|]. intros transaction _.
  destruct (decide _); [apply ks_throw|apply ks_UpdateStatus].
Qed.

Lemma ks_perform (a : Action) : keeps_sound (perform a) (λ _, True).
Proof.
  destruct a; cbn [perform]; eapply ks_discard.
  - apply ks_CreateAccount.
  - apply ks_DeactivateAccount.
  - apply ks_ProcessTransaction.
  - apply ks_CancelTransaction.
  - apply ks_Subscribe, ks_handler.
Qed.

Lemma ks_perform_all (actions : list Action) :
  keeps_sound (perform_all actions) (λ _, True).
Proof.
  induction actions as [|a actions IH]; cbn.
  - apply ks_ret. exact I.
  - eapply ks_bind; [apply ks_perform|]. intros _ _. exact IH.
Qed.

(** C4: from a world whose accounts table has no negative balance (and
    is keyed by account id), whatever account creations, deactivations,
    submissions, cancellations and deliveries of deposit, withdrawal and
    transfer messages follow, and whatever the other clients of the table
    do meanwhile with non-negative balances, every balance stays
    non-negative. *)
Theorem balances_never_negative (w : World) (actions : list Action) :
  well_keyed (accounts w) ->
  nonneg (accounts w) ->
  schedule_nonneg (others w) ->
  ∀ id account,
    accounts (after (perform_all actions) w) !! id = Some account ->
    0 <= Account.Balance account.
Proof.
  intros Hwk Hnn Hs.
  destruct (ks_perform_all actions w) as [(_ & Hnn' & _) _].
  { repeat split; assumption. }
  exact Hnn'.
Qed.
(** ** Transfers *)

Lemma processTransfer_run (request : TransactionRequest.t)
    (fromID toID : string) (w0 : World) :
  TransactionRequest.FromAccountID request = Some fromID ->
  TransactionRequest.ToAccountID request = Some toID ->
  TransactionUseCase.processTransfer transactionService request w0
  = transfer_outcome request fromID toID w0.
Proof.
  intros Hfrom Hto.
  unfold TransactionUseCase.processTransfer, transfer_outcome.
  change (TransactionUseCase.accountRepo transactionService) with accountRepo.
  change (TransactionUseCase.transactionRepo transactionService) with transactionRepo.
  rewrite Hfrom, Hto. unfold deref, discard.
  rewrite !bind_apply. unfold ret at 1. cbn beta iota zeta.
  rewrite bind_apply, GetByID_shared.
  destruct (accounts (after yield w0) !! fromID) as [fromAccount|]; [|reflexivity].
  rewrite bind_apply. unfold ret at 1. cbn beta iota.
  rewrite bind_apply, GetByID_shared.
  destruct (accounts (after yield (after yield w0)) !! toID) as [toAccount|];
    [|reflexivity].
  destruct (decide (_ ∨ _)); [reflexivity|].
  destruct (decide (_ ∨ _)); [reflexivity|].
  destruct (_ <? _); [reflexivity|].
  rewrite bind_apply, UpdateBalance_shared.
  destruct (cas_hits _ _ _); [|reflexivity].
  cbn beta iota. unfold try. rewrite bind_apply, UpdateBalance_shared.
  destruct (cas_hits _ _ _); cbn beta iota.
  - rewrite UpdateStatus_wired. reflexivity.
  - rewrite !bind_apply, UpdateBalance_shared.
    destruct (cas_hits _ _ _); reflexivity.
Qed.

Lemma ProcessTransactionSync_transfer (request : TransactionRequest.t)
    (fromID toID : string) (w0 : World) :
  TransactionRequest.IsValid request = None ->
  TransactionRequest.Type_ request = TransactionTypeTransfer ->
  TransactionRequest.FromAccountID request = Some fromID ->
  TransactionRequest.ToAccountID request = Some toID ->
  TransactionUseCase.ProcessTransactionSync transactionService request w0
  = transfer_outcome request fromID toID w0.
Proof.
  intros Hvalid Hty Hfrom Hto.
  unfold TransactionUseCase.ProcessTransactionSync. rewrite Hvalid, Hty.
  destruct (decide (TransactionTypeTransfer = TransactionTypeDeposit));
    [discriminate|].
  destruct (decide (TransactionTypeTransfer = TransactionTypeWithdrawal));
    [discriminate|].
  destruct (decide (TransactionTypeTransfer = TransactionTypeTransfer));
    [|congruence].
  apply processTransfer_run; assumption.
Qed.

(** What a statement of this process leaves alone. *)

Lemma yield_transactions (w : World) : transactions (after yield w) = transactions w.
Proof. apply yield_frame. Qed.

Lemma yield_logs (w : World) : logs (after yield w) = logs w.
Proof. apply yield_frame. Qed.

Lemma yield_audit (w : World) : audit (after yield w) = audit w.
Proof. apply yield_frame. Qed.

Lemma cas_world_others (id : string) (newBalance version : Z) (w1 : World) :
  others (cas_world id newBalance version w1) = others w1.
Proof.
  unfold cas_world. destruct (accounts w1 !! id) as [stored|]; [|reflexivity].
  destruct (decide _); reflexivity.
Qed.

Lemma cas_world_transactions (id : string) (newBalance version : Z) (w1 : World) :
  transactions (cas_world id newBalance version w1) = transactions w1.
Proof.
  unfold cas_world. destruct (accounts w1 !! id) as [stored|]; [|reflexivity].
  destruct (decide _); reflexivity.
Qed.

Lemma cas_world_logs (id : string) (newBalance version : Z) (w1 : World) :
  logs (cas_world id newBalance version w1) = logs w1.
Proof.
  unfold cas_world. destruct (accounts w1 !! id) as [stored|]; [|reflexivity].
  destruct (decide _); reflexivity.
Qed.

Lemma cas_world_audit (id : string) (newBalance version : Z) (w1 : World) :
  audit (cas_world id newBalance version w1)
  = (audit w1 ++ [mkCas id newBalance version (cas_hits id version w1)])%list.
Proof.
  unfold cas_world, cas_hits. destruct (accounts w1 !! id) as [stored|]; [|reflexivity].
  destruct (decide (Account.Version stored = version)).
  - rewrite bool_decide_eq_true_2 by assumption. reflexivity.
  - rewrite bool_decide_eq_false_2 by assumption. reflexivity.
Qed.

Lemma cas_world_pending (k : nat) (id : string) (newBalance version : Z) (w1 : World) :
  pending k (cas_world id newBalance version w1) = pending k w1.
Proof. unfold pending. rewrite cas_world_others. reflexivity. Qed.

Lemma cas_world_hit (id : string) (newBalance version : Z) (w1 : World) :
  cas_hits id version w1 = true ->
  ∃ stored,
    accounts w1 !! id = Some stored ∧ Account.Version stored = version ∧
    accounts (cas_world id newBalance version w1)
    = <[id := cas_row stored newBalance (clock w1)]> (accounts w1).
Proof.
  unfold cas_hits, cas_world.
  destruct (accounts w1 !! id) as [stored|]; [|discriminate].
  intros H. apply bool_decide_eq_true_1 in H.
  exists stored. destruct (decide _); [|contradiction]. auto.
Qed.

Lemma cas_world_miss (id : string) (newBalance version : Z) (w1 : World) :
  cas_hits id version w1 = false ->
  accounts (cas_world id newBalance version w1) = accounts w1.
Proof.
  unfold cas_hits, cas_world.
  destruct (accounts w1 !! id) as [stored|]; [|reflexivity].
  intros H. apply bool_decide_eq_false_1 in H.
  destruct (decide _); [contradiction|reflexivity].
Qed.

Lemma cas_world_well_keyed (id : string) (newBalance version : Z) (w1 : World) :
  well_keyed (accounts w1) ->
  well_keyed (accounts (cas_world id newBalance version w1)).
Proof.
  intros Hwk. destruct (cas_hits id version w1) eqn:Hhit.
  - destruct (cas_world_hit id newBalance version w1 Hhit) as (stored & Hrow & _ & ->).
    apply well_keyed_insert; [assumption|]. cbn. eapply Hwk, Hrow.
  - rewrite cas_world_miss by assumption. assumption.
Qed.

Lemma app_suffix_nil {A} (l r : list A) : l = (l ++ r)%list -> r = [].
Proof.
  intros H. apply (app_inv_head l). rewrite app_nil_r. symmetry. exact H.
Qed.

Lemma failed_world_audit (id : string) (err : error) (w1 : World) :
  audit (failed_world id err w1) = audit w1.
Proof. apply failed_world_frame. Qed.

Lemma failed_world_accounts (id : string) (err : error) (w1 : World) :
  accounts (failed_world id err w1) = accounts w1.
Proof. apply failed_world_frame. Qed.

Lemma failed_world_others (id : string) (err : error) (w1 : World) :
  others (failed_world id err w1) = others w1.
Proof. apply failed_world_frame. Qed.

Lemma status_world_audit (id : string) (status : TransactionStatus)
    (errorMessage : string) (w : World) :
  audit (status_world id status errorMessage w) = audit w.
Proof. apply status_world_frame. Qed.

Lemma status_world_accounts (id : string) (status : TransactionStatus)
    (errorMessage : string) (w : World) :
  accounts (status_world id status errorMessage w) = accounts w.
Proof. apply status_world_frame. Qed.

Lemma status_world_others (id : string) (status : TransactionStatus)
    (errorMessage : string) (w : World) :
  others (status_world id status errorMessage w) = others w.
Proof. apply status_world_frame. Qed.
(** ** Compensation of a half-applied transfer *)

Ltac no_cas Haudit :=
  exfalso; cbn [fst snd] in Haudit;
  rewrite failed_world_audit, ?yield_audit in Haudit;
  repeat match goal with
         | Ha : audit _ = audit _ |- _ => progress rewrite Ha in Haudit
         end;
  apply app_suffix_nil in Haudit; discriminate.

(** C3 (as amended): when the debit of a transfer is applied and the
    credit is refused, the compensation is a single [UpdateBalance] on
    the source that writes back the balance read before the debit and
    expects the version read before the debit plus one; no read precedes
    it.  If no other client has written the source row since the debit,
    this statement is applied: the source has its pre-debit balance again
    (1000 after a transfer of 150 from 1000), its version has advanced by
    two, the handler fails with ErrConcurrentUpdate and the journal
    document is marked failed. *)
Theorem transfer_compensation
    (w : World) (request : TransactionRequest.t) (fromID toID : string)
    (debit credit : CasRecord) (rest : list CasRecord) :
  TransactionRequest.IsValid request = None ->
  TransactionRequest.Type_ request = TransactionTypeTransfer ->
  TransactionRequest.FromAccountID request = Some fromID ->
  TransactionRequest.ToAccountID request = Some toID ->
  well_keyed (accounts w) ->
  let run := TransactionUseCase.handler transactionService (Encoded request) in
  audit (after run w) = (audit w ++ debit :: credit :: rest)%list ->
  cas_applied debit = true ->
  cas_applied credit = false ->
  Forall (λ o, writes_row fromID o = false) (pending 3 w ++ pending 4 w) ->
  ∃ fromAccount final,
    accounts (after yield w) !! fromID = Some fromAccount ∧
    debit = mkCas fromID
              (Account.Balance fromAccount - TransactionRequest.Amount request)
              (Account.Version fromAccount) true ∧
    rest = [mkCas fromID (Account.Balance fromAccount)
              (Account.Version fromAccount + 1) true] ∧
    accounts (after run w) !! fromID = Some final ∧
    Account.Balance final = Account.Balance fromAccount ∧
    Account.Version final = Account.Version fromAccount + 2 ∧
    result run w = Fail ErrConcurrentUpdate ∧
    (is_Some (transactions w !! TransactionRequest.ID request) ->
     ∃ marked,
       transactions (after run w) !! TransactionRequest.ID request = Some marked ∧
       Transaction.Status marked = TransactionStatusFailed ∧
       Transaction.ErrorMessage marked = "concurrent update detected").
Proof.
  intros Hvalid Hty Hfrom Hto Hwk run Haudit Hdebit Hcredit Hquiet.
  apply Forall_app in Hquiet. destruct Hquiet as [Hquiet3 Hquiet4].
  set (id := TransactionRequest.ID request) in *.
  set (w0 := set_logs (logs w ++ [LogProcessing id]) w).
  assert (Hrun : run w =
    match transfer_outcome request fromID toID w0 with
    | (Ok _, w1) => (Ok tt, set_logs (logs w1 ++ [LogProcessed id]) w1)
    | (Fail err, w1) => (Fail err, failed_world id err w1)
    | (Panic, w1) => (Panic, w1)
    end).
  { subst run. rewrite handler_run. cbn zeta. fold id w0.
    rewrite (ProcessTransactionSync_transfer request fromID toID w0) by assumption.
    reflexivity. }
  change (after run w) with ((run w).2) in *.
  change (result run w) with ((run w).1).
  rewrite Hrun in *. clear Hrun.
  unfold transfer_outcome in *. cbn zeta in *.
  set (w1 := after yield w0) in *.
  assert (Hw1 : accounts w1 = accounts (after yield w)).
  { subst w1 w0. rewrite yield_set_logs. reflexivity. }
  assert (Hwk1 : well_keyed (accounts w1)).
  { rewrite Hw1. apply yield_well_keyed, Hwk. }
  assert (Ha1 : audit w1 = audit w).
  { subst w1 w0. rewrite yield_audit. reflexivity. }
  assert (Hp1 : ∀ k, pending k w1 = pending (S k) w).
  { intros k. subst w1. rewrite pending_yield. reflexivity. }
  assert (Ht1 : transactions w1 = transactions w).
  { subst w1 w0. rewrite yield_transactions. reflexivity. }
  rewrite <- Hw1.
  destruct (accounts w1 !! fromID) as [fromAccount|] eqn:Hrow1; [|no_cas Haudit].
  assert (HfromID : Account.ID fromAccount = fromID) by (eapply Hwk1, Hrow1).
  rewrite HfromID in *.
  set (w2 := after yield w1) in *.
  assert (Ha2 : audit w2 = audit w1) by (subst w2; apply yield_audit).
  destruct (accounts w2 !! toID) as [toAccount|] eqn:Hrow2; [|no_cas Haudit].
  destruct (decide (_ ∨ _)); [no_cas Haudit|].
  destruct (decide (_ ∨ _)); [no_cas Haudit|].
  destruct (_ <? _); [no_cas Haudit|].
  set (y3 := after yield w2) in *.
  assert (Hwk3 : well_keyed (accounts y3)).
  { subst y3 w2. auto using yield_well_keyed. }
  destruct (cas_hits fromID (Account.Version fromAccount) y3) eqn:Hhit3.
  2: { exfalso. cbn [fst snd] in Haudit.
       rewrite failed_world_audit, cas_world_audit in Haudit.
       subst y3 w2. rewrite !yield_audit, Ha1 in Haudit.
       apply app_inv_head in Haudit. discriminate. }
  set (amount := TransactionRequest.Amount request) in *.
  set (w3 := cas_world fromID (Account.Balance fromAccount - amount)
               (Account.Version fromAccount) y3) in *.
  destruct (cas_world_hit fromID (Account.Balance fromAccount - amount)
              (Account.Version fromAccount) y3 Hhit3)
    as (stored & Hstored & Hversion & Hacc3).
  fold w3 in Hacc3.
  assert (Ha3 : audit w3
            = (audit w ++ [mkCas fromID (Account.Balance fromAccount - amount)
                             (Account.Version fromAccount) true])%list).
  { subst w3. rewrite cas_world_audit, Hhit3. subst y3 w2.
    rewrite !yield_audit, Ha1. reflexivity. }
  assert (Hwk3' : well_keyed (accounts w3)).
  { subst w3. apply cas_world_well_keyed, Hwk3. }
  set (y4 := after yield w3) in *.
  destruct (cas_hits (Account.ID toAccount) (Account.Version toAccount) y4) eqn:Hhit4.
  { exfalso. revert Haudit.
    destruct (transactions _ !! _); cbn [fst snd];
      rewrite ?failed_world_audit, ?status_world_audit; cbn [audit set_logs];
      rewrite ?status_world_audit, cas_world_audit, Hhit4;
      subst y4; rewrite yield_audit, Ha3, <- app_assoc; cbn [app];
      intros Haudit; apply app_inv_head in Haudit;
      injection Haudit as _ <- _; discriminate. }
  set (w4 := cas_world (Account.ID toAccount) (Account.Balance toAccount + amount)
               (Account.Version toAccount) y4) in *.
  set (y5 := after yield w4) in *.
  (* the source row, from the debit to the compensation *)
  assert (Hsrc3 : accounts w3 !! fromID
            = Some (cas_row stored (Account.Balance fromAccount - amount) (clock y3))).
  { rewrite Hacc3. apply lookup_insert_eq. }
  assert (Hsrc4 : accounts y4 !! fromID
            = Some (cas_row stored (Account.Balance fromAccount - amount) (clock y3))).
  { subst y4. apply yield_untouched; [assumption| |assumption].
    subst w3. rewrite cas_world_pending. subst y3 w2.
    rewrite !pending_yield, Hp1. exact Hquiet3. }
  assert (Hsrc5 : accounts y5 !! fromID
            = Some (cas_row stored (Account.Balance fromAccount - amount) (clock y3))).
  { subst y5. apply yield_untouched.
    - subst w4. apply cas_world_well_keyed. subst y4. apply yield_well_keyed, Hwk3'.
    - subst w4. rewrite cas_world_pending. subst y4. rewrite pending_yield.
      subst w3. rewrite cas_world_pending. subst y3 w2.
      rewrite !pending_yield, Hp1. exact Hquiet4.
    - subst w4. rewrite cas_world_miss by assumption. exact Hsrc4. }
  assert (Hhit5 : cas_hits fromID (Account.Version fromAccount + 1) y5 = true).
  { unfold cas_hits. rewrite Hsrc5. cbn. rewrite Hversion.
    apply bool_decide_eq_true_2. reflexivity. }
  destruct (cas_world_hit fromID (Account.Balance fromAccount)
              (Account.Version fromAccount + 1) y5 Hhit5)
    as (stored5 & Hstored5 & _ & Hacc5).
  rewrite Hsrc5 in Hstored5. injection Hstored5 as <-.
  cbn [fst snd] in *.
  rewrite failed_world_audit, cas_world_audit, Hhit5 in Haudit.
  subst y5. rewrite yield_audit in Haudit. subst w4.
  rewrite cas_world_audit, Hhit4 in Haudit. subst y4.
  rewrite yield_audit, Ha3, <- !app_assoc in Haudit. cbn [app] in Haudit.
  apply app_inv_head in Haudit. injection Haudit as <- <- <-.
  exists fromAccount.
  eexists. split; [reflexivity|]. split; [reflexivity|]. split; [reflexivity|].
  split.
  { rewrite failed_world_accounts, Hacc5. apply lookup_insert_eq. }
  split; [reflexivity|]. split; [cbn; lia|]. split; [reflexivity|].
  intros Hdoc. apply failed_world_marks. subst w3 y3 w2.
  repeat rewrite ?cas_world_transactions, ?yield_transactions.
  rewrite Ht1. exact Hdoc.
Qed.
(** ** Conservation *)

Lemma total_insert (c : string) (rows : gmap string Account.t) (id : string)
    (stored account : Account.t) :
  rows !! id = Some stored ->
  total c (<[id := account]> rows) = total c rows - worth c stored + worth c account.
Proof.
  intros Hrow. unfold total.
  assert (Hcomm : ∀ (m : gmap string Account.t) (j1 j2 : string) (z1 z2 : Account.t) (y : Z),
             j1 ≠ j2 -> m !! j1 = Some z1 -> m !! j2 = Some z2 ->
             worth c z1 + (worth c z2 + y) = worth c z2 + (worth c z1 + y))
    by (intros; lia).
  rewrite <- (insert_delete_eq rows id account).
  rewrite map_fold_insert_L; [|apply Hcomm|apply lookup_delete_eq].
  rewrite <- (insert_delete_id rows id stored Hrow) at 2.
  rewrite map_fold_insert_L; [|apply Hcomm|apply lookup_delete_eq].
  lia.
Qed.

Lemma total_money (c : string) (rows rows' : gmap string Account.t) :
  (∀ id, money <$> rows' !! id = money <$> rows !! id) ->
  total c rows' = total c rows.
Proof.
  intros H.
  assert (Hfold : ∀ m : gmap string Account.t,
    total c m
    = map_fold (λ _ (p : Z * string) sum,
                  (if decide (p.2 = c) then p.1 else 0) + sum) 0 (money <$> m)).
  { intros m. unfold total. rewrite map_fold_fmap. reflexivity. }
  rewrite !Hfold. f_equal. apply map_eq. intros id.
  rewrite !lookup_fmap. apply H.
Qed.

Lemma total_yield (c : string) (w : World) :
  well_keyed (accounts w) -> schedule_deactivations (others w) ->
  total c (accounts (after yield w)) = total c (accounts w).
Proof. intros Hwk Hs. apply total_money. intros id. apply yield_money; assumption. Qed.

Lemma worth_cas_row (c : string) (stored : Account.t) (newBalance now : Z) :
  worth c (cas_row stored newBalance now)
  = if decide (Account.Currency stored = c) then newBalance else 0.
Proof. reflexivity. Qed.

Lemma settled_refused (r : CasRecord) (records : list CasRecord) :
  cas_applied r = false ->
  settled ([r] ++ records) = settled [r] && settled records.
Proof. intros H. cbn. rewrite H. reflexivity. Qed.

Lemma settled_completed (d c : CasRecord) (records : list CasRecord) :
  cas_applied d = true -> cas_applied c = true ->
  settled ([d; c] ++ records) = settled [d; c] && settled records.
Proof. intros Hd Hc. cbn. rewrite Hd, Hc. reflexivity. Qed.

Lemma settled_compensated (d c r : CasRecord) (records : list CasRecord) :
  cas_applied d = true -> cas_applied c = false ->
  settled ([d; c; r] ++ records) = settled [d; c; r] && settled records.
Proof.
  intros Hd Hc. cbn. rewrite Hd, Hc.
  destruct (cas_applied r); reflexivity.
Qed.

(** The conclusion of [conserving], for a run from [w] to [wf]. *)
Lemma conserved_quiet (w wf : World) :
  well_keyed (accounts wf) ->
  schedule_deactivations (others wf) ->
  audit wf = audit w ->
  (∀ c, total c (accounts wf) = total c (accounts w)) ->
  well_keyed (accounts wf) ∧
  schedule_deactivations (others wf) ∧
  ∃ group,
    audit wf = (audit w ++ group)%list ∧
    (∀ records, settled (group ++ records) = settled group && settled records) ∧
    (settled group = true -> ∀ c, total c (accounts wf) = total c (accounts w)).
Proof.
  intros Hwk Hs Ha HT. split; [assumption|]. split; [assumption|].
  exists []. rewrite app_nil_r. split; [assumption|]. split; [reflexivity|auto].
Qed.

Lemma transfer_outcome_conserving
    (request : TransactionRequest.t) (fromID toID : string) (w0 : World) :
  fromID ≠ toID ->
  well_keyed (accounts w0) -> schedule_deactivations (others w0) ->
  let wf := (transfer_outcome request fromID toID w0).2 in
  well_keyed (accounts wf) ∧
  schedule_deactivations (others wf) ∧
  ∃ group,
    audit wf = (audit w0 ++ group)%list ∧
    (∀ records, settled (group ++ records) = settled group && settled records) ∧
    (settled group = true -> ∀ c, total c (accounts wf) = total c (accounts w0)).
Proof.
  intros Hne Hwk0 Hs0. unfold transfer_outcome. cbn zeta.
  set (amount := TransactionRequest.Amount request).
  set (w1 := after yield w0).
  assert (Hwk1 : well_keyed (accounts w1)) by (apply yield_well_keyed, Hwk0).
  assert (Hs1 : schedule_deactivations (others w1)) by (apply yield_deactivations, Hs0).
  assert (Ha1 : audit w1 = audit w0) by apply yield_audit.
  assert (HT1 : ∀ c, total c (accounts w1) = total c (accounts w0))
    by (intros c; apply total_yield; assumption).
  destruct (accounts w1 !! fromID) as [fromAccount|] eqn:Hrow1;
    [|apply conserved_quiet; assumption].
  assert (HfromID : Account.ID fromAccount = fromID) by (eapply Hwk1, Hrow1).
  rewrite HfromID.
  set (w2 := after yield w1).
  assert (Hwk2 : well_keyed (accounts w2)) by (apply yield_well_keyed, Hwk1).
  assert (Hs2 : schedule_deactivations (others w2)) by (apply yield_deactivations, Hs1).
  assert (Ha2 : audit w2 = audit w0) by (subst w2; rewrite yield_audit; exact Ha1).
  assert (HT2 : ∀ c, total c (accounts w2) = total c (accounts w0)).
  { intros c. subst w2. rewrite total_yield by assumption. apply HT1. }
  destruct (accounts w2 !! toID) as [toAccount|] eqn:Hrow2;
    [|apply conserved_quiet; assumption].
  assert (HtoID : Account.ID toAccount = toID) by (eapply Hwk2, Hrow2).
  rewrite HtoID.
  destruct (decide (_ ∨ _)) as [|Hactive]; [apply conserved_quiet; assumption|].
  destruct (decide (_ ∨ _)) as [|Hcur]; [apply conserved_quiet; assumption|].
  destruct (_ <? _); [apply conserved_quiet; assumption|].
  assert (Hcur_from : Account.Currency fromAccount = TransactionRequest.Currency request).
  { destruct (decide (Account.Currency fromAccount = TransactionRequest.Currency request));
      [assumption|]. exfalso. apply Hcur. left. assumption. }
  assert (Hcur_to : Account.Currency toAccount = TransactionRequest.Currency request).
  { destruct (decide (Account.Currency toAccount = TransactionRequest.Currency request));
      [assumption|]. exfalso. apply Hcur. right. assumption. }
  set (y3 := after yield w2).
  assert (Hwk3 : well_keyed (accounts y3)) by (apply yield_well_keyed, Hwk2).
  assert (Hs3 : schedule_deactivations (others y3)) by (apply yield_deactivations, Hs2).
  assert (Hay3 : audit y3 = audit w0) by (subst y3; rewrite yield_audit; exact Ha2).
  assert (HTy3 : ∀ c, total c (accounts y3) = total c (accounts w0)).
  { intros c. subst y3. rewrite total_yield by assumption. apply HT2. }
  set (w3 := cas_world fromID (Account.Balance fromAccount - amount)
               (Account.Version fromAccount) y3).
  assert (Hwk3' : well_keyed (accounts w3)) by (apply cas_world_well_keyed, Hwk3).
  assert (Hs3' : schedule_deactivations (others w3))
    by (subst w3; rewrite cas_world_others; exact Hs3).
  destruct (cas_hits fromID (Account.Version fromAccount) y3) eqn:Hhit3.
  2: { (* the debit is refused *)
       cbn [snd]. split; [assumption|]. split; [assumption|].
       eexists. split.
       { subst w3. rewrite cas_world_audit, Hhit3, Hay3. reflexivity. }
       split; [intros records; apply settled_refused; reflexivity|].
       intros _ c. subst w3. rewrite cas_world_miss by assumption. apply HTy3. }
  destruct (cas_world_hit fromID (Account.Balance fromAccount - amount)
              (Account.Version fromAccount) y3 Hhit3)
    as (stored3 & Hstored3 & _ & Hacc3).
  fold w3 in Hacc3.
  assert (Hmoney3 : money stored3 = money fromAccount).
  { pose proof (yield_money w2 fromID Hwk2 Hs2) as H2.
    pose proof (yield_money w1 fromID Hwk1 Hs1) as H1.
    fold y3 in H2. fold w2 in H1. rewrite H1, Hstored3, Hrow1 in H2.
    cbn in H2. congruence. }
  assert (Ha3 : audit w3
            = (audit w0 ++ [mkCas fromID (Account.Balance fromAccount - amount)
                              (Account.Version fromAccount) true])%list).
  { subst w3. rewrite cas_world_audit, Hhit3, Hay3. reflexivity. }
  assert (HT3 : ∀ c, total c (accounts w3)
                     = total c (accounts w0)
                       - (if decide (TransactionRequest.Currency request = c)
                          then amount else 0)).
  { intros c. rewrite Hacc3, (total_insert c _ _ stored3) by assumption.
    rewrite worth_cas_row, HTy3. unfold worth.
    injection Hmoney3 as Hb Hc. rewrite Hc, Hb, Hcur_from.
    destruct (decide _); lia. }
  set (y4 := after yield w3).
  assert (Hwk4 : well_keyed (accounts y4)) by (apply yield_well_keyed, Hwk3').
  assert (Hs4 : schedule_deactivations (others y4)) by (apply yield_deactivations, Hs3').
  assert (Hay4 : audit y4 = audit w3) by apply yield_audit.
  assert (HTy4 : ∀ c, total c (accounts y4) = total c (accounts w3))
    by (intros c; apply total_yield; assumption).
  set (w4 := cas_world toID (Account.Balance toAccount + amount)
               (Account.Version toAccount) y4).
  assert (Hwk4' : well_keyed (accounts w4)) by (apply cas_world_well_keyed, Hwk4).
  assert (Hs4' : schedule_deactivations (others w4))
    by (subst w4; rewrite cas_world_others; exact Hs4).
  destruct (cas_hits toID (Account.Version toAccount) y4) eqn:Hhit4.
  { (* completed *)
    destruct (cas_world_hit toID (Account.Balance toAccount + amount)
                (Account.Version toAccount) y4 Hhit4)
      as (stored4 & Hstored4 & _ & Hacc4).
    fold w4 in Hacc4.
    assert (Hmoney4 : money stored4 = money toAccount).
    { pose proof (yield_money w3 toID Hwk3' Hs3') as H4.
      pose proof (yield_money w2 toID Hwk2 Hs2) as H3.
      fold y4 in H4. fold y3 in H3.
      rewrite Hacc3, lookup_insert_ne, H3, Hstored4, Hrow2 in H4 by assumption.
      cbn in H4. congruence. }
    cbn [snd]. rewrite status_world_accounts, status_world_others, status_world_audit.
    split; [assumption|]. split; [assumption|].
    eexists. split.
    { subst w4. rewrite cas_world_audit, Hhit4, Hay4, Ha3, <- app_assoc.
      reflexivity. }
    split; [intros records; apply settled_completed; reflexivity|].
    intros _ c. rewrite Hacc4, (total_insert c _ _ stored4) by assumption.
    rewrite worth_cas_row, HTy4, HT3. unfold worth.
    injection Hmoney4 as Hb Hc. rewrite Hc, Hb, Hcur_to.
    destruct (decide _); lia. }
  (* the credit is refused *)
  assert (Hacc4 : accounts w4 = accounts y4)
    by (subst w4; apply cas_world_miss; assumption).
  assert (Ha4 : audit w4
            = (audit w0 ++ [mkCas fromID (Account.Balance fromAccount - amount)
                              (Account.Version fromAccount) true;
                            mkCas toID (Account.Balance toAccount + amount)
                              (Account.Version toAccount) false])%list).
  { subst w4. rewrite cas_world_audit, Hhit4, Hay4, Ha3, <- app_assoc. reflexivity. }
  set (y5 := after yield w4).
  assert (Hwk5 : well_keyed (accounts y5)) by (apply yield_well_keyed, Hwk4').
  assert (Hs5 : schedule_deactivations (others y5)) by (apply yield_deactivations, Hs4').
  assert (Hay5 : audit y5 = audit w4) by apply yield_audit.
  assert (HTy5 : ∀ c, total c (accounts y5) = total c (accounts w3)).
  { intros c. subst y5. rewrite total_yield, Hacc4 by assumption. apply HTy4. }
  cbn [snd].
  split; [apply cas_world_well_keyed, Hwk5|].
  split; [rewrite cas_world_others; exact Hs5|].
  eexists. split.
  { rewrite cas_world_audit, Hay5, Ha4, <- app_assoc. reflexivity. }
  split; [intros records; apply settled_compensated; reflexivity|].
  cbn [settled cas_applied app]. rewrite andb_true_r. intros Hhit5 c.
  destruct (cas_world_hit fromID (Account.Balance fromAccount)
              (Account.Version fromAccount + 1) y5 Hhit5)
    as (stored5 & Hstored5 & _ & Hacc5).
  assert (Hmoney5 : money stored5 = (Account.Balance fromAccount - amount,
                                     Account.Currency fromAccount)).
  { pose proof (yield_money w4 fromID Hwk4' Hs4') as H5.
    pose proof (yield_money w3 fromID Hwk3' Hs3') as H4.
    fold y5 in H5. fold y4 in H4.
    rewrite Hacc4, H4, Hacc3, lookup_insert_eq, Hstored5 in H5.
    unfold money in *. cbn in H5. injection Hmoney3 as _ Hc3.
    injection H5 as Hb5 Hc5. rewrite Hb5, Hc5, Hc3. reflexivity. }
  rewrite Hacc5, (total_insert c _ _ stored5) by assumption.
  rewrite worth_cas_row, HTy5, HT3. unfold worth.
  injection Hmoney5 as Hb Hc. rewrite Hc, Hb, Hcur_from.
  destruct (decide _); lia.
Qed.

Lemma IsValid_transfer (request : TransactionRequest.t) :
  TransactionRequest.IsValid request = None ->
  TransactionRequest.Type_ request = TransactionTypeTransfer ->
  ∃ fromID toID,
    TransactionRequest.FromAccountID request = Some fromID ∧
    TransactionRequest.ToAccountID request = Some toID ∧ fromID ≠ toID.
Proof.
  unfold TransactionRequest.IsValid. intros H Hty. rewrite Hty in H.
  destruct (_ <=? _); [discriminate|].
  destruct (decide (TransactionRequest.Currency request = "")); [discriminate|].
  destruct (decide (TransactionTypeTransfer = TransactionTypeDeposit));
    [discriminate|].
  destruct (decide (TransactionTypeTransfer = TransactionTypeWithdrawal));
    [discriminate|].
  destruct (decide (TransactionTypeTransfer = TransactionTypeTransfer));
    [|congruence].
  destruct (TransactionRequest.FromAccountID request) as [fromID|]; [|discriminate].
  destruct (TransactionRequest.ToAccountID request) as [toID|]; [|discriminate].
  destruct (decide (fromID = toID)); [discriminate|].
  exists fromID, toID. auto.
Qed.

Lemma conserving_idle {A} (m : M A) :
  (∀ w, accounts (after m w) = accounts w ∧ others (after m w) = others w ∧
        audit (after m w) = audit w) ->
  conserving m.
Proof.
  intros H w Hwk Hs. destruct (H w) as (Ha & Ho & Hau).
  apply conserved_quiet; rewrite ?Ha, ?Ho; auto.
Qed.

Lemma conserving_ret {A} (a : A) : conserving (ret a).
Proof. apply conserving_idle. intros w. repeat split. Qed.

Lemma conserving_throw {A} (e : error) : conserving (@throw A e).
Proof. apply conserving_idle. intros w. repeat split. Qed.

Lemma conserving_log_Printf (l : LogLine) : conserving (log_Printf l).
Proof. apply conserving_idle. intros w. repeat split. Qed.

Lemma conserving_time_Sleep (d : Z) : conserving (time_Sleep d).
Proof. apply conserving_idle. intros w. repeat split. Qed.

Lemma conserving_bind {A B} (m : M A) (k : A -> M B) :
  conserving m -> (∀ a, conserving (k a)) -> conserving (bind m k).
Proof.
  intros Hm Hk w Hwk Hs.
  destruct (Hm w Hwk Hs) as (Hwk1 & Hs1 & g1 & Ha1 & Hg1 & HT1).
  unfold after in *. rewrite bind_apply.
  destruct (m w) as [[a|e|] w1]; cbn [snd] in *;
    try (split; [assumption|]; split; [assumption|]; exists g1; auto).
  destruct (Hk a w1 Hwk1 Hs1) as (Hwk2 & Hs2 & g2 & Ha2 & Hg2 & HT2).
  unfold after in *.
  split; [assumption|]. split; [assumption|].
  exists (g1 ++ g2)%list. split; [rewrite Ha2, Ha1, app_assoc; reflexivity|].
  split.
  - intros records. rewrite <- app_assoc, !Hg1, Hg2, andb_assoc. reflexivity.
  - rewrite Hg1. intros H c. apply andb_true_iff in H. destruct H as [H1 H2].
    rewrite HT2, HT1 by assumption. reflexivity.
Qed.

Lemma conserving_try {A} (m : M A) : conserving m -> conserving (try m).
Proof.
  intros Hm w Hwk Hs. destruct (Hm w Hwk Hs) as (Hwk1 & Hs1 & g1 & H).
  unfold after, try in *.
  destruct (m w) as [[a|e|] w1]; cbn [snd] in *;
    (split; [assumption|]; split; [assumption|]; exists g1; exact H).
Qed.

Lemma conserving_handler (msg : Message) :
  is_transfer msg -> conserving (TransactionUseCase.handler transactionService msg).
Proof.
  destruct msg as [raw|request]; [intros []|]. cbn [is_transfer]. intros Hty w Hwk Hs.
  unfold after. rewrite handler_run. cbn zeta.
  set (id := TransactionRequest.ID request).
  set (w0 := set_logs (logs w ++ [LogProcessing id]) w).
  destruct (TransactionRequest.IsValid request) as [err|] eqn:Hvalid.
  - assert (Hsync :
      TransactionUseCase.ProcessTransactionSync transactionService request w0
      = (Fail err, w0)).
    { unfold TransactionUseCase.ProcessTransactionSync. rewrite Hvalid. reflexivity. }
    rewrite Hsync. cbn [snd].
    apply conserved_quiet;
      rewrite ?status_world_accounts, ?status_world_others, ?status_world_audit;
      auto.
  - destruct (IsValid_transfer request Hvalid Hty) as (fromID & toID & Hfrom & Hto & Hne).
    rewrite (ProcessTransactionSync_transfer request fromID toID w0) by assumption.
    destruct (transfer_outcome_conserving request fromID toID w0 Hne Hwk Hs)
      as (Hwkf & Hsf & g & Haf & Hgf & HTf).
    cbn zeta in *.
    destruct (transfer_outcome request fromID toID w0) as [[[]|err|] wf];
      cbn [snd] in *;
      rewrite ?status_world_accounts, ?status_world_others, ?status_world_audit;
      (split; [assumption|]; split; [assumption|]; exists g; auto).
Qed.

Lemma conserving_retry_loop (handler : Message -> M unit) (msg : Message) :
  conserving (handler msg) ->
  ∀ remaining attempt lastErr,
    conserving (RabbitMQQueue.retry_loop remaining attempt lastErr msg handler).
Proof.
  intros Hh remaining. induction remaining as [|n IH]; intros attempt lastErr; cbn.
  - apply conserving_throw.
  - apply conserving_bind; [apply conserving_try, Hh|].
    intros [a|err]; [apply conserving_ret|].
    apply conserving_bind; [apply conserving_log_Printf|]. intros _.
    apply conserving_bind; [|intros _; apply IH].
    destruct (attempt <? RabbitMQQueue.maxRetries);
      [apply conserving_time_Sleep|apply conserving_ret].
Qed.

Lemma conserving_deliver (handler : Message -> M unit) (msg : Message) :
  conserving (handler msg) -> conserving (RabbitMQQueue.deliver handler msg).
Proof.
  intros Hh. unfold RabbitMQQueue.deliver, RabbitMQQueue.processMessageWithRetry.
  apply conserving_bind; [apply conserving_try, conserving_retry_loop, Hh|].
  intros [a|err]; [apply conserving_ret|].
  apply conserving_bind; [apply conserving_log_Printf|]. intros _.
  apply conserving_ret.
Qed.

Lemma conserving_Subscribe (handler : Message -> M unit) (msgs : list Message) :
  Forall (λ msg, conserving (handler msg)) msgs ->
  conserving (RabbitMQQueue.Subscribe handler msgs).
Proof.
  induction 1 as [|msg msgs Hmsg _ IH]; cbn.
  - apply conserving_ret.
  - apply conserving_bind; [apply conserving_deliver, Hmsg|]. intros d.
    apply conserving_bind; [apply IH|]. intros ds. apply conserving_ret.
Qed.

Lemma money_lookup (rows rows' : gmap string Account.t) (id : string)
    (account : Account.t) :
  money <$> rows' !! id = money <$> rows !! id ->
  rows !! id = Some account ->
  ∃ account', rows' !! id = Some account' ∧ money account' = money account.
Proof.
  intros H Hrow. rewrite Hrow in H. cbn in H.
  destruct (rows' !! id) as [account'|]; [|discriminate].
  exists account'. split; [reflexivity|]. cbn in H. congruence.
Qed.

Lemma successful_transfer_moves
    (request : TransactionRequest.t) (fromID toID : string) (w : World) :
  TransactionRequest.Type_ request = TransactionTypeTransfer ->
  TransactionRequest.FromAccountID request = Some fromID ->
  TransactionRequest.ToAccountID request = Some toID ->
  well_keyed (accounts w) -> schedule_deactivations (others w) ->
  let run := TransactionUseCase.handler transactionService (Encoded request) in
  result run w = Ok tt ->
  ∃ src dst src' dst',
    accounts w !! fromID = Some src ∧ accounts w !! toID = Some dst ∧
    accounts (after run w) !! fromID = Some src' ∧
    accounts (after run w) !! toID = Some dst' ∧
    Account.Balance src' = Account.Balance src - TransactionRequest.Amount request ∧
    Account.Balance dst' = Account.Balance dst + TransactionRequest.Amount request.
Proof.
  intros Hty Hfrom Hto Hwk Hs run. subst run. unfold result, after.
  rewrite handler_run. cbn zeta.
  set (id := TransactionRequest.ID request).
  set (w0 := set_logs (logs w ++ [LogProcessing id]) w).
  destruct (TransactionRequest.IsValid request) as [err|] eqn:Hvalid.
  { unfold TransactionUseCase.ProcessTransactionSync. rewrite Hvalid.
    cbn. discriminate. }
  destruct (IsValid_transfer request Hvalid Hty) as (f & t & Hf & Ht & Hne).
  rewrite Hfrom in Hf. rewrite Hto in Ht.
  injection Hf as <-. injection Ht as <-.
  rewrite (ProcessTransactionSync_transfer request fromID toID w0) by assumption.
  unfold transfer_outcome. cbn zeta.
  set (amount := TransactionRequest.Amount request).
  set (w1 := after yield w0).
  assert (Hwk0 : well_keyed (accounts w0)) by exact Hwk.
  assert (Hs0 : schedule_deactivations (others w0)) by exact Hs.
  assert (Hwk1 : well_keyed (accounts w1)) by (apply yield_well_keyed, Hwk0).
  assert (Hs1 : schedule_deactivations (others w1)) by (apply yield_deactivations, Hs0).
  destruct (accounts w1 !! fromID) as [fromAccount|] eqn:Hrow1; [|discriminate].
  assert (HfromID : Account.ID fromAccount = fromID) by (eapply Hwk1, Hrow1).
  rewrite HfromID.
  set (w2 := after yield w1).
  assert (Hwk2 : well_keyed (accounts w2)) by (apply yield_well_keyed, Hwk1).
  assert (Hs2 : schedule_deactivations (others w2)) by (apply yield_deactivations, Hs1).
  destruct (accounts w2 !! toID) as [toAccount|] eqn:Hrow2; [|discriminate].
  assert (HtoID : Account.ID toAccount = toID) by (eapply Hwk2, Hrow2).
  rewrite HtoID.
  destruct (decide (_ ∨ _)); [discriminate|].
  destruct (decide (_ ∨ _)); [discriminate|].
  destruct (_ <? _); [discriminate|].
  set (y3 := after yield w2).
  assert (Hwk3 : well_keyed (accounts y3)) by (apply yield_well_keyed, Hwk2).
  assert (Hs3 : schedule_deactivations (others y3)) by (apply yield_deactivations, Hs2).
  set (w3 := cas_world fromID (Account.Balance fromAccount - amount)
               (Account.Version fromAccount) y3).
  assert (Hwk3' : well_keyed (accounts w3)) by (apply cas_world_well_keyed, Hwk3).
  assert (Hs3' : schedule_deactivations (others w3))
    by (subst w3; rewrite cas_world_others; exact Hs3).
  destruct (cas_hits fromID (Account.Version fromAccount) y3) eqn:Hhit3;
    [|discriminate].
  destruct (cas_world_hit fromID (Account.Balance fromAccount - amount)
              (Account.Version fromAccount) y3 Hhit3)
    as (stored3 & Hstored3 & _ & Hacc3).
  fold w3 in Hacc3.
  set (y4 := after yield w3).
  set (w4 := cas_world toID (Account.Balance toAccount + amount)
               (Account.Version toAccount) y4).
  destruct (cas_hits toID (Account.Version toAccount) y4) eqn:Hhit4;
    [|discriminate].
  destruct (cas_world_hit toID (Account.Balance toAccount + amount)
              (Account.Version toAccount) y4 Hhit4)
    as (stored4 & Hstored4 & _ & Hacc4).
  fold w4 in Hacc4.
  destruct (transactions w4 !! TransactionRequest.ID request); [|discriminate].
  intros _. cbn [snd set_logs accounts]. rewrite status_world_accounts.
  (* the rows at the start *)
  assert (Hsrc : ∃ src, accounts w !! fromID = Some src ∧ money src = money fromAccount).
  { pose proof (yield_money w0 fromID Hwk0 Hs0) as H. fold w1 in H.
    rewrite Hrow1 in H. cbn in H.
    change (accounts w0) with (accounts w) in H.
    destruct (accounts w !! fromID) as [src|]; [|discriminate].
    exists src. split; [reflexivity|]. cbn in H. congruence. }
  assert (Hdst : ∃ dst, accounts w !! toID = Some dst ∧ money dst = money toAccount).
  { pose proof (yield_money w1 toID Hwk1 Hs1) as H2. fold w2 in H2.
    pose proof (yield_money w0 toID Hwk0 Hs0) as H1. fold w1 in H1.
    rewrite H1, Hrow2 in H2. cbn in H2.
    change (accounts w0) with (accounts w) in H2.
    destruct (accounts w !! toID) as [dst|]; [|discriminate].
    exists dst. split; [reflexivity|]. cbn in H2. congruence. }
  destruct Hsrc as (src & Hsrc & Hmsrc). destruct Hdst as (dst & Hdst & Hmdst).
  (* the source row at the end *)
  assert (Hsrc4 : ∃ src', accounts y4 !! fromID = Some src' ∧
                          Account.Balance src' = Account.Balance fromAccount - amount).
  { destruct (money_lookup (accounts w3) (accounts y4) fromID
                (cas_row stored3 (Account.Balance fromAccount - amount) (clock y3)))
      as (src' & Hrow & Hm).
    - apply yield_money; assumption.
    - rewrite Hacc3. apply lookup_insert_eq.
    - exists src'. split; [assumption|]. injection Hm as Hb _. exact Hb. }
  destruct Hsrc4 as (src' & Hsrc' & Hbsrc').
  assert (Hb4 : Account.Balance stored4 = Account.Balance toAccount).
  { pose proof (yield_money w3 toID Hwk3' Hs3') as H4. fold y4 in H4.
    pose proof (yield_money w2 toID Hwk2 Hs2) as H3. fold y3 in H3.
    rewrite Hacc3, lookup_insert_ne, H3, Hstored4, Hrow2 in H4 by assumption.
    cbn in H4. injection H4 as Hb _. exact Hb. }
  exists src, dst, src'.
  exists (cas_row stored4 (Account.Balance toAccount + amount) (clock y4)).
  rewrite Hacc4, lookup_insert_ne, lookup_insert_eq by congruence.
  injection Hmsrc as Hbs _. injection Hmdst as Hbd _.
  repeat split; try assumption.
  - rewrite Hbsrc', Hbs. reflexivity.
  - cbn. rewrite Hbd. reflexivity.
Qed.

(** ** Rows under the statements of any client *)

Lemma row_kept_refl (row : Account.t) : row_kept row row.
Proof. unfold row_kept. repeat split; try reflexivity; auto. Qed.

Lemma row_kept_trans (a b c : Account.t) :
  row_kept a b -> row_kept b c -> row_kept a c.
Proof.
  unfold row_kept.
  intros (Hi1 & Hu1 & Hc1 & Ht1 & Hv1 & He1 & Hs1)
         (Hi2 & Hu2 & Hc2 & Ht2 & Hv2 & He2 & Hs2).
  repeat split; try congruence; try lia.
  - intros Hv. assert (Hb : Account.Version b = Account.Version a) by lia.
    rewrite He2 by lia. apply He1, Hb.
  - destruct Hs2 as [Hs2|Hs2]; [|right; exact Hs2].
    destruct Hs1 as [Hs1|Hs1]; [left|right]; congruence.
Qed.

Lemma row_kept_cas (stored : Account.t) (newBalance now : Z) :
  row_kept stored (cas_row stored newBalance now).
Proof.
  unfold row_kept, cas_row. cbn. repeat split; try lia. left. reflexivity.
Qed.

Lemma table_kept_refl (rows : gmap string Account.t) : table_kept rows rows.
Proof. intros id row H. exists row. split; [exact H|apply row_kept_refl]. Qed.

Lemma table_kept_trans (m1 m2 m3 : gmap string Account.t) :
  table_kept m1 m2 -> table_kept m2 m3 -> table_kept m1 m3.
Proof.
  intros H12 H23 id row H.
  destruct (H12 id row H) as (row2 & H2 & Hk2).
  destruct (H23 id row2 H2) as (row3 & H3 & Hk3).
  exists row3. split; [exact H3|]. eapply row_kept_trans; eassumption.
Qed.

Lemma table_kept_insert (rows : gmap string Account.t) (id : string)
    (stored row' : Account.t) :
  rows !! id = Some stored -> row_kept stored row' ->
  table_kept rows (<[id := row']> rows).
Proof.
  intros Hs Hk id' row H.
  destruct (decide (id' = id)) as [->|Hne].
  - rewrite lookup_insert_eq. exists row'. split; [reflexivity|]. congruence.
  - rewrite lookup_insert_ne by congruence. exists row.
    split; [exact H|apply row_kept_refl].
Qed.

Lemma table_kept_fresh (rows : gmap string Account.t) (id : string)
    (row' : Account.t) :
  rows !! id = None -> table_kept rows (<[id := row']> rows).
Proof.
  intros Hn id' row H.
  destruct (decide (id' = id)) as [->|Hne]; [congruence|].
  rewrite lookup_insert_ne by congruence. exists row.
  split; [exact H|apply row_kept_refl].
Qed.

Lemma row_effect_kept (id : string) (o : Other) (r r' : option Account.t)
    (row : Account.t) :
  row_effect id o r r' -> r = Some row ->
  ∃ row', r' = Some row' ∧ row_kept row row'.
Proof.
  intros He Hr. destruct He; simplify_eq.
  - exists row. split; [reflexivity|apply row_kept_refl].
  - eexists. split; [reflexivity|apply row_kept_cas].
  - eexists. split; [reflexivity|].
    unfold row_kept. cbn. repeat split; try lia. right. reflexivity.
Qed.

Lemma other_call_kept (o : Other) (w : World) :
  well_keyed (accounts w) ->
  table_kept (accounts w) (accounts (after (other_call o) w)).
Proof.
  intros Hwk id row H.
  eapply row_effect_kept; [apply other_call_row_effect, Hwk|exact H].
Qed.

Lemma run_batch_kept (batch : list Other) (w : World) :
  well_keyed (accounts w) ->
  table_kept (accounts w) (accounts (after (run_batch batch) w)).
Proof.
  revert w. induction batch as [|o batch IH]; intros w Hwk.
  - apply table_kept_refl.
  - rewrite run_batch_cons. eapply table_kept_trans.
    + apply other_call_kept, Hwk.
    + apply IH, other_call_well_keyed, Hwk.
Qed.

Lemma yield_kept (w : World) :
  well_keyed (accounts w) ->
  table_kept (accounts w) (accounts (after yield w)).
Proof. intros Hwk. rewrite yield_accounts. apply run_batch_kept, Hwk. Qed.

(** A statement that finds the expected version finds the row that was
    read. *)
Lemma yield_same_version (w : World) (id : string) (row current : Account.t) :
  well_keyed (accounts w) ->
  accounts w !! id = Some row ->
  accounts (after yield w) !! id = Some current ->
  Account.Version current = Account.Version row ->
  current = row.
Proof.
  intros Hwk Hrow Hcur Hv.
  destruct (yield_kept w Hwk id row Hrow) as (row' & Hrow' & Hk).
  rewrite Hcur in Hrow'. injection Hrow' as <-.
  destruct Hk as (_ & _ & _ & _ & _ & He & _). apply He, Hv.
Qed.
(** ** Deposits and withdrawals *)

Lemma processDeposit_run (request : TransactionRequest.t) (toID : string)
    (w0 : World) :
  TransactionRequest.ToAccountID request = Some toID ->
  TransactionUseCase.processDeposit transactionService request w0
  = deposit_outcome request toID w0.
Proof.
  intros Hto.
  unfold TransactionUseCase.processDeposit, deposit_outcome.
  change (TransactionUseCase.accountRepo transactionService) with accountRepo.
  change (TransactionUseCase.transactionRepo transactionService) with transactionRepo.
  rewrite Hto. unfold deref.
  rewrite !bind_apply. unfold ret at 1. cbn beta iota zeta.
  rewrite bind_apply, GetByID_shared.
  destruct (accounts (after yield w0) !! toID) as [account|]; [|reflexivity].
  destruct (decide (_ ≠ _)); [reflexivity|].
  destruct (decide (_ ≠ _)); [reflexivity|].
  rewrite bind_apply, UpdateBalance_shared.
  destruct (cas_hits _ _ _); [|reflexivity].
  cbn beta iota. rewrite UpdateStatus_wired. reflexivity.
Qed.

Lemma processWithdrawal_run (request : TransactionRequest.t) (fromID : string)
    (w0 : World) :
  TransactionRequest.FromAccountID request = Some fromID ->
  TransactionUseCase.processWithdrawal transactionService request w0
  = withdrawal_outcome request fromID w0.
Proof.
  intros Hfrom.
  unfold TransactionUseCase.processWithdrawal, withdrawal_outcome.
  change (TransactionUseCase.accountRepo transactionService) with accountRepo.
  change (TransactionUseCase.transactionRepo transactionService) with transactionRepo.
  rewrite Hfrom. unfold deref.
  rewrite !bind_apply. unfold ret at 1. cbn beta iota zeta.
  rewrite bind_apply, GetByID_shared.
  destruct (accounts (after yield w0) !! fromID) as [account|]; [|reflexivity].
  destruct (decide (_ ≠ _)); [reflexivity|].
  destruct (decide (_ ≠ _)); [reflexivity|].
  destruct (_ <? _); [reflexivity|].
  rewrite bind_apply, UpdateBalance_shared.
  destruct (cas_hits _ _ _); [|reflexivity].
  cbn beta iota. rewrite UpdateStatus_wired. reflexivity.
Qed.

Lemma ProcessTransactionSync_deposit (request : TransactionRequest.t)
    (toID : string) (w0 : World) :
  TransactionRequest.IsValid request = None ->
  TransactionRequest.Type_ request = TransactionTypeDeposit ->
  TransactionRequest.ToAccountID request = Some toID ->
  TransactionUseCase.ProcessTransactionSync transactionService request w0
  = deposit_outcome request toID w0.
Proof.
  intros Hvalid Hty Hto.
  unfold TransactionUseCase.ProcessTransactionSync. rewrite Hvalid, Hty.
  destruct (decide (TransactionTypeDeposit = TransactionTypeDeposit));
    [|congruence].
  apply processDeposit_run; assumption.
Qed.

Lemma ProcessTransactionSync_withdrawal (request : TransactionRequest.t)
    (fromID : string) (w0 : World) :
  TransactionRequest.IsValid request = None ->
  TransactionRequest.Type_ request = TransactionTypeWithdrawal ->
  TransactionRequest.FromAccountID request = Some fromID ->
  TransactionUseCase.ProcessTransactionSync transactionService request w0
  = withdrawal_outcome request fromID w0.
Proof.
  intros Hvalid Hty Hfrom.
  unfold TransactionUseCase.ProcessTransactionSync. rewrite Hvalid, Hty.
  destruct (decide (TransactionTypeWithdrawal = TransactionTypeDeposit));
    [discriminate|].
  destruct (decide (TransactionTypeWithdrawal = TransactionTypeWithdrawal));
    [|congruence].
  apply processWithdrawal_run; assumption.
Qed.

Lemma handler_fails (request : TransactionRequest.t) (w w1 : World) (e : error) :
  TransactionUseCase.ProcessTransactionSync transactionService request
    (set_logs (logs w ++ [LogProcessing (TransactionRequest.ID request)]) w)
  = (Fail e, w1) ->
  TransactionUseCase.handler transactionService (Encoded request) w
  = (Fail e, failed_world (TransactionRequest.ID request) e w1).
Proof.
  intros H. pose proof (handler_run request w) as Hh. cbn zeta in Hh.
  rewrite H in Hh. exact Hh.
Qed.

Lemma handler_succeeds (request : TransactionRequest.t) (w w1 : World) :
  TransactionUseCase.ProcessTransactionSync transactionService request
    (set_logs (logs w ++ [LogProcessing (TransactionRequest.ID request)]) w)
  = (Ok tt, w1) ->
  TransactionUseCase.handler transactionService (Encoded request) w
  = (Ok tt, set_logs (logs w1 ++ [LogProcessed (TransactionRequest.ID request)]) w1).
Proof.
  intros H. pose proof (handler_run request w) as Hh. cbn zeta in Hh.
  rewrite H in Hh. exact Hh.
Qed.

Lemma handler_success_inv (request : TransactionRequest.t) (w : World) :
  result (TransactionUseCase.handler transactionService (Encoded request)) w = Ok tt ->
  ∃ w1,
    TransactionUseCase.ProcessTransactionSync transactionService request
      (set_logs (logs w ++ [LogProcessing (TransactionRequest.ID request)]) w)
    = (Ok tt, w1) ∧
    after (TransactionUseCase.handler transactionService (Encoded request)) w
    = set_logs (logs w1 ++ [LogProcessed (TransactionRequest.ID request)]) w1.
Proof.
  intros H. pose proof (handler_run request w) as Hh. cbn zeta in Hh.
  unfold result, after in *.
  destruct (TransactionUseCase.ProcessTransactionSync transactionService request _)
    as [[[]|err|] w1]; rewrite Hh in *; cbn in H; try discriminate.
  exists w1. split; reflexivity.
Qed.

Lemma status_world_completed (id : string) (w : World) (stored : Transaction.t) :
  transactions w !! id = Some stored ->
  ∃ doc,
    transactions (status_world id TransactionStatusCompleted "" w) !! id = Some doc ∧
    Transaction.Status doc = TransactionStatusCompleted ∧
    Transaction.ErrorMessage doc = "" ∧
    Transaction.ProcessedAt doc = Some (clock w + 1).
Proof.
  intros H. eexists. split; [apply status_world_lookup, H|].
  repeat split.
Qed.

Lemma deposit_check_fails
    (w0 : World) (request : TransactionRequest.t) (toID : string) (e : error) :
  TransactionRequest.IsValid request = None ->
  TransactionRequest.Type_ request = TransactionTypeDeposit ->
  TransactionRequest.ToAccountID request = Some toID ->
  deposit_check request (accounts (after yield w0) !! toID) = Some e ->
  TransactionUseCase.ProcessTransactionSync transactionService request w0
  = (Fail e, after yield w0).
Proof.
  intros Hvalid Hty Hto Hcheck.
  rewrite (ProcessTransactionSync_deposit request toID) by assumption.
  unfold deposit_outcome. unfold deposit_check in Hcheck.
  destruct (accounts (after yield w0) !! toID) as [account|];
    [|injection Hcheck as <-; reflexivity].
  destruct (decide (_ ≠ _)); [injection Hcheck as <-; reflexivity|].
  destruct (decide (_ ≠ _)); [injection Hcheck as <-; reflexivity|].
  discriminate.
Qed.

(** X1: the handler rejects a deposit on the first check that the row it
    read fails (missing, then not active, then another currency): it
    fails with that error, sends no [UpdateBalance], leaves the accounts
    table as the read found it, and marks the journal document failed. *)
Theorem deposit_rejected
    (w : World) (request : TransactionRequest.t) (toID : string) (e : error) :
  TransactionRequest.IsValid request = None ->
  TransactionRequest.Type_ request = TransactionTypeDeposit ->
  TransactionRequest.ToAccountID request = Some toID ->
  deposit_check request (accounts (after yield w) !! toID) = Some e ->
  let run := TransactionUseCase.handler transactionService (Encoded request) in
  result run w = Fail e ∧
  accounts (after run w) = accounts (after yield w) ∧
  audit (after run w) = audit w ∧
  (is_Some (transactions w !! TransactionRequest.ID request) ->
   ∃ marked,
     transactions (after run w) !! TransactionRequest.ID request = Some marked ∧
     Transaction.Status marked = TransactionStatusFailed ∧
     Transaction.ErrorMessage marked = Error e).
Proof.
  intros Hvalid Hty Hto Hcheck run. subst run.
  set (w0 := set_logs (logs w ++ [LogProcessing (TransactionRequest.ID request)]) w).
  assert (Hsync :
    TransactionUseCase.ProcessTransactionSync transactionService request w0
    = (Fail e, after yield w0)).
  { apply (deposit_check_fails w0 request toID e); try assumption.
    subst w0. rewrite yield_set_logs. exact Hcheck. }
  apply handler_fails in Hsync.
  unfold result, after. rewrite Hsync. cbn [fst snd].
  subst w0. rewrite yield_set_logs.
  rewrite failed_world_accounts, failed_world_audit. world_simpl.
  rewrite yield_audit.
  repeat split.
  intros Hdoc. apply failed_world_marks. world_simpl.
  rewrite yield_transactions. exact Hdoc.
Qed.

(** X2: the handler rejects a withdrawal on the first check that the
    row it read fails (missing, then not active, then another currency,
    then a balance below the amount): it fails with that error, sends no
    [UpdateBalance], leaves the accounts table as the read found it, and
    marks the journal document failed. *)
Theorem withdrawal_rejected
    (w : World) (request : TransactionRequest.t) (fromID : string) (e : error) :
  TransactionRequest.IsValid request = None ->
  TransactionRequest.Type_ request = TransactionTypeWithdrawal ->
  TransactionRequest.FromAccountID request = Some fromID ->
  withdrawal_check request (accounts (after yield w) !! fromID) = Some e ->
  let run := TransactionUseCase.handler transactionService (Encoded request) in
  result run w = Fail e ∧
  accounts (after run w) = accounts (after yield w) ∧
  audit (after run w) = audit w ∧
  (is_Some (transactions w !! TransactionRequest.ID request) ->
   ∃ marked,
     transactions (after run w) !! TransactionRequest.ID request = Some marked ∧
     Transaction.Status marked = TransactionStatusFailed ∧
     Transaction.ErrorMessage marked = Error e).
Proof.
  intros Hvalid Hty Hfrom Hcheck run. subst run.
  set (w0 := set_logs (logs w ++ [LogProcessing (TransactionRequest.ID request)]) w).
  assert (Hsync :
    TransactionUseCase.ProcessTransactionSync transactionService request w0
    = (Fail e, after yield w0)).
  { rewrite (ProcessTransactionSync_withdrawal request fromID) by assumption.
    unfold withdrawal_outcome. subst w0. rewrite yield_set_logs. world_simpl.
    unfold withdrawal_check in Hcheck.
    destruct (accounts (after yield w) !! fromID) as [account|];
      [|injection Hcheck as <-; reflexivity].
    destruct (decide (_ ≠ _)); [injection Hcheck as <-; reflexivity|].
    destruct (decide (_ ≠ _)); [injection Hcheck as <-; reflexivity|].
    destruct (_ <? _); [injection Hcheck as <-; reflexivity|].
    discriminate. }
  apply handler_fails in Hsync.
  unfold result, after. rewrite Hsync. cbn [fst snd].
  subst w0. rewrite yield_set_logs.
  rewrite failed_world_accounts, failed_world_audit. world_simpl.
  rewrite yield_audit.
  repeat split.
  intros Hdoc. apply failed_world_marks. world_simpl.
  rewrite yield_transactions. exact Hdoc.
Qed.

(** X3: the handler rejects a transfer on the first check that fails, in
    the order of the code: source missing, destination missing, one of
    the two not active, one of the two in another currency, source balance
    below the amount.  It then fails with that error without having sent
    any [UpdateBalance], and marks the journal document failed. *)
Theorem transfer_rejected
    (w : World) (request : TransactionRequest.t) (fromID toID : string)
    (e : error) :
  TransactionRequest.IsValid request = None ->
  TransactionRequest.Type_ request = TransactionTypeTransfer ->
  TransactionRequest.FromAccountID request = Some fromID ->
  TransactionRequest.ToAccountID request = Some toID ->
  transfer_check request (accounts (after yield w) !! fromID)
    (accounts (after yield (after yield w)) !! toID) = Some e ->
  let run := TransactionUseCase.handler transactionService (Encoded request) in
  result run w = Fail e ∧
  audit (after run w) = audit w ∧
  accounts (after run w)
    = accounts (match accounts (after yield w) !! fromID with
                | Some _ => after yield (after yield w)
                | None => after yield w
                end) ∧
  (is_Some (transactions w !! TransactionRequest.ID request) ->
   ∃ marked,
     transactions (after run w) !! TransactionRequest.ID request = Some marked ∧
     Transaction.Status marked = TransactionStatusFailed ∧
     Transaction.ErrorMessage marked = Error e).
Proof.
  intros Hvalid Hty Hfrom Hto Hcheck run. subst run.
  set (l := (logs w ++ [LogProcessing (TransactionRequest.ID request)])%list).
  set (w0 := set_logs l w).
  assert (Hsync :
    TransactionUseCase.ProcessTransactionSync transactionService request w0
    = (Fail e,
       set_logs l (match accounts (after yield w) !! fromID with
                   | Some _ => after yield (after yield w)
                   | None => after yield w
                   end))).
  { rewrite (ProcessTransactionSync_transfer request fromID toID) by assumption.
    unfold transfer_outcome. subst w0. rewrite !yield_set_logs. world_simpl.
    unfold transfer_check in Hcheck.
    destruct (accounts (after yield w) !! fromID) as [fromAccount|];
      [|injection Hcheck as <-; reflexivity].
    destruct (accounts (after yield (after yield w)) !! toID) as [toAccount|];
      [|injection Hcheck as <-; reflexivity].
    destruct (decide (_ ∨ _)); [injection Hcheck as <-; reflexivity|].
    destruct (decide (_ ∨ _)); [injection Hcheck as <-; reflexivity|].
    destruct (_ <? _); [injection Hcheck as <-; reflexivity|].
    discriminate. }
  apply handler_fails in Hsync.
  unfold result, after. rewrite Hsync. cbn [fst snd].
  rewrite failed_world_accounts, failed_world_audit. world_simpl.
  assert (Ha : audit (match accounts (after yield w) !! fromID with
                      | Some _ => after yield (after yield w)
                      | None => after yield w
                      end) = audit w).
  { destruct (accounts (after yield w) !! fromID); rewrite ?yield_audit; reflexivity. }
  assert (Ht : transactions (match accounts (after yield w) !! fromID with
                             | Some _ => after yield (after yield w)
                             | None => after yield w
                             end) = transactions w).
  { destruct (accounts (after yield w) !! fromID);
      rewrite ?yield_transactions; reflexivity. }
  repeat split; [exact Ha|].
  intros Hdoc. apply failed_world_marks. world_simpl. rewrite Ht. exact Hdoc.
Qed.



(** ** The consumer loop *)

Lemma IsValid_deposit (request : TransactionRequest.t) :
  TransactionRequest.IsValid request = None ->
  TransactionRequest.Type_ request = TransactionTypeDeposit ->
  ∃ toID, TransactionRequest.ToAccountID request = Some toID.
Proof.
  unfold TransactionRequest.IsValid. intros H Hty. rewrite Hty in H.
  destruct (_ <=? _); [discriminate|].
  destruct (decide (_ = "")); [discriminate|].
  destruct (decide (TransactionTypeDeposit = TransactionTypeDeposit)); [|congruence].
  destruct (TransactionRequest.ToAccountID request); [eauto|discriminate].
Qed.

Lemma IsValid_withdrawal (request : TransactionRequest.t) :
  TransactionRequest.IsValid request = None ->
  TransactionRequest.Type_ request = TransactionTypeWithdrawal ->
  ∃ fromID, TransactionRequest.FromAccountID request = Some fromID.
Proof.
  unfold TransactionRequest.IsValid. intros H Hty. rewrite Hty in H.
  destruct (_ <=? _); [discriminate|].
  destruct (decide (_ = "")); [discriminate|].
  destruct (decide (TransactionTypeWithdrawal = TransactionTypeDeposit));
    [discriminate|].
  destruct (decide (TransactionTypeWithdrawal = TransactionTypeWithdrawal));
    [|congruence].
  destruct (TransactionRequest.FromAccountID request); [eauto|discriminate].
Qed.

Lemma deposit_outcome_returns (request : TransactionRequest.t) (toID : string)
    (w : World) :
  (deposit_outcome request toID w).1 ≠ Panic.
Proof. unfold deposit_outcome. repeat case_match; discriminate. Qed.

Lemma withdrawal_outcome_returns (request : TransactionRequest.t)
    (fromID : string) (w : World) :
  (withdrawal_outcome request fromID w).1 ≠ Panic.
Proof. unfold withdrawal_outcome. repeat case_match; discriminate. Qed.

Lemma transfer_outcome_returns (request : TransactionRequest.t)
    (fromID toID : string) (w : World) :
  (transfer_outcome request fromID toID w).1 ≠ Panic.
Proof. unfold transfer_outcome. repeat case_match; discriminate. Qed.

Lemma ProcessTransactionSync_returns (request : TransactionRequest.t) (w : World) :
  result (TransactionUseCase.ProcessTransactionSync transactionService request) w
    ≠ Panic.
Proof.
  unfold result.
  destruct (TransactionRequest.IsValid request) as [err|] eqn:Hvalid.
  { unfold TransactionUseCase.ProcessTransactionSync. rewrite Hvalid. discriminate. }
  destruct (decide (TransactionRequest.Type_ request = TransactionTypeDeposit))
    as [Hd|Hd].
  { destruct (IsValid_deposit request Hvalid Hd) as (toID & Hto).
    rewrite (ProcessTransactionSync_deposit request toID) by assumption.
    apply deposit_outcome_returns. }
  destruct (decide (TransactionRequest.Type_ request = TransactionTypeWithdrawal))
    as [Hw|Hw].
  { destruct (IsValid_withdrawal request Hvalid Hw) as (fromID & Hfrom).
    rewrite (ProcessTransactionSync_withdrawal request fromID) by assumption.
    apply withdrawal_outcome_returns. }
  destruct (decide (TransactionRequest.Type_ request = TransactionTypeTransfer))
    as [Ht|Ht].
  { destruct (IsValid_transfer request Hvalid Ht) as (fromID & toID & Hfrom & Hto & _).
    rewrite (ProcessTransactionSync_transfer request fromID toID) by assumption.
    apply transfer_outcome_returns. }
  unfold TransactionUseCase.ProcessTransactionSync. rewrite Hvalid.
  destruct (decide _); [contradiction|].
  destruct (decide _); [contradiction|].
  destruct (decide _); [contradiction|].
  discriminate.
Qed.

Lemma handler_returns (msg : Message) (w : World) :
  result (TransactionUseCase.handler transactionService msg) w ≠ Panic.
Proof.
  destruct msg as [raw|request].
  - unfold result. rewrite handler_garbage. discriminate.
  - pose proof (handler_run request w) as Hh. cbn zeta in Hh.
    pose proof (ProcessTransactionSync_returns request
                  (set_logs (logs w ++ [LogProcessing (TransactionRequest.ID request)]) w))
      as Hs.
    unfold result in *. rewrite Hh.
    destruct (TransactionUseCase.ProcessTransactionSync _ _ _) as [[[]|err|] w1];
      cbn in *; congruence.
Qed.

Lemma retry_loop_returns (handler : Message -> M unit) (msg : Message) :
  (∀ w, result (handler msg) w ≠ Panic) ->
  ∀ remaining attempt lastErr w,
    result (RabbitMQQueue.retry_loop remaining attempt lastErr msg handler) w ≠ Panic.
Proof.
  intros Hh. induction remaining as [|n IH]; intros attempt lastErr w.
  - discriminate.
  - specialize (Hh w). unfold result in *. simpl. unfold try.
    rewrite !bind_apply.
    destruct (handler msg w) as [[[]|err|] w1]; cbn in *; [discriminate| |congruence].
    unfold log_Printf. rewrite !bind_apply. cbn beta iota zeta.
    destruct (attempt <? RabbitMQQueue.maxRetries); cbn; apply IH.
Qed.

Lemma deliver_disposition (handler : Message -> M unit) (msg : Message) (w : World) :
  (∀ w, result (handler msg) w ≠ Panic) ->
  result (RabbitMQQueue.deliver handler msg) w = Ok RabbitMQQueue.Ack ∨
  result (RabbitMQQueue.deliver handler msg) w = Ok (RabbitMQQueue.Nack false).
Proof.
  intros Hh.
  pose proof (retry_loop_returns handler msg Hh
                (Z.to_nat RabbitMQQueue.maxRetries) 1 None w) as Hr.
  unfold result, RabbitMQQueue.deliver, RabbitMQQueue.processMessageWithRetry,
    try in *.
  rewrite !bind_apply.
  destruct (RabbitMQQueue.retry_loop _ _ _ _ _ w) as [[[]|err|] w1];
    cbn in *; [left; reflexivity|right; reflexivity|congruence].
Qed.

(** X7: the processor's handler never panics, whatever the message and
    the state of the stores (the nil account ids that it dereferences are
    excluded by the validation that runs first), and the consumer loop
    answers every delivery, in order, with an acknowledgment or with a
    rejection without requeue. *)
Theorem consumer_never_stops (msgs : list Message) (w : World) :
  (∀ msg, result (TransactionUseCase.handler transactionService msg) w ≠ Panic) ∧
  ∃ dispositions,
    result (TransactionUseCase.StartTransactionProcessor transactionService msgs) w
      = Ok dispositions ∧
    length dispositions = length msgs ∧
    Forall (λ d, d = RabbitMQQueue.Ack ∨ d = RabbitMQQueue.Nack false) dispositions.
Proof.
  split; [intros msg; apply handler_returns|].
  unfold TransactionUseCase.StartTransactionProcessor.
  revert w. induction msgs as [|msg msgs IH]; intros w.
  - exists []. repeat split. constructor.
  - pose proof (deliver_disposition (TransactionUseCase.handler transactionService)
                  msg w (handler_returns msg)) as Hd.
    unfold result in *. simpl. rewrite bind_apply.
    destruct (RabbitMQQueue.deliver _ msg w) as [r w1]. cbn in Hd.
    destruct (IH w1) as (ds & Hds & Hlen & Hall).
    destruct Hd as [-> | ->]; cbn beta iota; rewrite bind_apply;
      destruct (RabbitMQQueue.Subscribe _ msgs w1) as [r' w2]; cbn in Hds; subst r';
      cbn; eexists; (split; [reflexivity|]);
      (split; [cbn; congruence|]); constructor; auto.
Qed.

(** X8: a message that does not decode is handled three times (the
    handler fails on it before it touches any store), with pauses of one
    and two seconds between the attempts, and is then rejected without
    requeue; accounts, journal and broker are as before. *)
Theorem undecodable_message_rejected (raw : string) (w : World) :
  let run :=
    RabbitMQQueue.deliver (TransactionUseCase.handler transactionService)
      (Garbage raw) in
  let err := External "invalid character looking for beginning of value" in
  result run w = Ok (RabbitMQQueue.Nack false) ∧
  accounts (after run w) = accounts w ∧
  transactions (after run w) = transactions w ∧
  broker (after run w) = broker w ∧
  audit (after run w) = audit w ∧
  clock (after run w) = clock w + 3 * Second ∧
  logs (after run w)
    = (logs w ++
       [LogUnmarshalFailed err; LogAttemptFailed 1 3 err;
        LogUnmarshalFailed err; LogAttemptFailed 2 3 err;
        LogUnmarshalFailed err; LogAttemptFailed 3 3 err;
        LogRetriesExhausted (Errorf "failed after 3 attempts" err)])%list.
Proof.
  intros run err. subst run.
  assert (Hh : ∀ w', TransactionUseCase.handler transactionService (Garbage raw) w'
                     = (Fail err, set_logs (logs w' ++ [LogUnmarshalFailed err]) w'))
    by (intros; reflexivity).
  unfold result, after, RabbitMQQueue.deliver, RabbitMQQueue.processMessageWithRetry,
    try.
  change (Z.to_nat RabbitMQQueue.maxRetries) with 3%nat.
  rewrite !bind_apply.
  rewrite (retry_loop_failed_attempt _ _ _ _ _ _ _ _ (Hh _)).
  rewrite (retry_loop_failed_attempt _ _ _ _ _ _ _ _ (Hh _)).
  rewrite (retry_loop_failed_attempt _ _ _ _ _ _ _ _ (Hh _)).
  unfold attempt_failed, RabbitMQQueue.maxRetries.
  change (1 <? 3) with true. change (1 + 1 <? 3) with true.
  change (1 + 1 + 1 <? 3) with false.
  cbn [RabbitMQQueue.retry_loop throw default bind log_Printf ret fst snd].
  world_simpl. unfold RabbitMQQueue.maxRetries.
  change (1 + 1) with 2. change (2 + 1) with 3.
  repeat split.
  - unfold Second. lia.
  - rewrite <- !app_assoc. reflexivity.
Qed.
(** ** Retries of the real handler *)

Lemma yield_step (w : World) (batch : list Other) (rest : list (list Other)) :
  others w = batch :: rest ->
  after yield w = set_others rest (after (run_batch batch) w).
Proof.
  intros Ho. rewrite yield_after. unfold pending. rewrite Ho. reflexivity.
Qed.

Lemma other_UpdateBalance_hit (w : World) (id : string) (stored : Account.t)
    (newBalance : Z) :
  accounts w !! id = Some stored ->
  after (other_call (OtherUpdateBalance id newBalance (Account.Version stored))) w
  = set_accounts (<[id := cas_row stored newBalance (clock w)]> (accounts w)) (tick w).
Proof.
  intros Hrow. unfold after, other_call. unfold_repository. cbn.
  rewrite Hrow.
  destruct (decide (Account.Version stored = Account.Version stored)); [|congruence].
  reflexivity.
Qed.

(** One invocation of the handler on a deposit while no other client is
    active. *)
Lemma deposit_attempt_quiet
    (w : World) (request : TransactionRequest.t) (toID : string)
    (account : Account.t) :
  TransactionRequest.IsValid request = None ->
  TransactionRequest.Type_ request = TransactionTypeDeposit ->
  TransactionRequest.ToAccountID request = Some toID ->
  others w = [] ->
  accounts w !! toID = Some account ->
  Account.ID account = toID ->
  Account.Status account = "active" ->
  Account.Currency account = TransactionRequest.Currency request ->
  let id := TransactionRequest.ID request in
  let newBalance := Account.Balance account + TransactionRequest.Amount request in
  ∃ w',
    TransactionUseCase.handler transactionService (Encoded request) w
    = (match transactions w !! id with
       | Some _ => Ok tt
       | None => Fail ErrTransactionNotFound
       end, w') ∧
    others w' = [] ∧
    accounts w' = <[toID := cas_row account newBalance (clock w)]> (accounts w) ∧
    audit w'
      = (audit w ++ [mkCas toID newBalance (Account.Version account) true])%list ∧
    (∀ stored, transactions w !! id = Some stored ->
       ∃ doc, transactions w' !! id = Some doc ∧
              Transaction.Status doc = TransactionStatusCompleted ∧
              Transaction.ErrorMessage doc = "") ∧
    (transactions w !! id = None -> transactions w' = transactions w).
Proof.
  intros Hvalid Hty Hto Hquiet Hrow Hid Hactive Hcur id newBalance.
  set (l := (logs w ++ [LogProcessing id])%list).
  assert (Hq0 : after yield (set_logs l w) = set_logs l w)
    by (apply yield_quiet; exact Hquiet).
  set (w2 := cas_world toID newBalance (Account.Version account) (set_logs l w)).
  assert (Hhit : cas_hits toID (Account.Version account) (set_logs l w) = true).
  { unfold cas_hits. world_simpl. rewrite Hrow.
    apply bool_decide_eq_true_2. reflexivity. }
  assert (Hw2 : w2 = set_audit
                       (audit w ++ [mkCas toID newBalance (Account.Version account) true])
                       (set_accounts
                          (<[toID := cas_row account newBalance (clock w)]> (accounts w))
                          (tick (set_logs l w)))).
  { subst w2. unfold cas_world. world_simpl. rewrite Hrow.
    destruct (decide (Account.Version account = Account.Version account));
      [|congruence].
    reflexivity. }
  assert (Hsync :
    TransactionUseCase.ProcessTransactionSync transactionService request
      (set_logs l w)
    = (match transactions w !! id with
       | Some _ => Ok tt
       | None => Fail ErrTransactionNotFound
       end,
       status_world id TransactionStatusCompleted "" w2)).
  { rewrite (ProcessTransactionSync_deposit request toID) by assumption.
    unfold deposit_outcome. rewrite !Hq0. world_simpl. rewrite Hrow.
    destruct (decide (Account.Status account ≠ "active")); [contradiction|].
    destruct (decide (Account.Currency account ≠ TransactionRequest.Currency request));
      [contradiction|].
    rewrite Hid, Hhit. fold newBalance. fold w2. fold id.
    replace (transactions w2) with (transactions w)
      by (rewrite Hw2; reflexivity).
    reflexivity. }
  assert (Ht2 : transactions w2 = transactions w) by (rewrite Hw2; reflexivity).
  destruct (transactions w !! id) as [stored|] eqn:Hdoc.
  - apply handler_succeeds in Hsync. fold id in Hsync.
    eexists. split; [exact Hsync|]. world_simpl.
    rewrite status_world_others, status_world_accounts, status_world_audit.
    rewrite Hw2. world_simpl.
    split; [exact Hquiet|]. split; [reflexivity|]. split; [reflexivity|].
    split; [|discriminate].
    intros stored' _.
    destruct (status_world_completed id
                (set_audit
                   (audit w ++ [mkCas toID newBalance (Account.Version account) true])
                   (set_accounts
                      (<[toID := cas_row account newBalance (clock w)]> (accounts w))
                      (tick (set_logs l w)))) stored)
      as (doc & Hd & Hs & He & _); [exact Hdoc|].
    exists doc. repeat split; assumption.
  - apply handler_fails in Hsync. fold id in Hsync.
    eexists. split; [exact Hsync|].
    rewrite failed_world_others, failed_world_accounts, failed_world_audit.
    rewrite status_world_others, status_world_accounts, status_world_audit.
    rewrite Hw2. world_simpl.
    split; [exact Hquiet|]. split; [reflexivity|]. split; [reflexivity|].
    split; [discriminate|].
    intros _. unfold failed_world, status_world. world_simpl.
    rewrite Hdoc.
    destruct (decide (TransactionStatusCompleted = TransactionStatusCompleted));
      [|congruence].
    destruct (decide (TransactionStatusFailed = TransactionStatusCompleted));
      [discriminate|].
    world_simpl. rewrite Hdoc. reflexivity.
Qed.

Lemma unjournaled_attempt
    (w : World) (request : TransactionRequest.t) (toID : string)
    (account : Account.t) (attempt : Z) :
  TransactionRequest.IsValid request = None ->
  TransactionRequest.Type_ request = TransactionTypeDeposit ->
  TransactionRequest.ToAccountID request = Some toID ->
  others w = [] ->
  accounts w !! toID = Some account ->
  Account.ID account = toID ->
  Account.Status account = "active" ->
  Account.Currency account = TransactionRequest.Currency request ->
  transactions w !! TransactionRequest.ID request = None ->
  let newBalance := Account.Balance account + TransactionRequest.Amount request in
  ∃ w1 now,
    TransactionUseCase.handler transactionService (Encoded request) w
    = (Fail ErrTransactionNotFound, w1) ∧
    let w2 := attempt_failed attempt ErrTransactionNotFound w1 in
    others w2 = [] ∧
    accounts w2 = <[toID := cas_row account newBalance now]> (accounts w) ∧
    audit w2
      = (audit w ++ [mkCas toID newBalance (Account.Version account) true])%list ∧
    transactions w2 = transactions w.
Proof.
  intros Hvalid Hty Hto Hquiet Hrow Hid Hactive Hcur Hdoc newBalance.
  destruct (deposit_attempt_quiet w request toID account)
    as (w1 & Hrun & Ho & Ha & Hau & _ & Ht); try assumption.
  rewrite Hdoc in Hrun. specialize (Ht Hdoc).
  exists w1, (clock w). split; [exact Hrun|]. cbn zeta.
  destruct (attempt_failed_frame attempt ErrTransactionNotFound w1)
    as (-> & -> & _ & -> & ->).
  repeat split; assumption.
Qed.


Lemma retry_loop_success
    (n : nat) (attempt : Z) (lastErr : option error) (msg : Message)
    (handler : Message -> M unit) (w w1 : World) :
  handler msg w = (Ok tt, w1) ->
  RabbitMQQueue.retry_loop (S n) attempt lastErr msg handler w = (Ok tt, w1).
Proof.
  intros H. simpl. unfold try. rewrite !bind_apply, H. reflexivity.
Qed.

(** The first invocation when another client writes the row between the
    handler's read and its write. *)
Lemma deposit_attempt_overtaken
    (w : World) (request : TransactionRequest.t) (toID : string)
    (account : Account.t) (theirs : Z) :
  TransactionRequest.IsValid request = None ->
  TransactionRequest.Type_ request = TransactionTypeDeposit ->
  TransactionRequest.ToAccountID request = Some toID ->
  others w = [[]; [OtherUpdateBalance toID theirs (Account.Version account)]] ->
  accounts w !! toID = Some account ->
  Account.ID account = toID ->
  Account.Status account = "active" ->
  Account.Currency account = TransactionRequest.Currency request ->
  let id := TransactionRequest.ID request in
  let newBalance := Account.Balance account + TransactionRequest.Amount request in
  ∃ w1,
    TransactionUseCase.handler transactionService (Encoded request) w
    = (Fail ErrConcurrentUpdate, w1) ∧
    others w1 = [] ∧
    accounts w1 = <[toID := cas_row account theirs (clock w)]> (accounts w) ∧
    audit w1
      = (audit w ++ [mkCas toID newBalance (Account.Version account) false])%list ∧
    (is_Some (transactions w !! id) -> is_Some (transactions w1 !! id)).
Proof.
  intros Hvalid Hty Hto Hothers Hrow Hid Hactive Hcur id newBalance.
  set (l := (logs w ++ [LogProcessing id])%list).
  set (O := OtherUpdateBalance toID theirs (Account.Version account)) in *.
  assert (Hy1 : after yield (set_logs l w) = set_others [[O]] (set_logs l w)).
  { erewrite yield_step by (cbn; exact Hothers). reflexivity. }
  set (W := set_others []
              (set_accounts (<[toID := cas_row account theirs (clock w)]> (accounts w))
                 (tick (set_others [[O]] (set_logs l w))))).
  assert (Hy2 : after yield (set_others [[O]] (set_logs l w)) = W).
  { erewrite yield_step by reflexivity.
    rewrite run_batch_cons. subst O.
    rewrite (other_UpdateBalance_hit _ toID account theirs) by exact Hrow.
    reflexivity. }
  assert (Hmiss : cas_hits toID (Account.Version account) W = false).
  { unfold cas_hits. subst W. world_simpl. rewrite lookup_insert_eq.
    apply bool_decide_eq_false_2. cbn. lia. }
  assert (Hsync :
    TransactionUseCase.ProcessTransactionSync transactionService request
      (set_logs l w)
    = (Fail ErrConcurrentUpdate,
       cas_world toID newBalance (Account.Version account) W)).
  { rewrite (ProcessTransactionSync_deposit request toID) by assumption.
    unfold deposit_outcome. rewrite Hy1. world_simpl. rewrite Hrow.
    destruct (decide (Account.Status account ≠ "active")); [contradiction|].
    destruct (decide (Account.Currency account ≠ TransactionRequest.Currency request));
      [contradiction|].
    rewrite Hid, Hy2, Hmiss. reflexivity. }
  apply handler_fails in Hsync. fold id in Hsync.
  eexists. split; [exact Hsync|].
  rewrite failed_world_others, failed_world_accounts, failed_world_audit.
  rewrite cas_world_others, cas_world_audit, Hmiss.
  rewrite (cas_world_miss _ _ _ _ Hmiss).
  split; [reflexivity|]. split; [reflexivity|]. split; [reflexivity|].
  intros Hdoc.
  destruct (failed_world_marks id ErrConcurrentUpdate
              (cas_world toID newBalance (Account.Version account) W))
    as (marked & Hm & _).
  { rewrite cas_world_transactions. exact Hdoc. }
  rewrite Hm. eauto.
Qed.

(** ** Submission *)

Lemma Publish_accepted (queueName : string) (message : Message) (w : World) :
  declare_error (broker w) = None ->
  publish_error (broker w) = None ->
  RabbitMQQueue.Publish queueName message w
  = (Ok tt,
     set_broker
       (mkBroker None None
          (<[queueName := (default [] (queues (broker w) !! queueName) ++ [message])%list]>
             (queues (broker w)))) w).
Proof.
  intros Hd Hp. unfold RabbitMQQueue.Publish. rewrite Hd, Hp. reflexivity.
Qed.

Lemma assign_id (request : TransactionRequest.t) (w : World) :
  (if decide (TransactionRequest.ID request = "") then uuid_New
   else ret (TransactionRequest.ID request)) w
  = (Ok (assigned_id request w),
     if decide (TransactionRequest.ID request = "")
     then set_entropy (tail (entropy w)) w else w).
Proof.
  unfold assigned_id, next_uuid, uuid_New, ret.
  destruct (decide (TransactionRequest.ID request = "")); [|reflexivity].
  destruct w as [? ? ? ? ? ent ? ?]; destruct ent; reflexivity.
Qed.

(** The document that [ProcessTransaction] journals. *)
Lemma ProcessTransaction_journals
    (w : World) (request : TransactionRequest.t) :
  let id := assigned_id request w in
  TransactionRequest.IsValid request = None ->
  id ≠ "" ->
  transactions w !! id = None ->
  declare_error (broker w) = None ->
  publish_error (broker w) = None ->
  ∃ created updated w',
    let transaction :=
      Transaction.mk id (TransactionRequest.Type_ request)
        (TransactionRequest.FromAccountID request)
        (TransactionRequest.ToAccountID request)
        (TransactionRequest.Amount request) (TransactionRequest.Currency request)
        TransactionStatusPending (TransactionRequest.Description request)
        (TransactionRequest.Reference request) (TransactionRequest.Metadata request)
        created updated None "" in
    TransactionUseCase.ProcessTransaction transactionService request w
    = (Ok transaction, w') ∧
    transactions w' = <[id := transaction]> (transactions w) ∧
    broker w'
    = mkBroker None None
        (<["transactions" :=
             (default [] (queues (broker w) !! "transactions")
                ++ [Encoded (with_id id request)])%list]> (queues (broker w))) ∧
    accounts w' = accounts w ∧ others w' = others w ∧ audit w' = audit w ∧
    logs w' = logs w.
Proof.
  intros id Hvalid Hid Hfresh Hdeclare Hpublish.
  destruct (TransactionUseCase.ProcessTransaction transactionService request w)
    as [r w'] eqn:Hrun.
  unfold TransactionUseCase.ProcessTransaction in Hrun. rewrite Hvalid in Hrun.
  unfold transactionService, NewTransactionUseCase, NewRabbitMQQueue, json_Marshal
    in Hrun.
  cbn [TransactionUseCase.transactionRepo TransactionUseCase.queue
       TransactionUseCase.queueName MessageQueue.Publish] in Hrun.
  rewrite bind_apply, assign_id in Hrun. fold id in Hrun. cbn beta iota in Hrun.
  set (w0 := if decide (TransactionRequest.ID request = "")
             then set_entropy (tail (entropy w)) w else w) in *.
  assert (Hw0 : transactions w0 = transactions w ∧ broker w0 = broker w ∧
                accounts w0 = accounts w ∧ others w0 = others w ∧
                audit w0 = audit w ∧ logs w0 = logs w).
  { subst w0. destruct (decide _); repeat split. }
  destruct Hw0 as (Ht0 & Hb0 & Ha0 & Ho0 & Hau0 & Hl0).
  unfold transactionRepo in Hrun. unfold_repository.
  cbn [Transaction.ID TransactionRequest.ID] in Hrun.
  destruct (decide (id = "")) as [|_]; [contradiction|].
  cbn [TransactionRequest.Type_ TransactionRequest.FromAccountID
       TransactionRequest.ToAccountID TransactionRequest.Amount
       TransactionRequest.Currency TransactionRequest.Description
       TransactionRequest.Reference TransactionRequest.Metadata] in Hrun.
  fold (with_id id request) in Hrun.
  simpl in Hrun. rewrite Ht0, Hfresh in Hrun. simpl in Hrun.
  rewrite Publish_accepted in Hrun by (simpl; congruence).
  simpl in Hrun. rewrite Hb0 in Hrun.
  injection Hrun as <- <-.
  do 3 eexists. split; [reflexivity|]. simpl.
  repeat split; assumption.
Qed.


(** X12: a request whose id is already journaled is refused: the call
    fails with the insert error (wrapped once by the repository and once
    by the use case), the document that is there is not overwritten,
    nothing is queued and no account is touched. *)
Theorem ProcessTransaction_refuses_known_id
    (w : World) (request : TransactionRequest.t) (existing : Transaction.t) :
  let id := assigned_id request w in
  TransactionRequest.IsValid request = None ->
  id ≠ "" ->
  transactions w !! id = Some existing ->
  let run := TransactionUseCase.ProcessTransaction transactionService request in
  (∃ cause,
     result run w
     = Fail (Errorf "failed to create transaction"
               (Errorf "failed to create transaction" cause))) ∧
  transactions (after run w) = transactions w ∧
  broker (after run w) = broker w ∧
  accounts (after run w) = accounts w.
Proof.
  intros id Hvalid Hid Hknown run. subst run.
  unfold result, after.
  destruct (TransactionUseCase.ProcessTransaction transactionService request w)
    as [r w'] eqn:Hrun.
  unfold TransactionUseCase.ProcessTransaction in Hrun. rewrite Hvalid in Hrun.
  unfold transactionService, NewTransactionUseCase, NewRabbitMQQueue, json_Marshal
    in Hrun.
  cbn [TransactionUseCase.transactionRepo TransactionUseCase.queue
       TransactionUseCase.queueName MessageQueue.Publish] in Hrun.
  rewrite bind_apply, assign_id in Hrun. fold id in Hrun. cbn beta iota in Hrun.
  set (w0 := if decide (TransactionRequest.ID request = "")
             then set_entropy (tail (entropy w)) w else w) in *.
  assert (Hw0 : transactions w0 = transactions w ∧ broker w0 = broker w ∧
                accounts w0 = accounts w).
  { subst w0. destruct (decide _); repeat split. }
  destruct Hw0 as (Ht0 & Hb0 & Ha0).
  unfold transactionRepo in Hrun. unfold_repository.
  cbn [Transaction.ID TransactionRequest.ID] in Hrun.
  destruct (decide (id = "")) as [|_]; [contradiction|].
  simpl in Hrun. rewrite Ht0, Hknown in Hrun. simpl in Hrun.
  injection Hrun as <- <-. simpl.
  split; [eexists; reflexivity|]. repeat split; assumption.
Qed.


Lemma journal_Create_cases (transaction : Transaction.t) (w : World) :
  let r := result (TransactionRepository.Create transactionRepo transaction) w in
  let w' := after (TransactionRepository.Create transactionRepo transaction) w in
  accounts w' = accounts w ∧ audit w' = audit w ∧ others w' = others w ∧
  broker w' = broker w ∧
  match r with
  | Ok _ => True
  | Fail e =>
      (∃ cause, e = Errorf "failed to create transaction" cause) ∧
      transactions w' = transactions w
  | Panic => False
  end.
Proof.
  unfold result, after, transactionRepo. unfold_repository.
  destruct (decide (Transaction.ID transaction = "")); cbn;
    [destruct (entropy w); cbn|];
    destruct (transactions w !! _); cbn; repeat split; eauto.
Qed.

Lemma Publish_cases (queueName : string) (message : Message) (w : World) :
  let r := result (RabbitMQQueue.Publish queueName message) w in
  let w' := after (RabbitMQQueue.Publish queueName message) w in
  accounts w' = accounts w ∧ audit w' = audit w ∧ others w' = others w ∧
  transactions w' = transactions w ∧ r ≠ Panic.
Proof.
  unfold result, after, RabbitMQQueue.Publish.
  destruct (declare_error (broker w)); [repeat split; discriminate|].
  destruct (publish_error (broker w)); repeat split; discriminate.
Qed.

(** ** Cancellation *)

(** X14: cancelling a pending transaction sets its status to cancelled
    with the message Cancelled by user and changes nothing else: the
    other fields of the document, the other documents, the accounts, and
    the broker, where the transaction's message stays queued. *)
Theorem CancelTransaction_cancels_pending
    (w : World) (id : string) (stored : Transaction.t) :
  transactions w !! id = Some stored ->
  Transaction.Status stored = TransactionStatusPending ->
  let run := TransactionUseCase.CancelTransaction transactionService id in
  result run w = Ok tt ∧
  transactions (after run w)
    = <[id := status_doc stored TransactionStatusCancelled "Cancelled by user"
                (clock w) (clock w + 1)]> (transactions w) ∧
  Transaction.ProcessedAt
    (status_doc stored TransactionStatusCancelled "Cancelled by user"
       (clock w) (clock w + 1)) = Transaction.ProcessedAt stored ∧
  broker (after run w) = broker w ∧
  accounts (after run w) = accounts w.
Proof.
  intros Hdoc Hpending run. subst run.
  unfold result, after, TransactionUseCase.CancelTransaction.
  change (TransactionUseCase.transactionRepo transactionService) with transactionRepo.
  rewrite bind_apply.
  assert (Hget : TransactionRepository.GetByID transactionRepo id w = (Ok stored, w)).
  { unfold transactionRepo. unfold_repository. rewrite Hdoc.
    rewrite set_transactions_same. reflexivity. }
  rewrite Hget. cbn beta iota.
  destruct (decide (Transaction.Status stored ≠ TransactionStatusPending));
    [contradiction|].
  rewrite UpdateStatus_wired, Hdoc. cbn [fst snd].
  unfold status_world. rewrite Hdoc.
  destruct (decide (TransactionStatusCancelled = TransactionStatusCompleted));
    [discriminate|].
  repeat split.
Qed.

(** ** The account service *)

Lemma Create_shared (account : Account.t) (w : World) :
  Account.ID account ≠ "" ->
  AccountRepository.Create accountRepo account w
  = (let w1 := after yield w in
     let '(r, rows) :=
       PostgreSQLAccountRepository.Create (clock w1) (clock w1 + 1) "" account
         (accounts w1) in
     (r, set_accounts rows (tick (tick w1)))).
Proof.
  intros Hid. unfold accountRepo, shared.
  cbn [AccountRepository.Create NewPostgreSQLAccountRepository].
  rewrite bind_apply, yield_ok. cbn beta iota zeta.
  destruct (decide (Account.ID account = "")); [contradiction|].
  unfold bind, ret, time_Now, on_accounts. reflexivity.
Qed.

Lemma Update_shared (account : Account.t) (w : World) :
  AccountRepository.Update accountRepo account w
  = (let w1 := after yield w in
     let '(r, rows) :=
       PostgreSQLAccountRepository.Update (clock w1) account (accounts w1) in
     (r, set_accounts rows (tick w1))).
Proof.
  unfold accountRepo, shared.
  cbn [AccountRepository.Update NewPostgreSQLAccountRepository].
  rewrite bind_apply, yield_ok. cbn beta iota zeta.
  unfold bind, time_Now, on_accounts. reflexivity.
Qed.

Lemma CreateAccount_run (w : World) (userID : string) (initialBalance : Z)
    (currency : string) :
  0 <= initialBalance -> currency ≠ "" -> next_uuid w ≠ "" ->
  AccountUseCase.CreateAccount accountService userID initialBalance currency w
  = AccountRepository.Create accountRepo
      (Account.mk (next_uuid w) userID initialBalance currency "active"
         (clock w) (clock w + 1) 1)
      (tick (tick (set_entropy (tail (entropy w)) w))).
Proof.
  intros Hbal Hcur Hid.
  unfold AccountUseCase.CreateAccount.
  destruct (initialBalance <? 0) eqn:Hneg; [apply Z.ltb_lt in Hneg; lia|].
  destruct (decide (currency = "")); [contradiction|].
  change (AccountUseCase.accountRepo accountService) with accountRepo.
  unfold bind at 1.
  assert (Hu : uuid_New w = (Ok (next_uuid w), set_entropy (tail (entropy w)) w)).
  { unfold uuid_New, next_uuid.
    destruct w as [? ? ? ? ? ent ? ?]; destruct ent; reflexivity. }
  rewrite Hu. reflexivity.
Qed.

Lemma Create_shared_refused (account : Account.t) (w : World) :
  map_Exists (λ _ existing,
    Account.UserID existing = Account.UserID account ∧
    Account.Currency existing = Account.Currency account)
    (accounts (after yield w)) ->
  result (AccountRepository.Create accountRepo account) w = Fail ErrAccountExists ∧
  accounts (after (AccountRepository.Create accountRepo account) w)
  = accounts (after yield w).
Proof.
  intros Hex. unfold result, after, accountRepo, shared.
  cbn [AccountRepository.Create NewPostgreSQLAccountRepository].
  rewrite bind_apply, yield_ok. cbn beta iota zeta.
  unfold bind, ret, time_Now, uuid_New, on_accounts,
    PostgreSQLAccountRepository.Create.
  destruct (decide (Account.ID account = "")); cbn;
    repeat case_match; simplify_eq; cbn;
    try (split; reflexivity);
    match goal with
    | H : ¬ PostgreSQLAccountRepository.unique_violation _ _ |- _ =>
        exfalso; apply H; right; exact Hex
    end.
Qed.



(** X17: deactivating an account sets its status to inactive and
    increases its version by one; balance, owner and currency stay, and no
    other row is touched.  From then on the processor rejects deposits to
    it with ErrAccountInactive. *)
Theorem DeactivateAccount_deactivates
    (w : World) (id : string) (account : Account.t) :
  others w = [] ->
  accounts w !! id = Some account ->
  Account.ID account = id ->
  unique_owner (accounts w) ->
  let run := AccountUseCase.DeactivateAccount accountService id in
  let row :=
    Account.mk id (Account.UserID account) (Account.Balance account)
      (Account.Currency account) "inactive" (Account.CreatedAt account)
      (clock w + 1) (Account.Version account + 1) in
  result run w = Ok tt ∧
  accounts (after run w) = <[id := row]> (accounts w) ∧
  ∀ request,
    TransactionRequest.IsValid request = None ->
    TransactionRequest.Type_ request = TransactionTypeDeposit ->
    TransactionRequest.ToAccountID request = Some id ->
    result (TransactionUseCase.handler transactionService (Encoded request))
      (after run w) = Fail ErrAccountInactive.
Proof.
  intros Hquiet Hrow Hid Huniq run row. subst run.
  assert (Hrun :
    AccountUseCase.DeactivateAccount accountService id w
    = (Ok tt, set_accounts (<[id := row]> (accounts w)) (tick (tick w)))).
  { unfold AccountUseCase.DeactivateAccount.
    change (AccountUseCase.accountRepo accountService) with accountRepo.
    rewrite bind_apply, GetByID_shared. rewrite yield_quiet by exact Hquiet.
    rewrite Hrow. cbn beta iota.
    rewrite bind_apply. change (time_Now w) with (Ok (clock w), tick w).
    cbn beta iota zeta. rewrite Update_shared.
    rewrite yield_quiet by exact Hquiet. cbn zeta.
    unfold PostgreSQLAccountRepository.Update. cbn [Account.ID Account.Version].
    rewrite Hid. world_simpl. rewrite Hrow.
    destruct (decide (Account.Version account = Account.Version account));
      [|congruence].
    destruct (decide (map_Exists _ _)) as [Hex|_].
    { exfalso. destruct Hex as (id' & other & Hother & Hne & Hu & Hc).
      cbn in Hu, Hc. apply Hne.
      exact (Huniq id' id other account Hother Hrow Hu Hc). }
    subst row. rewrite Hid. reflexivity. }
  unfold result, after. rewrite Hrun. cbn [fst snd]. world_simpl.
  split; [reflexivity|]. split; [reflexivity|].
  intros request Hvalid Hty Hto.
  set (W := set_accounts (<[id := row]> (accounts w)) (tick (tick w))).
  assert (Hsync :
    TransactionUseCase.ProcessTransactionSync transactionService request
      (set_logs (logs W ++ [LogProcessing (TransactionRequest.ID request)]) W)
    = (Fail ErrAccountInactive,
       after yield
         (set_logs (logs W ++ [LogProcessing (TransactionRequest.ID request)]) W))).
  { apply (deposit_check_fails _ request id); try assumption.
    rewrite yield_quiet by exact Hquiet.
    subst W. world_simpl. rewrite lookup_insert_eq. reflexivity. }
  apply handler_fails in Hsync. rewrite Hsync. reflexivity.
Qed.
(** ** Invariants of the accounts table *)

Lemma unique_owner_insert_same (rows : gmap string Account.t) (id : string)
    (stored row' : Account.t) :
  rows !! id = Some stored ->
  Account.UserID row' = Account.UserID stored ->
  Account.Currency row' = Account.Currency stored ->
  unique_owner rows -> unique_owner (<[id := row']> rows).
Proof.
  intros Hs Hu Hc Huniq id1 id2 row1 row2 H1 H2 Hu12 Hc12.
  destruct (decide (id1 = id)) as [->|Hn1];
    destruct (decide (id2 = id)) as [->|Hn2]; [reflexivity| | |].
  - rewrite lookup_insert_eq in H1. injection H1 as <-.
    rewrite lookup_insert_ne in H2 by congruence.
    apply (Huniq id id2 stored row2); congruence.
  - rewrite lookup_insert_eq in H2. injection H2 as <-.
    rewrite lookup_insert_ne in H1 by congruence.
    apply (Huniq id1 id row1 stored); congruence.
  - rewrite lookup_insert_ne in H1 by congruence.
    rewrite lookup_insert_ne in H2 by congruence.
    exact (Huniq id1 id2 row1 row2 H1 H2 Hu12 Hc12).
Qed.

Lemma unique_owner_insert_new (rows : gmap string Account.t) (id : string)
    (row' : Account.t) :
  ¬ map_Exists (λ _ existing,
      Account.UserID existing = Account.UserID row' ∧
      Account.Currency existing = Account.Currency row') rows ->
  unique_owner rows -> unique_owner (<[id := row']> rows).
Proof.
  intros Hnew Huniq id1 id2 row1 row2 H1 H2 Hu12 Hc12.
  destruct (decide (id1 = id)) as [->|Hn1];
    destruct (decide (id2 = id)) as [->|Hn2]; [reflexivity| | |].
  - rewrite lookup_insert_eq in H1. injection H1 as <-.
    rewrite lookup_insert_ne in H2 by congruence.
    exfalso. apply Hnew. exists id2, row2. split; [exact H2|]. split; congruence.
  - rewrite lookup_insert_eq in H2. injection H2 as <-.
    rewrite lookup_insert_ne in H1 by congruence.
    exfalso. apply Hnew. exists id1, row1. split; [exact H1|]. split; congruence.
  - rewrite lookup_insert_ne in H1 by congruence.
    rewrite lookup_insert_ne in H2 by congruence.
    exact (Huniq id1 id2 row1 row2 H1 H2 Hu12 Hc12).
Qed.

Lemma unique_owner_empty : unique_owner ∅.
Proof. intros id1 id2 row1 row2 H1. rewrite lookup_empty in H1. discriminate. Qed.

Lemma unique_owner_singleton (id : string) (row : Account.t) :
  unique_owner (<[id := row]> ∅).
Proof.
  apply unique_owner_insert_new; [|apply unique_owner_empty].
  intros (i & x & H & _). rewrite lookup_empty in H. discriminate.
Qed.

Lemma UpdateBalance_tracks (now : Z) (id : string) (newBalance version : Z)
    (rows : gmap string Account.t) :
  table_ok rows ->
  let rows' := (PostgreSQLAccountRepository.UpdateBalance now id newBalance version rows).2 in
  table_ok rows' ∧ table_kept rows rows'.
Proof.
  intros [Hwk Huniq]. unfold PostgreSQLAccountRepository.UpdateBalance.
  destruct (rows !! id) as [stored|] eqn:Hrow; cbn;
    [|split; [split; assumption|apply table_kept_refl]].
  destruct (decide (Account.Version stored = version)); cbn;
    [|split; [split; assumption|apply table_kept_refl]].
  split; [split|].
  - apply well_keyed_insert; [exact Hwk|]. exact (Hwk id stored Hrow).
  - eapply unique_owner_insert_same; [exact Hrow|reflexivity|reflexivity|exact Huniq].
  - eapply table_kept_insert; [exact Hrow|].
    exact (row_kept_cas stored newBalance now).
Qed.

Lemma Create_tracks (now1 now2 : Z) (uuid : string) (account : Account.t)
    (rows : gmap string Account.t) :
  table_ok rows ->
  let rows' := (PostgreSQLAccountRepository.Create now1 now2 uuid account rows).2 in
  table_ok rows' ∧ table_kept rows rows'.
Proof.
  intros [Hwk Huniq]. unfold PostgreSQLAccountRepository.Create.
  destruct (decide (PostgreSQLAccountRepository.unique_violation _ _)) as [|Hnv]; cbn;
    [split; [split; assumption|apply table_kept_refl]|].
  assert (Hfresh : rows !! (if decide (Account.ID account = "") then uuid
                            else Account.ID account) = None).
  { destruct (rows !! _) eqn:H; [|reflexivity].
    exfalso. apply Hnv. left. cbn. rewrite H. eauto. }
  split; [split|].
  - apply well_keyed_insert; [exact Hwk|reflexivity].
  - apply unique_owner_insert_new; [|exact Huniq].
    intros Hex. apply Hnv. right. exact Hex.
  - apply table_kept_fresh. exact Hfresh.
Qed.

(** [Update] with a row that agrees in owner and currency with what is
    stored under its id and version. *)
Lemma Update_tracks (now : Z) (account : Account.t)
    (rows : gmap string Account.t) :
  table_ok rows ->
  (∀ stored, rows !! Account.ID account = Some stored ->
     Account.Version stored = Account.Version account ->
     Account.UserID account = Account.UserID stored ∧
     Account.Currency account = Account.Currency stored ∧
     (Account.Status account = Account.Status stored ∨
      Account.Status account = "inactive")) ->
  let rows' := (PostgreSQLAccountRepository.Update now account rows).2 in
  table_ok rows' ∧ table_kept rows rows'.
Proof.
  intros [Hwk Huniq] Hagree. unfold PostgreSQLAccountRepository.Update.
  destruct (rows !! Account.ID account) as [stored|] eqn:Hrow; cbn;
    [|split; [split; assumption|apply table_kept_refl]].
  destruct (decide (Account.Version stored = Account.Version account)) as [Hv|]; cbn;
    [|split; [split; assumption|apply table_kept_refl]].
  destruct (decide (map_Exists _ _)); cbn;
    [split; [split; assumption|apply table_kept_refl]|].
  destruct (Hagree stored eq_refl Hv) as (Hu & Hc & Hs).
  split; [split|].
  - apply well_keyed_insert; [exact Hwk|]. exact (Hwk _ stored Hrow).
  - eapply unique_owner_insert_same; [exact Hrow|exact Hu|exact Hc|exact Huniq].
  - eapply table_kept_insert; [exact Hrow|].
    unfold row_kept. cbn. repeat split; try assumption; try lia.
Qed.

Lemma tracks_idle {A} (m : M A) :
  (∀ w, accounts (after m w) = accounts w) -> tracks m.
Proof.
  intros H w Hok. rewrite H. split; [exact Hok|apply table_kept_refl].
Qed.

Lemma tracks_ret {A} (a : A) : tracks (ret a).
Proof. apply tracks_idle. reflexivity. Qed.

Lemma tracks_throw {A} (e : error) : tracks (@throw A e).
Proof. apply tracks_idle. reflexivity. Qed.

Lemma tracks_panic {A} : tracks (@panic A).
Proof. apply tracks_idle. reflexivity. Qed.

Lemma tracks_bind {A B} (m : M A) (k : A -> M B) :
  tracks m -> (∀ a, tracks (k a)) -> tracks (bind m k).
Proof.
  intros Hm Hk w Hok. destruct (Hm w Hok) as [Hok1 Hk1].
  unfold after, bind in *.
  destruct (m w) as [[a|e|] w1]; cbn in *; try (split; assumption).
  destruct (Hk a w1 Hok1) as [Hok2 Hk2].
  split; [exact Hok2|]. eapply table_kept_trans; eassumption.
Qed.

Lemma tracks_try {A} (m : M A) : tracks m -> tracks (try m).
Proof.
  intros Hm w Hok. specialize (Hm w Hok). unfold after, try in *.
  destruct (m w) as [[a|e|] w1]; exact Hm.
Qed.

Lemma tracks_discard {A} (m : M A) : tracks m -> tracks (discard m).
Proof.
  intros Hm. unfold discard. apply tracks_bind; [apply tracks_try, Hm|].
  intros _. apply tracks_ret.
Qed.

Lemma tracks_time_Now : tracks time_Now.
Proof. apply tracks_idle. reflexivity. Qed.

Lemma tracks_time_Sleep (d : Z) : tracks (time_Sleep d).
Proof. apply tracks_idle. reflexivity. Qed.

Lemma tracks_uuid_New : tracks uuid_New.
Proof.
  apply tracks_idle. intros w. unfold after, uuid_New.
  destruct (entropy w); reflexivity.
Qed.

Lemma tracks_log_Printf (l : LogLine) : tracks (log_Printf l).
Proof. apply tracks_idle. reflexivity. Qed.

Lemma tracks_record_cas (id : string) (newBalance version : Z) (applied : bool) :
  tracks (record_cas id newBalance version applied).
Proof. apply tracks_idle. reflexivity. Qed.

Lemma tracks_deref {A} (p : option A) : tracks (deref p).
Proof. destruct p; [apply tracks_ret|apply tracks_panic]. Qed.

Lemma tracks_on_transactions {A}
    (f : gmap string Transaction.t -> Result A * gmap string Transaction.t) :
  tracks (on_transactions f).
Proof.
  apply tracks_idle. intros w. unfold after, on_transactions.
  destruct (f (transactions w)); reflexivity.
Qed.

Lemma tracks_Publish (queueName : string) (message : Message) :
  tracks (RabbitMQQueue.Publish queueName message).
Proof.
  apply tracks_idle. intros w. unfold after, RabbitMQQueue.Publish.
  destruct (declare_error (broker w)); [reflexivity|].
  destruct (publish_error (broker w)); reflexivity.
Qed.

Lemma tracks_on_accounts {A}
    (f : gmap string Account.t -> Result A * gmap string Account.t) :
  (∀ rows, table_ok rows -> table_ok (f rows).2 ∧ table_kept rows (f rows).2) ->
  tracks (on_accounts f).
Proof.
  intros Hf w Hok. specialize (Hf (accounts w) Hok).
  unfold after, on_accounts. destruct (f (accounts w)) as [r rows]. exact Hf.
Qed.

Ltac tracks_step :=
  first
    [ apply tracks_ret | apply tracks_throw | apply tracks_panic
    | apply tracks_time_Now | apply tracks_time_Sleep | apply tracks_uuid_New
    | apply tracks_log_Printf | apply tracks_record_cas | apply tracks_deref
    | apply tracks_on_transactions | apply tracks_Publish
    | apply tracks_discard | apply tracks_try
    | apply tracks_bind; [|intros ?]
    | match goal with
      | |- tracks (if ?c then _ else _) => destruct c
      | |- tracks (match ?x with _ => _ end) => destruct x
      end ].

Ltac tracks_steps := repeat tracks_step.

(** The repository without the other clients in between. *)

Lemma tracks_GetByID_direct (id : string) :
  tracks (AccountRepository.GetByID NewPostgreSQLAccountRepository id).
Proof.
  apply tracks_idle. intros w. unfold after. unfold_repository.
  destruct (accounts w !! id); reflexivity.
Qed.

Lemma tracks_UpdateBalance_direct (id : string) (newBalance version : Z) :
  tracks (AccountRepository.UpdateBalance NewPostgreSQLAccountRepository
            id newBalance version).
Proof.
  cbn [AccountRepository.UpdateBalance NewPostgreSQLAccountRepository].
  apply tracks_bind; [apply tracks_time_Now|]. intros now.
  apply tracks_on_accounts. intros rows Hok. apply UpdateBalance_tracks, Hok.
Qed.

Lemma tracks_Create_direct (account : Account.t) :
  tracks (AccountRepository.Create NewPostgreSQLAccountRepository account).
Proof.
  cbn [AccountRepository.Create NewPostgreSQLAccountRepository].
  tracks_steps.
  apply tracks_on_accounts. intros rows Hok. apply Create_tracks, Hok.
Qed.

Lemma tracks_after_read (id : string) {B} (m : M Account.t) (k : Account.t -> M B) :
  tracks m ->
  (∀ w a, result m w = Ok a -> accounts (after m w) !! id = Some a) ->
  (∀ a w1, table_ok (accounts w1) -> accounts w1 !! id = Some a ->
     table_ok (accounts (after (k a) w1)) ∧
     table_kept (accounts w1) (accounts (after (k a) w1))) ->
  tracks (bind m k).
Proof.
  intros Hm Hread Hk w Hok. destruct (Hm w Hok) as [Hok1 Hk1].
  specialize (Hread w). unfold result, after, bind in *.
  destruct (m w) as [[a|e|] w1]; cbn in *; try (split; assumption).
  destruct (Hk a w1 Hok1 (Hread a eq_refl)) as [Hok2 Hk2].
  split; [exact Hok2|]. eapply table_kept_trans; eassumption.
Qed.

(** The row that [DeactivateAccount] sends to [Update]. *)
Lemma deactivated_agrees (rows : gmap string Account.t) (id : string)
    (account : Account.t) (updatedAt : Z) (rows2 : gmap string Account.t) :
  well_keyed rows ->
  rows !! id = Some account ->
  table_kept rows rows2 ->
  let account' :=
    Account.mk (Account.ID account) (Account.UserID account)
      (Account.Balance account) (Account.Currency account) "inactive"
      (Account.CreatedAt account) updatedAt (Account.Version account) in
  ∀ stored, rows2 !! Account.ID account' = Some stored ->
    Account.Version stored = Account.Version account' ->
    Account.UserID account' = Account.UserID stored ∧
    Account.Currency account' = Account.Currency stored ∧
    (Account.Status account' = Account.Status stored ∨
     Account.Status account' = "inactive").
Proof.
  intros Hwk Hrow Hkept account' stored Hstored Hv. cbn in *.
  rewrite (Hwk id account Hrow) in Hstored.
  destruct (Hkept id account Hrow) as (row' & Hrow' & Hk).
  rewrite Hstored in Hrow'. injection Hrow' as <-.
  destruct Hk as (_ & Hu & Hc & _). repeat split; try congruence.
  right. reflexivity.
Qed.

Lemma tracks_Deactivate_private (id : string) :
  tracks (AccountUseCase.DeactivateAccount
            (NewAccountUseCase NewPostgreSQLAccountRepository
               NewMongoTransactionRepository) id).
Proof.
  unfold AccountUseCase.DeactivateAccount, NewAccountUseCase.
  cbn [AccountUseCase.accountRepo].
  apply (tracks_after_read id); [apply tracks_GetByID_direct| |].
  - intros w a. unfold result, after. unfold_repository.
    destruct (accounts w !! id) eqn:Hrow; cbn; [|discriminate].
    intros H. injection H as <-. destruct w; exact Hrow.
  - intros account w1 Hok Hrow.
    unfold after, bind, time_Now, on_accounts.
    cbn [AccountRepository.Update NewPostgreSQLAccountRepository].
    unfold bind, time_Now, on_accounts. cbn [fst snd].
    destruct (PostgreSQLAccountRepository.Update _ _ _) as [r rows'] eqn:Hup.
    cbn [accounts set_accounts snd].
    change rows' with ((r, rows').2). rewrite <- Hup. world_simpl.
    apply Update_tracks; [exact Hok|].
    apply (deactivated_agrees (accounts w1) id account); [apply Hok|exact Hrow|].
    apply table_kept_refl.
Qed.

Lemma tracks_CreateAccount_private (userID : string) (initialBalance : Z)
    (currency : string) :
  tracks (AccountUseCase.CreateAccount
            (NewAccountUseCase NewPostgreSQLAccountRepository
               NewMongoTransactionRepository) userID initialBalance currency).
Proof.
  unfold AccountUseCase.CreateAccount, NewAccountUseCase.
  cbn [AccountUseCase.accountRepo].
  repeat first [ apply tracks_Create_direct | tracks_step ].
Qed.

Lemma tracks_other_call (o : Other) : tracks (other_call o).
Proof.
  destruct o; unfold other_call; apply tracks_discard.
  - apply tracks_UpdateBalance_direct.
  - apply tracks_Deactivate_private.
  - apply tracks_CreateAccount_private.
Qed.

Lemma tracks_run_batch (batch : list Other) : tracks (run_batch batch).
Proof.
  induction batch as [|o batch IH]; simpl.
  - apply tracks_ret.
  - apply tracks_bind; [apply tracks_other_call|intros _; exact IH].
Qed.

Lemma tracks_yield : tracks yield.
Proof.
  intros w Hok. rewrite yield_accounts. apply tracks_run_batch, Hok.
Qed.

(** The connection of this process. *)

Lemma tracks_GetByID (id : string) : tracks (AccountRepository.GetByID accountRepo id).
Proof.
  unfold accountRepo, shared. cbn [AccountRepository.GetByID].
  apply tracks_bind; [apply tracks_yield|intros _; apply tracks_GetByID_direct].
Qed.

Lemma tracks_UpdateBalance (id : string) (newBalance version : Z) :
  tracks (AccountRepository.UpdateBalance accountRepo id newBalance version).
Proof.
  unfold accountRepo, shared. cbn [AccountRepository.UpdateBalance].
  apply tracks_bind; [apply tracks_yield|intros _].
  apply tracks_bind; [apply tracks_try, tracks_UpdateBalance_direct|intros r].
  destruct r; tracks_steps.
Qed.

Lemma tracks_Create (account : Account.t) :
  tracks (AccountRepository.Create accountRepo account).
Proof.
  unfold accountRepo, shared. cbn [AccountRepository.Create].
  apply tracks_bind; [apply tracks_yield|intros _; apply tracks_Create_direct].
Qed.

Lemma tracks_UpdateStatus (id : string) (status : TransactionStatus)
    (errorMessage : string) :
  tracks (TransactionRepository.UpdateStatus transactionRepo id status errorMessage).
Proof.
  unfold transactionRepo.
  cbn [TransactionRepository.UpdateStatus NewMongoTransactionRepository].
  tracks_steps.
Qed.

Lemma tracks_journal_Create (transaction : Transaction.t) :
  tracks (TransactionRepository.Create transactionRepo transaction).
Proof.
  unfold transactionRepo.
  cbn [TransactionRepository.Create NewMongoTransactionRepository].
  tracks_steps.
Qed.

Lemma tracks_journal_GetByID (id : string) :
  tracks (TransactionRepository.GetByID transactionRepo id).
Proof.
  unfold transactionRepo.
  cbn [TransactionRepository.GetByID NewMongoTransactionRepository].
  tracks_steps.
Qed.

(** The use cases. *)

Lemma tracks_CreateAccount (userID : string) (initialBalance : Z) (currency : string) :
  tracks (AccountUseCase.CreateAccount accountService userID initialBalance currency).
Proof.
  unfold AccountUseCase.CreateAccount.
  change (AccountUseCase.accountRepo accountService) with accountRepo.
  repeat first [ apply tracks_Create | tracks_step ].
Qed.

Lemma tracks_DeactivateAccount (id : string) :
  tracks (AccountUseCase.DeactivateAccount accountService id).
Proof.
  unfold AccountUseCase.DeactivateAccount.
  change (AccountUseCase.accountRepo accountService) with accountRepo.
  apply (tracks_after_read id); [apply tracks_GetByID| |].
  - intros w a. unfold result, after. rewrite GetByID_shared.
    destruct (accounts (after yield w) !! id) eqn:Hrow; cbn; [|discriminate].
    intros H. injection H as <-. exact Hrow.
  - intros account w1 Hok Hrow.
    unfold after. rewrite bind_apply.
    change (time_Now w1) with (Ok (clock w1), tick w1). cbn beta iota zeta.
    rewrite Update_shared. cbn zeta.
    destruct (tracks_yield (tick w1) Hok) as [Hok2 Hkept].
    change (accounts (tick w1)) with (accounts w1) in Hkept.
    destruct (PostgreSQLAccountRepository.Update _ _ _) as [r rows'] eqn:Hup.
    cbn [accounts set_accounts snd].
    change rows' with ((r, rows').2). rewrite <- Hup.
    destruct (Update_tracks (clock (after yield (tick w1)))
                (Account.mk (Account.ID account) (Account.UserID account)
                   (Account.Balance account) (Account.Currency account) "inactive"
                   (Account.CreatedAt account) (clock w1) (Account.Version account))
                (accounts (after yield (tick w1))) Hok2) as [Hok3 Hk3].
    { apply (deactivated_agrees (accounts w1) id account);
        [apply Hok|exact Hrow|exact Hkept]. }
    split; [exact Hok3|]. eapply table_kept_trans; eassumption.
Qed.

Lemma tracks_ProcessTransactionSync (request : TransactionRequest.t) :
  tracks (TransactionUseCase.ProcessTransactionSync transactionService request).
Proof.
  unfold TransactionUseCase.ProcessTransactionSync,
    TransactionUseCase.processDeposit, TransactionUseCase.processWithdrawal,
    TransactionUseCase.processTransfer.
  change (TransactionUseCase.accountRepo transactionService) with accountRepo.
  change (TransactionUseCase.transactionRepo transactionService) with transactionRepo.
  repeat first
    [ apply tracks_GetByID | apply tracks_UpdateBalance | apply tracks_UpdateStatus
    | tracks_step ].
Qed.

Lemma tracks_handler (msg : Message) :
  tracks (TransactionUseCase.handler transactionService msg).
Proof.
  unfold TransactionUseCase.handler, json_Unmarshal.
  change (TransactionUseCase.transactionRepo transactionService) with transactionRepo.
  repeat first
    [ apply tracks_ProcessTransactionSync | apply tracks_UpdateStatus
    | tracks_step ].
Qed.

Lemma tracks_retry_loop (handler : Message -> M unit) (msg : Message) :
  tracks (handler msg) ->
  ∀ remaining attempt lastErr,
    tracks (RabbitMQQueue.retry_loop remaining attempt lastErr msg handler).
Proof.
  intros Hh. induction remaining as [|n IH]; intros attempt lastErr; simpl.
  - apply tracks_throw.
  - apply tracks_bind; [apply tracks_try, Hh|intros r].
    destruct r; [apply tracks_ret|].
    repeat first [ apply IH | tracks_step ].
Qed.

Lemma tracks_deliver (handler : Message -> M unit) (msg : Message) :
  tracks (handler msg) -> tracks (RabbitMQQueue.deliver handler msg).
Proof.
  intros Hh. unfold RabbitMQQueue.deliver, RabbitMQQueue.processMessageWithRetry.
  apply tracks_bind; [apply tracks_try, tracks_retry_loop, Hh|intros r].
  destruct r; tracks_steps.
Qed.

Lemma tracks_Subscribe (handler : Message -> M unit) (msgs : list Message) :
  (∀ msg, tracks (handler msg)) -> tracks (RabbitMQQueue.Subscribe handler msgs).
Proof.
  intros Hh. induction msgs as [|msg msgs IH]; simpl.
  - apply tracks_ret.
  - apply tracks_bind; [apply tracks_deliver, Hh|intros d].
    apply tracks_bind; [exact IH|intros ds]. apply tracks_ret.
Qed.

Lemma tracks_ProcessTransaction (request : TransactionRequest.t) :
  tracks (TransactionUseCase.ProcessTransaction transactionService request).
Proof.
  unfold TransactionUseCase.ProcessTransaction, json_Marshal.
  change (TransactionUseCase.transactionRepo transactionService) with transactionRepo.
  unfold transactionService, NewTransactionUseCase, NewRabbitMQQueue.
  cbn [TransactionUseCase.queue TransactionUseCase.queueName MessageQueue.Publish].
  repeat first
    [ apply tracks_journal_Create | apply tracks_UpdateStatus
    | tracks_step ].
Qed.

Lemma tracks_CancelTransaction (id : string) :
  tracks (TransactionUseCase.CancelTransaction transactionService id).
Proof.
  unfold TransactionUseCase.CancelTransaction.
  change (TransactionUseCase.transactionRepo transactionService) with transactionRepo.
  repeat first
    [ apply tracks_journal_GetByID | apply tracks_UpdateStatus
    | tracks_step ].
Qed.

Lemma tracks_perform (a : Action) : tracks (perform a).
Proof.
  destruct a; unfold perform; apply tracks_discard.
  - apply tracks_CreateAccount.
  - apply tracks_DeactivateAccount.
  - apply tracks_ProcessTransaction.
  - apply tracks_CancelTransaction.
  - apply tracks_Subscribe, tracks_handler.
Qed.

Lemma tracks_perform_all (actions : list Action) : tracks (perform_all actions).
Proof.
  induction actions as [|a actions IH]; simpl.
  - apply tracks_ret.
  - apply tracks_bind; [apply tracks_perform|intros _; exact IH].
Qed.

(** X18: in every state that account creations, deactivations,
    submissions, cancellations and deliveries can reach, whatever the
    other clients of the table do meanwhile, no two accounts have the same
    owner and the same currency, and every row is stored under its own
    id. *)
Theorem one_account_per_owner_and_currency (w : World) (actions : list Action) :
  well_keyed (accounts w) ->
  unique_owner (accounts w) ->
  let rows := accounts (after (perform_all actions) w) in
  (∀ id1 id2 row1 row2,
     rows !! id1 = Some row1 -> rows !! id2 = Some row2 ->
     Account.UserID row1 = Account.UserID row2 ->
     Account.Currency row1 = Account.Currency row2 ->
     id1 = id2) ∧
  (∀ id row, rows !! id = Some row -> Account.ID row = id).
Proof.
  intros Hwk Huniq rows.
  destruct (tracks_perform_all actions w (conj Hwk Huniq)) as [[Hwk' Huniq'] _].
  split; [exact Huniq'|exact Hwk'].
Qed.

(** X19: no operation of the system or of the other clients deletes an
    account or changes its id, owner, currency or creation time; versions
    never go down; every write increases the version, so a row whose
    version is what it was is entirely what it was; and an inactive
    account never becomes active again. *)
Theorem accounts_are_kept
    (w : World) (actions : list Action) (id : string) (row : Account.t) :
  well_keyed (accounts w) ->
  unique_owner (accounts w) ->
  accounts w !! id = Some row ->
  ∃ row',
    accounts (after (perform_all actions) w) !! id = Some row' ∧
    Account.ID row' = Account.ID row ∧
    Account.UserID row' = Account.UserID row ∧
    Account.Currency row' = Account.Currency row ∧
    Account.CreatedAt row' = Account.CreatedAt row ∧
    Account.Version row <= Account.Version row' ∧
    (Account.Version row' = Account.Version row -> row' = row) ∧
    (Account.Status row = "inactive" -> Account.Status row' = "inactive").
Proof.
  intros Hwk Huniq Hrow.
  destruct (tracks_perform_all actions w (conj Hwk Huniq)) as [_ Hkept].
  destruct (Hkept id row Hrow) as (row' & Hrow' & Hi & Hu & Hc & Ht & Hv & He & Hs).
  exists row'. repeat split; try assumption.
  intros Hin. destruct Hs as [Hs|Hs]; congruence.
Qed.
(** ** Newest first *)

Lemma newer_total {A} (created : A -> Z) :
  Total (λ a b : A, created b <= created a).
Proof. intros a b. lia. Qed.

Lemma newer_trans {A} (created : A -> Z) :
  Transitive (λ a b : A, created b <= created a).
Proof. intros a b c. lia. Qed.

Lemma newest_first_Permutation {A} (created : A -> Z) (l : list A) :
  newest_first created l ≡ₚ l.
Proof. apply sorting.merge_sort_Permutation. Qed.

Lemma newest_first_sorted {A} (created : A -> Z) (l : list A) :
  Sorted.StronglySorted (λ a b, created b <= created a) (newest_first created l).
Proof.
  apply (@sorting.StronglySorted_merge_sort A (λ a b, created b <= created a) _
           (newer_trans created) (newer_total created)).
Qed.

Lemma newest_first_elem_of {A} (created : A -> Z) (l : list A) (a : A) :
  a ∈ newest_first created l ↔ a ∈ l.
Proof. rewrite newest_first_Permutation. reflexivity. Qed.

Lemma newest_first_length {A} (created : A -> Z) (l : list A) :
  length (newest_first created l) = length l.
Proof. rewrite newest_first_Permutation. reflexivity. Qed.

Lemma newest_first_nil {A} (created : A -> Z) (l : list A) :
  newest_first created l = [] ↔ l = [].
Proof.
  pose proof (newest_first_length created l) as Hlen.
  split; intros H.
  - rewrite H in Hlen. destruct l; [reflexivity|discriminate].
  - subst l. reflexivity.
Qed.

Lemma newest_first_head {A} (created : A -> Z) (l : list A) (first : A)
    (rest : list A) :
  newest_first created l = first :: rest ->
  first ∈ l ∧ ∀ a, a ∈ l -> created a <= created first.
Proof.
  intros H. pose proof (newest_first_sorted created l) as Hs. rewrite H in Hs.
  split.
  - apply (newest_first_elem_of created). rewrite H. left.
  - intros a Ha. apply (newest_first_elem_of created) in Ha. rewrite H in Ha.
    apply elem_of_cons in Ha as [->|Ha]; [lia|].
    apply Sorted.StronglySorted_inv in Hs as [_ Hall].
    rewrite Forall_forall in Hall. apply Hall, Ha.
Qed.

Lemma sorted_take {A} (created : A -> Z) (n : nat) (l : list A) :
  Sorted.StronglySorted (λ a b, created b <= created a) l ->
  Sorted.StronglySorted (λ a b, created b <= created a) (take n l).
Proof.
  intros H. rewrite <- (take_drop n l) in H.
  apply sorting.StronglySorted_app in H. apply H.
Qed.

Lemma sorted_drop {A} (created : A -> Z) (n : nat) (l : list A) :
  Sorted.StronglySorted (λ a b, created b <= created a) l ->
  Sorted.StronglySorted (λ a b, created b <= created a) (drop n l).
Proof.
  intros H. rewrite <- (take_drop n l) in H.
  apply sorting.StronglySorted_app in H. apply H.
Qed.

Lemma elem_of_table {V} (m : gmap string V) (v : V) :
  v ∈ (map_to_list m).*2 ↔ ∃ id, m !! id = Some v.
Proof.
  rewrite list_elem_of_fmap. split.
  - intros ([id v'] & -> & H). exists id. apply elem_of_map_to_list in H. exact H.
  - intros (id & H). exists (id, v). split; [reflexivity|].
    apply elem_of_map_to_list. exact H.
Qed.

(** ** Listing accounts *)

(** X21: [ListAccounts] never fails, whatever limit and offset it is given:
    a limit of zero or less means 10, a limit above 100 means 100, and a
    negative offset means 0.  The page it returns holds rows of the table,
    newest first, as many as the page size allows of those that follow
    the offset. *)
Theorem ListAccounts_page (w : World) (limit offset : Z) :
  let rows := accounts (after yield w) in
  let run := AccountService.ListAccounts accountQueries limit offset in
  ∃ page,
    result run w = Ok page ∧
    1 <= page_size limit <= 100 ∧
    length page
      = Nat.min (Z.to_nat (page_size limit))
          (size rows - Z.to_nat (Z.max offset 0)) ∧
    (∀ account, account ∈ page -> ∃ id, rows !! id = Some account) ∧
    Sorted.StronglySorted
      (λ a b, Account.CreatedAt b <= Account.CreatedAt a) page ∧
    after run w = after yield w.
Proof.
  intros rows run. subst run.
  set (all := newest_first Account.CreatedAt (map_to_list rows).*2).
  exists (take (Z.to_nat (page_size limit)) (drop (Z.to_nat (Z.max offset 0)) all)).
  assert (Hsize : 1 <= page_size limit <= 100).
  { unfold page_size. destruct (limit <=? 0) eqn:H; [lia|].
    apply Z.leb_gt in H. lia. }
  assert (Hrun :
    AccountService.ListAccounts accountQueries limit offset w
    = (Ok (take (Z.to_nat (page_size limit))
             (drop (Z.to_nat (Z.max offset 0)) all)), after yield w)).
  { unfold AccountService.ListAccounts, accountQueries, shared_queries.
    cbn [AccountQueries.List NewPostgreSQLAccountQueries].
    rewrite bind_apply, yield_ok. cbn beta iota.
    unfold on_accounts, PostgreSQLAccountQueries.List.
    set (lim := if 100 <? (if limit <=? 0 then 10 else limit) then 100
                else if limit <=? 0 then 10 else limit).
    set (off := if offset <? 0 then 0 else offset).
    assert (Hlim : lim = page_size limit).
    { subst lim. unfold page_size.
      destruct (limit <=? 0) eqn:H1; [reflexivity|].
      destruct (100 <? limit) eqn:H2;
        [apply Z.ltb_lt in H2|apply Z.ltb_ge in H2]; lia. }
    assert (Hoff : off = Z.max offset 0).
    { subst off. destruct (offset <? 0) eqn:H;
        [apply Z.ltb_lt in H|apply Z.ltb_ge in H]; lia. }
    rewrite Hlim, Hoff.
    destruct (page_size limit <? 0) eqn:H1; [apply Z.ltb_lt in H1; lia|].
    destruct (Z.max offset 0 <? 0) eqn:H2; [apply Z.ltb_lt in H2; lia|].
    cbn beta iota. rewrite set_accounts_same. reflexivity. }
  unfold result, after at 1. rewrite Hrun. cbn [fst snd].
  split; [reflexivity|]. split; [exact Hsize|]. split; [|split; [|split]].
  - rewrite length_take, length_drop. subst all.
    rewrite newest_first_length, length_fmap, length_map_to_list. reflexivity.
  - intros account Hin. apply subseteq_take in Hin.
    apply (subseteq_drop (Z.to_nat (Z.max offset 0))) in Hin.
    subst all. apply newest_first_elem_of in Hin.
    apply elem_of_table in Hin. exact Hin.
  - apply sorted_take, sorted_drop. subst all. apply newest_first_sorted.
  - reflexivity.
Qed.

(** X22: [GetAccountsByUser] returns the accounts of the user, all of them
    and no other, newest first; a user without accounts gets the empty
    list, not an error. *)
Theorem GetAccountsByUser_complete (w : World) (userID : string) :
  let rows := accounts (after yield w) in
  let run := AccountService.GetAccountsByUser accountQueries userID in
  ∃ found,
    result run w = Ok found ∧
    (∀ account,
       account ∈ found ↔
       (∃ id, rows !! id = Some account) ∧ Account.UserID account = userID) ∧
    ((∀ id account, rows !! id = Some account -> Account.UserID account ≠ userID) ->
     found = []) ∧
    Sorted.StronglySorted
      (λ a b, Account.CreatedAt b <= Account.CreatedAt a) found ∧
    after run w = after yield w.
Proof.
  intros rows run. subst run.
  set (found := newest_first Account.CreatedAt
                  (filter (λ account, Account.UserID account = userID)
                     (map_to_list rows).*2)).
  exists found.
  assert (Hrun :
    AccountService.GetAccountsByUser accountQueries userID w
    = (Ok found, after yield w)).
  { unfold AccountService.GetAccountsByUser, accountQueries, shared_queries.
    cbn [AccountQueries.GetByUserID NewPostgreSQLAccountQueries].
    rewrite bind_apply, yield_ok. cbn beta iota.
    unfold on_accounts, PostgreSQLAccountQueries.GetByUserID.
    cbn beta iota. rewrite set_accounts_same. reflexivity. }
  unfold result, after at 1. rewrite Hrun. cbn [fst snd].
  assert (Hmem : ∀ account,
            account ∈ found ↔
            (∃ id, rows !! id = Some account) ∧ Account.UserID account = userID).
  { intros account. subst found.
    rewrite newest_first_elem_of, list_elem_of_filter, elem_of_table. tauto. }
  split; [reflexivity|]. split; [exact Hmem|]. split; [|split].
  - intros Hnone. destruct found as [|account rest] eqn:Hf; [reflexivity|].
    exfalso. destruct (proj1 (Hmem account)) as [[id Hrow] Hu]; [left|].
    exact (Hnone id account Hrow Hu).
  - subst found. apply newest_first_sorted.
  - reflexivity.
Qed.

(** ** Queries on the journal *)

Lemma document_lookups (t : Transaction.t) :
  bson.lookup "type" (MongoTransactionQueries.document t)
    = Some (bson.String_ (Transaction.Type_ t)) ∧
  bson.lookup "status" (MongoTransactionQueries.document t)
    = Some (bson.String_ (Transaction.Status t)) ∧
  bson.lookup "created_at" (MongoTransactionQueries.document t)
    = Some (bson.DateTime (Transaction.CreatedAt t)) ∧
  bson.lookup "amount" (MongoTransactionQueries.document t)
    = Some (bson.Double (Transaction.Amount t)) ∧
  bson.lookup "from_account_id" (MongoTransactionQueries.document t)
    = bson.String_ <$> Transaction.FromAccountID t ∧
  bson.lookup "to_account_id" (MongoTransactionQueries.document t)
    = bson.String_ <$> Transaction.ToAccountID t.
Proof.
  unfold MongoTransactionQueries.document, bson.lookup.
  destruct (Transaction.FromAccountID t), (Transaction.ToAccountID t),
    (Transaction.ProcessedAt t), (decide (Transaction.ErrorMessage t = ""));
    repeat split.
Qed.

Lemma holds_account_criterion (t : Transaction.t) (criterion : option string) :
  forallb (bson.holds (MongoTransactionQueries.document t))
    match criterion with
    | Some accountID =>
        [("$or", bson.QOr [[("from_account_id", bson.String_ accountID)];
                           [("to_account_id", bson.String_ accountID)]])]
    | None => []
    end = true
  ↔ ∀ id, criterion = Some id -> involves id t.
Proof.
  destruct (document_lookups t) as (_ & _ & _ & _ & Hfrom & Hto).
  destruct criterion as [accountID|]; [|split; [discriminate|reflexivity]].
  cbn [forallb]. unfold bson.holds. cbn [fst snd existsb forallb].
  unfold bson.holds_eq. cbn [fst snd]. rewrite Hfrom, Hto.
  rewrite (bool_decide_eq_true_2 ("$or" = "$or")) by reflexivity.
  rewrite !andb_true_r, orb_false_r, andb_true_l, orb_true_iff,
    !bool_decide_eq_true.
  unfold involves. split.
  - intros H id Hid. injection Hid as <-.
    destruct (Transaction.FromAccountID t), (Transaction.ToAccountID t);
      cbn in H; destruct H as [H|H]; simplify_eq; auto.
  - intros H. destruct (H accountID eq_refl) as [-> | ->]; cbn; auto.
Qed.

Lemma holds_eq_criterion (doc : bson.D) (key : string) (field : string)
    (criterion : option string) :
  bson.lookup key doc = Some (bson.String_ field) ->
  forallb (bson.holds doc)
    match criterion with
    | Some v => [(key, bson.QEq (bson.String_ v))]
    | None => []
    end = true
  ↔ ∀ v, criterion = Some v -> field = v.
Proof.
  intros Hfield.
  destruct criterion as [v|]; [|split; [discriminate|reflexivity]].
  cbn [forallb]. unfold bson.holds. cbn [fst snd].
  unfold bson.holds_eq. cbn [fst snd]. rewrite Hfield, andb_true_r.
  rewrite bool_decide_eq_true. split.
  - intros H v' Hv'. congruence.
  - intros H. rewrite (H v eq_refl). reflexivity.
Qed.

Lemma holds_range_criterion (doc : bson.D) (key : string) (mk : Z -> bson.value)
    (x : Z) (lo hi : option Z) :
  (∀ a b, bson.le (mk a) (mk b) = (a <=? b)) ->
  bson.lookup key doc = Some (mk x) ->
  forallb (bson.holds doc)
    (if bool_decide (lo ≠ None ∨ hi ≠ None)
     then
       [(key,
         bson.QOps
           (match lo with
            | Some bound => [("$gte", mk bound)]
            | None => []
            end
            ++ match hi with
               | Some bound => [("$lte", mk bound)]
               | None => []
               end))]
     else []) = true
  ↔ (∀ bound, lo = Some bound -> bound <= x) ∧
    (∀ bound, hi = Some bound -> x <= bound).
Proof.
  intros Hle Hfield.
  destruct lo as [l|], hi as [h|];
    [rewrite bool_decide_eq_true_2 by (left; discriminate)
    |rewrite bool_decide_eq_true_2 by (left; discriminate)
    |rewrite bool_decide_eq_true_2 by (right; discriminate)
    |rewrite bool_decide_eq_false_2 by (intros [H|H]; apply H; reflexivity)];
    cbn [forallb app]; unfold bson.holds; cbn [fst snd]; rewrite ?Hfield;
    cbn [forallb]; unfold bson.holds_op; cbn [fst snd];
    repeat first
      [ rewrite Hle | rewrite andb_true_r | rewrite andb_true_iff
      | rewrite Z.leb_le
      | destruct (decide _) as [?|?]; [try (simplify_eq; fail)|try congruence] ].
  - split; [intros [H1 H2]; split; intros ? [= <-]; assumption|].
    intros [H1 H2]. split; [apply H1|apply H2]; reflexivity.
  - split; [intros H; split; [intros ? [= <-]; assumption|discriminate]|].
    intros [H1 _]. apply H1. reflexivity.
  - split; [intros H; split; [discriminate|intros ? [= <-]; assumption]|].
    intros [_ H2]. apply H2. reflexivity.
  - split; [intros _; split; discriminate|reflexivity].
Qed.

Lemma buildMongoFilter_iff (filter : TransactionFilter.t) (t : Transaction.t) :
  bson.matches (MongoTransactionQueries.buildMongoFilter filter)
    (MongoTransactionQueries.document t) = true
  ↔ selects filter t.
Proof.
  destruct (document_lookups t) as (Hty & Hst & Hcr & Ham & _ & _).
  unfold bson.matches, MongoTransactionQueries.buildMongoFilter, selects.
  rewrite !forallb_app, !andb_true_iff.
  rewrite holds_account_criterion.
  rewrite (holds_eq_criterion _ "type" (Transaction.Type_ t)) by exact Hty.
  rewrite (holds_eq_criterion _ "status" (Transaction.Status t)) by exact Hst.
  rewrite (holds_range_criterion _ "created_at" bson.DateTime
             (Transaction.CreatedAt t)) by (try exact Hcr; reflexivity).
  rewrite (holds_range_criterion _ "amount" bson.Double
             (Transaction.Amount t)) by (try exact Ham; reflexivity).
  tauto.
Qed.

(** X23: the query that [buildMongoFilter] builds is satisfied by the
    stored form of a transaction exactly when the transaction meets every
    criterion that the filter gives: the account on one of its two sides,
    the type, the status, the creation time within the two dates and the
    amount within the two bounds, all bounds included.  In particular a
    filter without criteria is satisfied by every transaction. *)
Theorem buildMongoFilter_selects (filter : TransactionFilter.t) (t : Transaction.t) :
  (bson.matches (MongoTransactionQueries.buildMongoFilter filter)
     (MongoTransactionQueries.document t) = true
   ↔ selects filter t) ∧
  bson.matches (MongoTransactionQueries.buildMongoFilter TransactionFilter.zero)
    (MongoTransactionQueries.document t) = true.
Proof.
  split; [apply buildMongoFilter_iff|].
  apply buildMongoFilter_iff. unfold selects. cbn.
  repeat split; discriminate.
Qed.

Lemma elem_of_selected (docs : gmap string Transaction.t)
    (criteria : TransactionFilter.t) (t : Transaction.t) :
  t ∈ filter (λ t, bson.matches (MongoTransactionQueries.buildMongoFilter criteria)
                     (MongoTransactionQueries.document t) = true)
        (map_to_list docs).*2
  ↔ (∃ id, docs !! id = Some t) ∧ selects criteria t.
Proof.
  rewrite list_elem_of_filter, elem_of_table, buildMongoFilter_iff. tauto.
Qed.

Lemma GetByAccountID_run (w : World) (accountID : string)
    (filter : option TransactionFilter.t) :
  let criteria :=
    TransactionFilter.with_AccountID accountID
      (default TransactionFilter.zero filter) in
  TransactionQueries.GetByAccountID transactionQueries accountID filter w
  = (Ok (MongoTransactionQueries.Find
           (MongoTransactionQueries.buildMongoFilter criteria)
           (if 0 <? TransactionFilter.Offset criteria
            then Some (TransactionFilter.Offset criteria) else None)
           (if 0 <? TransactionFilter.Limit criteria
            then Some (TransactionFilter.Limit criteria) else None)
           (transactions w)), w).
Proof.
  intros criteria. unfold transactionQueries.
  cbn [TransactionQueries.GetByAccountID NewMongoTransactionQueries].
  unfold on_transactions, MongoTransactionQueries.GetByAccountID,
    MongoTransactionQueries.GetByFilter. fold criteria. cbn beta iota zeta.
  rewrite set_transactions_same. reflexivity.
Qed.

(** X24: the history of an account consists of the journaled transactions
    that have the account as source or destination (the account id given
    in the filter itself is overridden) and that meet the other criteria
    of the filter, newest first; from this list the first [Offset] entries
    are skipped when [Offset] is positive, and what follows is cut to
    [Limit] entries when [Limit] is positive (zero and negative limits do
    not limit).  A nil filter gives the whole history.  Nothing is
    changed. *)
Theorem GetTransactionHistory_selects
    (w : World) (accountID : string) (filter : option TransactionFilter.t) :
  let criteria :=
    TransactionFilter.with_AccountID accountID
      (default TransactionFilter.zero filter) in
  let run :=
    TransactionService.GetTransactionHistory transactionQueries accountID filter in
  ∃ all,
    (∀ t, t ∈ all ↔ (∃ id, transactions w !! id = Some t) ∧ selects criteria t) ∧
    (∀ t, t ∈ all -> involves accountID t) ∧
    Sorted.StronglySorted
      (λ a b, Transaction.CreatedAt b <= Transaction.CreatedAt a) all ∧
    (let skipped :=
       if 0 <? TransactionFilter.Offset criteria
       then drop (Z.to_nat (TransactionFilter.Offset criteria)) all else all in
     let page :=
       if 0 <? TransactionFilter.Limit criteria
       then take (Z.to_nat (TransactionFilter.Limit criteria)) skipped
       else skipped in
     result run w = Ok page) ∧
    (filter = None -> result run w = Ok all) ∧
    after run w = w.
Proof.
  intros criteria run. subst run.
  unfold TransactionService.GetTransactionHistory, result, after.
  rewrite GetByAccountID_run. fold criteria. cbn [fst snd].
  set (all := newest_first Transaction.CreatedAt
                (base.filter
                   (λ t, bson.matches
                           (MongoTransactionQueries.buildMongoFilter criteria)
                           (MongoTransactionQueries.document t) = true)
                   (map_to_list (transactions w)).*2)).
  exists all.
  assert (Hmem : ∀ t, t ∈ all ↔
            (∃ id, transactions w !! id = Some t) ∧ selects criteria t).
  { intros t. subst all. rewrite newest_first_elem_of. apply elem_of_selected. }
  split; [exact Hmem|]. split; [|split; [|split; [|split]]].
  - intros t Ht. apply Hmem in Ht as [_ (Hacc & _)].
    apply (Hacc accountID). reflexivity.
  - subst all. apply newest_first_sorted.
  - cbn zeta. unfold MongoTransactionQueries.Find. fold all.
    destruct (0 <? TransactionFilter.Offset criteria),
      (0 <? TransactionFilter.Limit criteria); reflexivity.
  - intros ->. reflexivity.
  - reflexivity.
Qed.

Lemma selects_account_only (id : string) (limit : Z) (t : Transaction.t) :
  selects (TransactionFilter.with_Limit limit
             (TransactionFilter.with_AccountID id TransactionFilter.zero)) t
  ↔ involves id t.
Proof.
  unfold selects. cbn. split.
  - intros (H & _). apply H. reflexivity.
  - intros H. repeat split; try discriminate. intros id' [= <-]. exact H.
Qed.

Lemma NoDup_fst_filter {K V} (P : K * V -> Prop) `{∀ kv, Decision (P kv)}
    (l : list (K * V)) :
  NoDup l.*1 -> NoDup (filter P l).*1.
Proof.
  induction l as [|kv l IH]; [intros; constructor|].
  rewrite fmap_cons. intros Hnd. apply NoDup_cons in Hnd as [Hnotin Hnd].
  rewrite filter_cons. destruct (decide (P kv)); [|apply IH, Hnd].
  rewrite fmap_cons. apply NoDup_cons. split; [|apply IH, Hnd].
  intros Hin. apply Hnotin.
  apply list_elem_of_fmap in Hin as (kv' & Hk & Hin).
  apply list_elem_of_filter in Hin as [_ Hin].
  apply list_elem_of_fmap. exists kv'. split; assumption.
Qed.

Lemma filter_snd_length {K V} (P : V -> Prop) `{∀ v, Decision (P v)}
    (l : list (K * V)) :
  length (filter P l.*2) = length (filter (λ kv, P kv.2) l).
Proof.
  induction l as [|kv l IH]; [reflexivity|].
  rewrite fmap_cons, !filter_cons.
  destruct (decide (P kv.2)); cbn [length]; rewrite IH; reflexivity.
Qed.

Lemma counted_ids (docs : gmap string Transaction.t) (P : Transaction.t -> Prop)
    `{∀ t, Decision (P t)} :
  ∃ ids : list string,
    NoDup ids ∧
    (∀ id, id ∈ ids ↔ ∃ t, docs !! id = Some t ∧ P t) ∧
    length (filter P (map_to_list docs).*2) = length ids.
Proof.
  exists (filter (λ kv, P kv.2) (map_to_list docs)).*1.
  split; [|split].
  - apply NoDup_fst_filter, NoDup_fst_map_to_list.
  - intros id. rewrite list_elem_of_fmap. split.
    + intros ([id' t] & -> & Hin). apply list_elem_of_filter in Hin as [HP Hin].
      apply elem_of_map_to_list in Hin. exists t. split; assumption.
    + intros (t & Hlook & HP). exists (id, t). split; [reflexivity|].
      apply list_elem_of_filter. split; [exact HP|].
      apply elem_of_map_to_list, Hlook.
  - rewrite length_fmap. apply filter_snd_length.
Qed.

Lemma Count_run (w : World) (criteria : TransactionFilter.t) :
  TransactionQueries.Count transactionQueries (Some criteria) w
  = (Ok (Z.of_nat
           (length (base.filter
                      (λ t, bson.matches
                              (MongoTransactionQueries.buildMongoFilter criteria)
                              (MongoTransactionQueries.document t) = true)
                      (map_to_list (transactions w)).*2))), w).
Proof.
  unfold transactionQueries.
  cbn [TransactionQueries.Count NewMongoTransactionQueries].
  unfold on_transactions, MongoTransactionQueries.Count. cbn beta iota zeta.
  rewrite set_transactions_same. reflexivity.
Qed.

Lemma GetByAccountID_latest (w : World) (id : string) :
  TransactionQueries.GetByAccountID transactionQueries id
    (Some (TransactionFilter.with_Limit 1
             (TransactionFilter.with_AccountID id TransactionFilter.zero))) w
  = (Ok (take 1
           (newest_first Transaction.CreatedAt
              (base.filter
                 (λ t, bson.matches
                         (MongoTransactionQueries.buildMongoFilter
                            (TransactionFilter.with_AccountID id
                               TransactionFilter.zero))
                         (MongoTransactionQueries.document t) = true)
                 (map_to_list (transactions w)).*2))), w).
Proof. rewrite GetByAccountID_run. reflexivity. Qed.

(** X25: the summary of an account that is not found is refused with
    [ErrAccountNotFound].  Otherwise the summary carries the account as it
    is read, the number of journaled transactions that have the account as
    source or destination, and the latest creation time among these
    transactions: no time when there is no such transaction, and otherwise
    the creation time of one of them that none of them exceeds.  Nothing
    is changed by the summary itself. *)
Theorem GetAccountSummary_counts (w : World) (id : string) :
  let run := AccountService.GetAccountSummary accountService transactionQueries id in
  let read := after yield w in
  match accounts read !! id with
  | None => result run w = Fail ErrAccountNotFound
  | Some account =>
      ∃ summary,
        result run w = Ok summary ∧
        AccountSummary.Account_ summary = account ∧
        (∃ ids : list string,
           NoDup ids ∧
           (∀ tid, tid ∈ ids ↔
                   ∃ t, transactions w !! tid = Some t ∧ involves id t) ∧
           AccountSummary.TransactionCount summary = Z.of_nat (length ids)) ∧
        match AccountSummary.LastTransactionAt summary with
        | None => ∀ tid t, transactions w !! tid = Some t -> ¬ involves id t
        | Some last =>
            (∃ tid t, transactions w !! tid = Some t ∧ involves id t ∧
                      Transaction.CreatedAt t = last) ∧
            (∀ tid t, transactions w !! tid = Some t -> involves id t ->
                      Transaction.CreatedAt t <= last)
        end
  end ∧
  after run w = read.
Proof.
  intros run read. subst run.
  unfold AccountService.GetAccountSummary, result, after.
  change (AccountUseCase.accountRepo accountService) with accountRepo.
  rewrite bind_apply, GetByID_shared. fold read.
  destruct (accounts read !! id) as [account|] eqn:Hrow;
    [|split; reflexivity].
  cbn beta iota zeta.
  rewrite bind_apply, Count_run. cbn beta iota zeta.
  rewrite bind_apply, GetByAccountID_latest. cbn beta iota zeta.
  assert (Hdocs : transactions read = transactions w)
    by apply yield_transactions.
  rewrite Hdocs.
  set (wide := TransactionFilter.with_AccountID id TransactionFilter.zero).
  set (found := base.filter
                  (λ t, bson.matches
                          (MongoTransactionQueries.buildMongoFilter wide)
                          (MongoTransactionQueries.document t) = true)
                  (map_to_list (transactions w)).*2).
  assert (Hfound : ∀ t, t ∈ found ↔
            (∃ tid, transactions w !! tid = Some t) ∧ involves id t).
  { intros t. subst found. rewrite elem_of_selected.
    rewrite <- (selects_account_only id 0 t). reflexivity. }
  destruct (counted_ids (transactions w)
              (λ t, bson.matches
                      (MongoTransactionQueries.buildMongoFilter wide)
                      (MongoTransactionQueries.document t) = true))
    as (ids & Hnd & Hids & Hlen).
  fold found in Hlen.
  split; [|reflexivity].
  eexists. split; [reflexivity|]. cbn [fst snd].
  cbn [AccountSummary.Account_ AccountSummary.TransactionCount
       AccountSummary.LastTransactionAt].
  split; [reflexivity|]. split.
  { exists ids. split; [exact Hnd|]. split; [|rewrite Hlen; reflexivity].
    intros tid. rewrite Hids. split.
    - intros (t & Hlook & Hm). exists t. split; [exact Hlook|].
      apply buildMongoFilter_iff in Hm.
      apply (proj1 (selects_account_only id 0 t)). exact Hm.
    - intros (t & Hlook & Hin). exists t. split; [exact Hlook|].
      apply buildMongoFilter_iff.
      apply (proj2 (selects_account_only id 0 t)). exact Hin. }
  destruct (newest_first Transaction.CreatedAt found) as [|first rest] eqn:Hsorted.
  - cbn. apply newest_first_nil in Hsorted.
    intros tid t Hlook Hin.
    assert (t ∈ found) as Hmem by (apply Hfound; eauto).
    rewrite Hsorted in Hmem. inversion Hmem.
  - cbn. apply newest_first_head in Hsorted as [Hmem Hmax]. split.
    + apply Hfound in Hmem as [(tid & Hlook) Hin]. exists tid, first. auto.
    + intros tid t Hlook Hin. apply Hmax, Hfound. eauto.
Qed.

(** X26: the transactions found by a filter are the journaled transactions
    that meet every criterion of the filter, newest first, without the
    first [Offset] of them when [Offset] is positive and cut to [Limit]
    when [Limit] is positive; a filter without criteria and without limit
    gives the whole journal.  A nil filter is dereferenced: the call
    panics, where [GetTransactionHistory] takes a nil filter for the
    empty one.  Nothing is changed. *)
Theorem GetTransactionsByFilter_selects
    (w : World) (filter : option TransactionFilter.t) :
  let run := TransactionService.GetTransactionsByFilter transactionQueries filter in
  match filter with
  | None => result run w = Panic
  | Some criteria =>
      ∃ all,
        (∀ t, t ∈ all ↔
              (∃ id, transactions w !! id = Some t) ∧ selects criteria t) ∧
        Sorted.StronglySorted
          (λ a b, Transaction.CreatedAt b <= Transaction.CreatedAt a) all ∧
        (let skipped :=
           if 0 <? TransactionFilter.Offset criteria
           then drop (Z.to_nat (TransactionFilter.Offset criteria)) all
           else all in
         let page :=
           if 0 <? TransactionFilter.Limit criteria
           then take (Z.to_nat (TransactionFilter.Limit criteria)) skipped
           else skipped in
         result run w = Ok page) ∧
        (criteria = TransactionFilter.zero ->
         result run w = Ok all ∧
         ∀ id t, transactions w !! id = Some t -> t ∈ all)
  end ∧
  after run w = w.
Proof.
  intros run. subst run.
  unfold TransactionService.GetTransactionsByFilter, result, after,
    transactionQueries.
  cbn [TransactionQueries.GetByFilter NewMongoTransactionQueries].
  unfold on_transactions, MongoTransactionQueries.GetByFilter.
  destruct filter as [criteria|]; cbn beta iota zeta;
    rewrite set_transactions_same; [|split; reflexivity].
  split; [|reflexivity]. cbn [fst].
  set (all := newest_first Transaction.CreatedAt
                (base.filter
                   (λ t, bson.matches
                           (MongoTransactionQueries.buildMongoFilter criteria)
                           (MongoTransactionQueries.document t) = true)
                   (map_to_list (transactions w)).*2)).
  exists all.
  assert (Hmem : ∀ t, t ∈ all ↔
            (∃ id, transactions w !! id = Some t) ∧ selects criteria t).
  { intros t. subst all. rewrite newest_first_elem_of. apply elem_of_selected. }
  split; [exact Hmem|]. split; [|split].
  - subst all. apply newest_first_sorted.
  - unfold MongoTransactionQueries.Find. fold all.
    destruct (0 <? TransactionFilter.Offset criteria),
      (0 <? TransactionFilter.Limit criteria); reflexivity.
  - intros Hzero. split.
    + subst criteria. reflexivity.
    + intros id t Hlook. apply Hmem. split; [eauto|].
      subst criteria. unfold selects. cbn. repeat split; discriminate.
Qed.
(** * Where the specification and the code part *)

(** C7: a deposit that was cancelled while pending and whose message is
    then delivered is applied, and its document goes from cancelled to
    completed. *)
Lemma cancelled_then_completed :
  let request :=
    TransactionRequest.mk "tx-1" TransactionTypeDeposit None (Some "acc-1")
      100 "USD" "" "" "" in
  let w :=
    mkWorld
      (<["acc-1" := Account.mk "acc-1" "alice" 500 "USD" "active" 0 0 3]> ∅)
      (<["tx-1" := Transaction.mk "tx-1" TransactionTypeDeposit None (Some "acc-1")
                     100 "USD" TransactionStatusPending "" "" "" 1 1 None ""]> ∅)
      (mkBroker None None ∅) [] 10 [] [] [] in
  let w1 := after (TransactionUseCase.CancelTransaction transactionService "tx-1") w in
  let w2 :=
    after (TransactionUseCase.StartTransactionProcessor transactionService
             [Encoded request]) w1 in
  Transaction.Status <$> transactions w1 !! "tx-1" = Some TransactionStatusCancelled ∧
  result (TransactionUseCase.StartTransactionProcessor transactionService
            [Encoded request]) w1 = Ok [RabbitMQQueue.Ack] ∧
  Transaction.Status <$> transactions w2 !! "tx-1" = Some TransactionStatusCompleted ∧
  Account.Balance <$> accounts w2 !! "acc-1" = Some 600.
Proof. vm_compute. repeat split. Qed.

(** C2: the message of a deposit of 100 is delivered twice.  The first
    delivery completes the transaction; the second one finds the document
    completed, credits the account again and is acknowledged. *)
Lemma redelivery_applies_again :
  let request :=
    TransactionRequest.mk "tx-1" TransactionTypeDeposit None (Some "acc-1")
      100 "USD" "" "" "" in
  let w :=
    mkWorld
      (<["acc-1" := Account.mk "acc-1" "alice" 500 "USD" "active" 0 0 3]> ∅)
      (<["tx-1" := Transaction.mk "tx-1" TransactionTypeDeposit None (Some "acc-1")
                     100 "USD" TransactionStatusPending "" "" "" 1 1 None ""]> ∅)
      (mkBroker None None ∅) [] 10 [] [] [] in
  let run :=
    RabbitMQQueue.deliver (TransactionUseCase.handler transactionService)
      (Encoded request) in
  let w1 := after run w in
  let w2 := after run w1 in
  Transaction.Status <$> transactions w1 !! "tx-1" = Some TransactionStatusCompleted ∧
  Account.Balance <$> accounts w1 !! "acc-1" = Some 600 ∧
  result run w1 = Ok RabbitMQQueue.Ack ∧
  Account.Balance <$> accounts w2 !! "acc-1" = Some 700 ∧
  Account.Version <$> accounts w2 !! "acc-1" = Some 5.
Proof. vm_compute. repeat split. Qed.

(** C9: a withdrawal of 200 from a balance of 100 fails with
    ErrInsufficientFunds, and the handler is invoked for it three times. *)
Lemma insufficient_funds_is_retried :
  let request :=
    TransactionRequest.mk "tx-1" TransactionTypeWithdrawal (Some "acc-1") None
      200 "USD" "" "" "" in
  let w :=
    mkWorld
      (<["acc-1" := Account.mk "acc-1" "alice" 100 "USD" "active" 0 0 1]> ∅)
      (<["tx-1" := Transaction.mk "tx-1" TransactionTypeWithdrawal (Some "acc-1") None
                     200 "USD" TransactionStatusPending "" "" "" 1 1 None ""]> ∅)
      (mkBroker None None ∅) [] 10 [] [] [] in
  let run :=
    RabbitMQQueue.deliver (TransactionUseCase.handler transactionService)
      (Encoded request) in
  result (TransactionUseCase.handler transactionService (Encoded request)) w
    = Fail ErrInsufficientFunds ∧
  result run w = Ok (RabbitMQQueue.Nack false) ∧
  logs (after run w) =
    [ LogProcessing "tx-1"; LogProcessFailed "tx-1" ErrInsufficientFunds;
      LogAttemptFailed 1 3 ErrInsufficientFunds;
      LogProcessing "tx-1"; LogProcessFailed "tx-1" ErrInsufficientFunds;
      LogAttemptFailed 2 3 ErrInsufficientFunds;
      LogProcessing "tx-1"; LogProcessFailed "tx-1" ErrInsufficientFunds;
      LogAttemptFailed 3 3 ErrInsufficientFunds;
      LogRetriesExhausted (Errorf "failed after 3 attempts" ErrInsufficientFunds) ].
Proof. vm_compute. repeat split. Qed.

(** C3: a transfer of 150 from a source with balance 1000.  While it is
    in flight another client deactivates both accounts.  The debit is
    applied, the credit is refused, and the compensation, which expects
    the version that the debit left and does not read the row again, is
    refused as well: the source stays at 850, also after the retries of
    the delivery. *)
Lemma compensation_lost :
  let request :=
    sample_request "tx-1" TransactionTypeTransfer (Some "acc-A") (Some "acc-B") 150 in
  let w :=
    sample_world
      (<["acc-A" := sample_account "acc-A" "alice" 1000 1]>
         (<["acc-B" := sample_account "acc-B" "bob" 500 1]> ∅))
      (<["tx-1" := sample_transaction "tx-1" TransactionTypeTransfer
                     (Some "acc-A") (Some "acc-B") 150 TransactionStatusPending]> ∅)
      [[]; []; [];
       [OtherDeactivateAccount "acc-B"; OtherDeactivateAccount "acc-A"]] in
  let run :=
    RabbitMQQueue.deliver (TransactionUseCase.handler transactionService)
      (Encoded request) in
  audit (after run w)
    = [mkCas "acc-A" 850 1 true; mkCas "acc-B" 650 1 false;
       mkCas "acc-A" 1000 2 false] ∧
  Account.Balance <$> accounts (after run w) !! "acc-A" = Some 850 ∧
  Account.Balance <$> accounts (after run w) !! "acc-B" = Some 500 ∧
  Transaction.Status <$> transactions (after run w) !! "tx-1"
    = Some TransactionStatusFailed.
Proof. vm_compute. repeat split. Qed.
(** * Instances on concrete data *)


Lemma withdrawal_insufficient_funds_witness :
  let request := sample_request "tx-1" TransactionTypeWithdrawal (Some "acc-1") None 200 in
  let account := sample_account "acc-1" "alice" 100 1 in
  let w :=
    sample_world (<["acc-1" := account]> ∅)
      (<["tx-1" := sample_transaction "tx-1" TransactionTypeWithdrawal
                     (Some "acc-1") None 200 TransactionStatusPending]> ∅) [] in
  let run := TransactionUseCase.handler transactionService (Encoded request) in
  result run w = Fail ErrInsufficientFunds ∧
  accounts (after run w) = accounts (after yield w) ∧
  accounts (after run w) !! "acc-1" = Some account ∧
  audit (after run w) = audit w ∧
  ∃ marked,
    transactions (after run w) !! "tx-1" = Some marked ∧
    Transaction.Status marked = TransactionStatusFailed ∧
    Transaction.ErrorMessage marked = "insufficient funds".
Proof.
  intros request account w.
  apply (withdrawal_insufficient_funds w request "acc-1" account
           (sample_transaction "tx-1" TransactionTypeWithdrawal
              (Some "acc-1") None 200 TransactionStatusPending));
    vm_compute; reflexivity.
Defined.

Lemma ProcessTransaction_publish_failure_witness :
  let request := sample_request "tx-1" TransactionTypeDeposit None (Some "acc-1") 100 in
  let perr := Errorf "failed to publish message" (External "channel/connection is not open") in
  let w :=
    mkWorld (<["acc-1" := sample_account "acc-1" "alice" 500 3]> ∅) ∅
      (mkBroker None (Some (External "channel/connection is not open")) ∅)
      [] 10 [] [] [] in
  let w' := after (TransactionUseCase.ProcessTransaction transactionService request) w in
  result (TransactionUseCase.ProcessTransaction transactionService request) w
    = Fail (Errorf "failed to publish transaction" perr) ∧
  Transaction.Status <$> transactions w' !! "tx-1" = Some TransactionStatusFailed ∧
  Transaction.ErrorMessage <$> transactions w' !! "tx-1"
    = Some "failed to publish message: channel/connection is not open".
Proof.
  intros request perr w w'.
  destruct (ProcessTransaction_publish_failure w request perr)
    as (Hr & (doc & Hdoc & Hst & Hmsg & _) & _).
  - vm_compute; reflexivity.
  - vm_compute; discriminate.
  - vm_compute; reflexivity.
  - vm_compute; reflexivity.
  - split; [exact Hr|].
    change (assigned_id request w) with "tx-1" in Hdoc.
    fold w' in Hdoc. rewrite Hdoc. simpl. rewrite Hst, Hmsg. split; reflexivity.
Defined.

Lemma status_guarded_by_cancellation_only_witness :
  let stored :=
    sample_transaction "tx-1" TransactionTypeDeposit None (Some "acc-1") 100
      TransactionStatusCompleted in
  let w := sample_world ∅ (<["tx-1" := stored]> ∅) [] in
  TransactionUseCase.CancelTransaction transactionService "tx-1" w
    = (Fail ErrTransactionAlreadyProcessed, w) ∧
  MongoTransactionRepository.UpdateStatus 20 21 "tx-1" TransactionStatusPending ""
      (transactions w)
    = (Ok tt, <["tx-1" := status_doc stored TransactionStatusPending "" 20 21]>
                (transactions w)).
Proof.
  intros stored w.
  destruct (status_guarded_by_cancellation_only w "tx-1" stored
              TransactionStatusPending "" 20 21) as (Hc & Hm & _).
  - vm_compute; reflexivity.
  - split; [apply Hc; vm_compute; discriminate|exact Hm].
Defined.

Lemma delivery_blind_to_journal_witness :
  let request := sample_request "tx-1" TransactionTypeDeposit None (Some "acc-1") 100 in
  let rows : gmap string Account.t :=
    <["acc-1" := sample_account "acc-1" "alice" 500 3]> ∅ in
  let w1 :=
    sample_world rows
      (<["tx-1" := sample_transaction "tx-1" TransactionTypeDeposit None
                     (Some "acc-1") 100 TransactionStatusPending]> ∅) [] in
  let w2 :=
    sample_world rows
      (<["tx-1" := sample_transaction "tx-1" TransactionTypeDeposit None
                     (Some "acc-1") 100 TransactionStatusCompleted]> ∅) [] in
  let run :=
    RabbitMQQueue.deliver (TransactionUseCase.handler transactionService)
      (Encoded request) in
  result run w1 = result run w2 ∧
  accounts (after run w1) = accounts (after run w2) ∧
  audit (after run w1) = audit (after run w2) ∧
  logs (after run w1) = logs (after run w2).
Proof.
  intros request rows w1 w2.
  apply (delivery_blind_to_journal w1 w2 (Encoded request)).
  repeat split; try reflexivity.
  - intros [d H]. destruct (decide (id = "tx-1")) as [->|Hne].
    + eexists. apply lookup_insert_eq.
    + exfalso. revert H. unfold w1, sample_world. simpl.
      rewrite lookup_insert_ne, lookup_empty by congruence. discriminate.
  - intros [d H]. destruct (decide (id = "tx-1")) as [->|Hne].
    + eexists. apply lookup_insert_eq.
    + exfalso. revert H. unfold w2, sample_world. simpl.
      rewrite lookup_insert_ne, lookup_empty by congruence. discriminate.
Defined.

Lemma business_failure_is_retried_witness :
  let request := sample_request "tx-1" TransactionTypeWithdrawal (Some "acc-1") None 200 in
  let w :=
    sample_world (<["acc-1" := sample_account "acc-1" "alice" 100 1]> ∅)
      (<["tx-1" := sample_transaction "tx-1" TransactionTypeWithdrawal
                     (Some "acc-1") None 200 TransactionStatusPending]> ∅) [] in
  let run :=
    RabbitMQQueue.deliver (TransactionUseCase.handler transactionService)
      (Encoded request) in
  result run w = Ok (RabbitMQQueue.Nack false) ∧
  accounts (after run w) = accounts w ∧
  audit (after run w) = audit w.
Proof.
  intros request w run.
  destruct (business_failure_is_retried w request ErrInsufficientFunds)
    as (Hr & _ & Ha & Hau & _).
  - left. reflexivity.
  - reflexivity.
  - vm_compute. reflexivity.
  - auto.
Defined.

Lemma balances_never_negative_witness :
  let w :=
    sample_world (<["acc-1" := sample_account "acc-1" "alice" 100 1]> ∅)
      (<["tx-1" := sample_transaction "tx-1" TransactionTypeWithdrawal
                     (Some "acc-1") None 200 TransactionStatusPending]> ∅)
      [[OtherUpdateBalance "acc-1" 0 1]] in
  let actions :=
    [ ActDeliver (Encoded (sample_request "tx-1" TransactionTypeWithdrawal
                             (Some "acc-1") None 200));
      ActCreateAccount "bob" 50 "USD" ] in
  (well_keyed (accounts w) ∧ nonneg (accounts w) ∧ schedule_nonneg (others w)) ∧
  (∀ id account,
     accounts (after (perform_all actions) w) !! id = Some account ->
     0 <= Account.Balance account).
Proof.
  intros w actions.
  assert (Hwk : well_keyed (accounts w)).
  { apply map_Forall_insert_2; [reflexivity|apply map_Forall_empty]. }
  assert (Hnn : nonneg (accounts w)).
  { apply map_Forall_insert_2; [cbn; lia|apply map_Forall_empty]. }
  assert (Hs : schedule_nonneg (others w)).
  { repeat constructor. cbn. lia. }
  split; [repeat split; assumption|].
  apply (balances_never_negative w actions Hwk Hnn Hs).
Defined.

Lemma transfer_compensation_witness :
  let request :=
    sample_request "tx-1" TransactionTypeTransfer (Some "acc-A") (Some "acc-B") 150 in
  let w :=
    sample_world
      (<["acc-A" := sample_account "acc-A" "alice" 1000 1]>
         (<["acc-B" := sample_account "acc-B" "bob" 500 1]> ∅))
      (<["tx-1" := sample_transaction "tx-1" TransactionTypeTransfer
                     (Some "acc-A") (Some "acc-B") 150 TransactionStatusPending]> ∅)
      [[]; []; []; [OtherDeactivateAccount "acc-B"]] in
  let run := TransactionUseCase.handler transactionService (Encoded request) in
  ∃ final,
    accounts (after run w) !! "acc-A" = Some final ∧
    Account.Balance final = 1000 ∧ Account.Version final = 3 ∧
    result run w = Fail ErrConcurrentUpdate.
Proof.
  intros request w run.
  destruct (transfer_compensation w request "acc-A" "acc-B"
              (mkCas "acc-A" 850 1 true) (mkCas "acc-B" 650 1 false)
              [mkCas "acc-A" 1000 2 true])
    as (fromAccount & final & Hread & _ & _ & Hfinal & Hb & Hv & Hr & _).
  - reflexivity.
  - reflexivity.
  - reflexivity.
  - reflexivity.
  - apply map_Forall_insert_2; [reflexivity|].
    apply map_Forall_insert_2; [reflexivity|apply map_Forall_empty].
  - vm_compute. reflexivity.
  - reflexivity.
  - reflexivity.
  - repeat constructor.
  - assert (Hrow : accounts (after yield w) !! "acc-A"
                   = Some (sample_account "acc-A" "alice" 1000 1))
      by (vm_compute; reflexivity).
    rewrite Hrow in Hread. injection Hread as <-.
    exists final. repeat split; assumption.
Defined.

(** ** Deposits, withdrawals and transfers on concrete data *)

Lemma deposit_rejected_witness :
  let request :=
    sample_request "tx-1" TransactionTypeDeposit None (Some "acc-1") 50 in
  let w :=
    sample_world
      (<["acc-1" := Account.mk "acc-1" "alice" 100 "EUR" "inactive" 0 0 1]> ∅)
      (<["tx-1" := sample_transaction "tx-1" TransactionTypeDeposit
                     None (Some "acc-1") 50 TransactionStatusPending]> ∅) [] in
  let run := TransactionUseCase.handler transactionService (Encoded request) in
  result run w = Fail ErrAccountInactive ∧
  accounts (after run w) = accounts (after yield w) ∧
  audit (after run w) = audit w ∧
  (is_Some (transactions w !! "tx-1") ->
   ∃ marked,
     transactions (after run w) !! "tx-1" = Some marked ∧
     Transaction.Status marked = TransactionStatusFailed ∧
     Transaction.ErrorMessage marked = "account is inactive").
Proof.
  intros request w run.
  apply (deposit_rejected w request "acc-1" ErrAccountInactive); reflexivity.
Defined.

Lemma withdrawal_rejected_witness :
  let request :=
    sample_request "tx-1" TransactionTypeWithdrawal (Some "acc-1") None 50 in
  let w :=
    sample_world
      (<["acc-1" := Account.mk "acc-1" "alice" 10 "EUR" "active" 0 0 1]> ∅)
      (<["tx-1" := sample_transaction "tx-1" TransactionTypeWithdrawal
                     (Some "acc-1") None 50 TransactionStatusPending]> ∅) [] in
  let run := TransactionUseCase.handler transactionService (Encoded request) in
  result run w = Fail ErrCurrencyMismatch ∧
  accounts (after run w) = accounts (after yield w) ∧
  audit (after run w) = audit w ∧
  (is_Some (transactions w !! "tx-1") ->
   ∃ marked,
     transactions (after run w) !! "tx-1" = Some marked ∧
     Transaction.Status marked = TransactionStatusFailed ∧
     Transaction.ErrorMessage marked = "currency mismatch").
Proof.
  intros request w run.
  apply (withdrawal_rejected w request "acc-1" ErrCurrencyMismatch); reflexivity.
Defined.

Lemma transfer_rejected_witness :
  let request :=
    sample_request "tx-1" TransactionTypeTransfer (Some "acc-A") (Some "acc-B") 150 in
  let w :=
    sample_world
      (<["acc-A" := sample_account "acc-A" "alice" 100 1]>
         (<["acc-B" := Account.mk "acc-B" "bob" 500 "USD" "inactive" 0 0 1]> ∅))
      (<["tx-1" := sample_transaction "tx-1" TransactionTypeTransfer
                     (Some "acc-A") (Some "acc-B") 150 TransactionStatusPending]> ∅)
      [] in
  let run := TransactionUseCase.handler transactionService (Encoded request) in
  result run w = Fail ErrAccountInactive ∧
  audit (after run w) = audit w ∧
  accounts (after run w) = accounts w ∧
  (is_Some (transactions w !! "tx-1") ->
   ∃ marked,
     transactions (after run w) !! "tx-1" = Some marked ∧
     Transaction.Status marked = TransactionStatusFailed ∧
     Transaction.ErrorMessage marked = "account is inactive").
Proof.
  intros request w run.
  apply (transfer_rejected w request "acc-A" "acc-B" ErrAccountInactive);
    reflexivity.
Defined.




(** ** Retries and submission on concrete data *)




Lemma ProcessTransaction_refuses_known_id_witness :
  let request :=
    sample_request "tx-1" TransactionTypeDeposit None (Some "acc-1") 50 in
  let existing :=
    sample_transaction "tx-1" TransactionTypeWithdrawal (Some "acc-2") None 7
      TransactionStatusCompleted in
  let w := sample_world ∅ (<["tx-1" := existing]> ∅) [] in
  let run := TransactionUseCase.ProcessTransaction transactionService request in
  (∃ cause,
     result run w
     = Fail (Errorf "failed to create transaction"
               (Errorf "failed to create transaction" cause))) ∧
  transactions (after run w) = transactions w ∧
  broker (after run w) = broker w ∧
  accounts (after run w) = accounts w.
Proof.
  intros request existing w run.
  apply (ProcessTransaction_refuses_known_id w request existing); try reflexivity.
  discriminate.
Defined.


Lemma CancelTransaction_cancels_pending_witness :
  let stored :=
    sample_transaction "tx-1" TransactionTypeDeposit None (Some "acc-1") 50
      TransactionStatusPending in
  let w := sample_world ∅ (<["tx-1" := stored]> ∅) [] in
  let run := TransactionUseCase.CancelTransaction transactionService "tx-1" in
  result run w = Ok tt ∧
  transactions (after run w)
    = <["tx-1" := status_doc stored TransactionStatusCancelled "Cancelled by user"
                    10 11]> (transactions w) ∧
  Transaction.ProcessedAt
    (status_doc stored TransactionStatusCancelled "Cancelled by user" 10 11) = None ∧
  broker (after run w) = broker w ∧
  accounts (after run w) = accounts w.
Proof.
  intros stored w run.
  apply (CancelTransaction_cancels_pending w "tx-1" stored); reflexivity.
Defined.

(** ** Accounts on concrete data *)



Lemma DeactivateAccount_deactivates_witness :
  let account := sample_account "acc-1" "alice" 100 4 in
  let w := sample_world (<["acc-1" := account]> ∅) ∅ [] in
  let run := AccountUseCase.DeactivateAccount accountService "acc-1" in
  let row := Account.mk "acc-1" "alice" 100 "USD" "inactive" 0 11 5 in
  result run w = Ok tt ∧
  accounts (after run w) = <["acc-1" := row]> (accounts w) ∧
  ∀ request,
    TransactionRequest.IsValid request = None ->
    TransactionRequest.Type_ request = TransactionTypeDeposit ->
    TransactionRequest.ToAccountID request = Some "acc-1" ->
    result (TransactionUseCase.handler transactionService (Encoded request))
      (after run w) = Fail ErrAccountInactive.
Proof.
  intros account w run row.
  apply (DeactivateAccount_deactivates w "acc-1" account); try reflexivity.
  intros id1 id2 row1 row2 H1 H2 _ _. subst w. cbn [accounts sample_world] in H1, H2.
  apply lookup_insert_Some in H1 as [[<- _]|[_ H1]];
    [|rewrite lookup_empty in H1; discriminate].
  apply lookup_insert_Some in H2 as [[<- _]|[_ H2]];
    [reflexivity|rewrite lookup_empty in H2; discriminate].
Defined.

(** ** Invariants on concrete data *)

Lemma one_account_per_owner_and_currency_witness :
  let w :=
    mkWorld (<["acc-1" := sample_account "acc-1" "alice" 100 1]> ∅) ∅
      (mkBroker None None ∅) [[OtherCreateAccount "alice" 1 "USD"]] 10
      ["id-7"; "id-8"] [] [] in
  let actions :=
    [ActCreateAccount "alice" 5 "USD"; ActCreateAccount "bob" 5 "USD";
     ActDeactivateAccount "acc-1"] in
  let rows := accounts (after (perform_all actions) w) in
  (∀ id1 id2 row1 row2,
     rows !! id1 = Some row1 -> rows !! id2 = Some row2 ->
     Account.UserID row1 = Account.UserID row2 ->
     Account.Currency row1 = Account.Currency row2 ->
     id1 = id2) ∧
  (∀ id row, rows !! id = Some row -> Account.ID row = id).
Proof.
  intros w actions rows.
  apply (one_account_per_owner_and_currency w actions).
  - apply map_Forall_insert_2; [reflexivity|apply map_Forall_empty].
  - apply unique_owner_singleton.
Defined.

Lemma accounts_are_kept_witness :
  let row := sample_account "acc-1" "alice" 100 1 in
  let w :=
    sample_world (<["acc-1" := row]> ∅)
      (<["tx-1" := sample_transaction "tx-1" TransactionTypeDeposit
                     None (Some "acc-1") 50 TransactionStatusPending]> ∅)
      [[OtherUpdateBalance "acc-1" 500 1]] in
  let actions :=
    [ActDeliver (Encoded (sample_request "tx-1" TransactionTypeDeposit
                            None (Some "acc-1") 50));
     ActDeactivateAccount "acc-1"] in
  ∃ row',
    accounts (after (perform_all actions) w) !! "acc-1" = Some row' ∧
    Account.ID row' = Account.ID row ∧
    Account.UserID row' = Account.UserID row ∧
    Account.Currency row' = Account.Currency row ∧
    Account.CreatedAt row' = Account.CreatedAt row ∧
    Account.Version row <= Account.Version row' ∧
    (Account.Version row' = Account.Version row -> row' = row) ∧
    (Account.Status row = "inactive" -> Account.Status row' = "inactive").
Proof.
  intros row w actions.
  apply (accounts_are_kept w actions "acc-1" row).
  - apply map_Forall_insert_2; [reflexivity|apply map_Forall_empty].
  - apply unique_owner_singleton.
  - reflexivity.
Defined.
